(** * Consulate command line: a shallow embedding of [consulate/cli.py]

    The handlers of [cli.py] are embedded as computations in a small
    state-and-exception monad over a [world] that holds the remote
    key/value store, the log of requests sent to it, the standard streams
    and the files.  Python values are a first-order datatype; text is a
    list of code points.  The parsers of [cli.py] are embedded as the tree
    of their declarations; [parse_args] of [argparse] is a parameter. *)

From Stdlib Require Import ZArith List String Ascii Bool Lia.
From Stdlib Require Import DecimalString DecimalZ DecimalFacts DecimalPos.
From stdpp Require Import gmap strings list fin_maps.

Open Scope Z_scope.

(** ** Text *)

(** A Python string is a sequence of code points. *)
Definition pystr := list Z.

(** The text of a string literal of the source. *)
Definition py (s : string) : pystr :=
  List.map (fun a => Z.of_N (N_of_ascii a)) (list_ascii_of_string s).

Fixpoint pystr_eqb (s t : pystr) : bool :=
  match s, t with
  | [], [] => true
  | c :: s', d :: t' => (c =? d) && pystr_eqb s' t'
  | _, _ => false
  end.

Fixpoint startswith (s prefix : pystr) {struct prefix} : bool :=
  match prefix, s with
  | [], _ => true
  | d :: prefix', c :: s' => (c =? d) && startswith s' prefix'
  | _ :: _, [] => false
  end.

(** [sep.join(parts)] *)
Fixpoint join (sep : pystr) (parts : list pystr) : pystr :=
  match parts with
  | [] => []
  | [p] => p
  | p :: rest => p ++ sep ++ join sep rest
  end.

(** [s.split(sep)] for a one-character separator: empty fields are kept. *)
Fixpoint split_on (sep : Z) (s : pystr) : list pystr :=
  match s with
  | [] => [[]]
  | c :: s' =>
      if c =? sep then [] :: split_on sep s'
      else match split_on sep s' with
           | [] => [[c]]
           | w :: ws => (c :: w) :: ws
           end
  end.

(** Decimal rendering of an integer, as [str(n)], [repr(n)] and ['%s' % n]
    give it. *)
Fixpoint uint_chars (u : Decimal.uint) : pystr :=
  match u with
  | Decimal.Nil => []
  | Decimal.D0 u => 48 :: uint_chars u
  | Decimal.D1 u => 49 :: uint_chars u
  | Decimal.D2 u => 50 :: uint_chars u
  | Decimal.D3 u => 51 :: uint_chars u
  | Decimal.D4 u => 52 :: uint_chars u
  | Decimal.D5 u => 53 :: uint_chars u
  | Decimal.D6 u => 54 :: uint_chars u
  | Decimal.D7 u => 55 :: uint_chars u
  | Decimal.D8 u => 56 :: uint_chars u
  | Decimal.D9 u => 57 :: uint_chars u
  end.

Definition str_of_int (z : Z) : pystr :=
  match Z.to_int z with
  | Decimal.Pos u => uint_chars u
  | Decimal.Neg u => 45 :: uint_chars u
  end.

(** ['{0:>w}'.format(s)]: right-justify in a field of [w] characters,
    padding with spaces on the left; longer text is not truncated. *)
Definition rjust (w : nat) (s : pystr) : pystr :=
  repeat 32 (w - length s)%nat ++ s.

(** ** Values *)

Unset Elimination Schemes.
Inductive pyval :=
| PNone
| PBool (b : bool)
| PInt (z : Z)
| PFloat (lexeme : pystr)
| PStr (s : pystr)
| PBytes (b : list Z)
| PList (l : list pyval)
| PDict (d : list (pystr * pyval)).
Set Elimination Schemes.

(** [PStr] is text ([str] on Python 3, [unicode] on Python 2) and [PBytes]
    a byte string ([bytes] on Python 3, [str] on Python 2).  The texts of
    the command line and the string literals of [cli.py] are [PStr] on both
    runtimes: Python 2 has them as [str], and what [cli.py] does with them
    ([==], [+], slices, [split], [%s]) acts on them as it does on text.
    A float keeps the literal it was read from; its numeric value is not
    interpreted.  A dictionary keeps its items in insertion order. *)

Inductive exn :=
| ConnectionError
| SystemExit (code : Z)
| AttributeError (name : string)
| KeyError
| TypeError
| IndexError
| ValueError
| IOError
| UnicodeDecodeError.

Inductive result (A : Type) :=
| Ok (a : A)
| Raise (e : exn).
Arguments Ok {A} a.
Arguments Raise {A} e.

(** Truth value of an object, as [if x] and [not x] take it. *)
Definition truthy (v : pyval) : bool :=
  match v with
  | PNone => false
  | PBool b => b
  | PInt z => negb (z =? 0)
  | PFloat _ => true
  | PStr s => negb (pystr_eqb s [])
  | PBytes b => negb (pystr_eqb b [])
  | PList l => match l with [] => false | _ => true end
  | PDict d => match d with [] => false | _ => true end
  end.

(** [v == 'literal'] *)
Definition eq_str (v : pyval) (s : pystr) : bool :=
  match v with
  | PStr t => pystr_eqb t s
  | _ => false
  end.

(** [len(v)] *)
Definition py_len (v : pyval) : result Z :=
  match v with
  | PStr s => Ok (Z.of_nat (length s))
  | PBytes b => Ok (Z.of_nat (length b))
  | PList l => Ok (Z.of_nat (length l))
  | PDict d => Ok (Z.of_nat (length d))
  | _ => Raise TypeError
  end.

(** [v[:-1]] *)
Definition slice_init (v : pyval) : result pyval :=
  match v with
  | PStr s => Ok (PStr (removelast s))
  | PBytes b => Ok (PBytes (removelast b))
  | PList l => Ok (PList (removelast l))
  | _ => Raise TypeError
  end.

(** [v + 'literal'] *)
Definition add_str (v : pyval) (s : pystr) : result pyval :=
  match v with
  | PStr t => Ok (PStr (t ++ s))
  | _ => Raise TypeError
  end.

(** [v.split(',')]; only strings have the method. *)
Definition py_split (v : pyval) (sep : Z) : result pyval :=
  match v with
  | PStr s => Ok (PList (List.map PStr (split_on sep s)))
  | _ => Raise (AttributeError "split")
  end.

(** ** The world a command runs in *)

(** A record of the store: [(path, (flags, value))]; the list is in the
    order the store enumerates. *)
Definition store := list (pystr * (pyval * pyval)).

Fixpoint store_lookup (k : pystr) (s : store) : option (pyval * pyval) :=
  match s with
  | [] => None
  | (k', fv) :: s' => if pystr_eqb k' k then Some fv else store_lookup k s'
  end.

Fixpoint store_put (k : pystr) (fv : pyval * pyval) (s : store) : store :=
  match s with
  | [] => [(k, fv)]
  | (k', fv') :: s' =>
      if pystr_eqb k' k then (k, fv) :: s' else (k', fv') :: store_put k fv s'
  end.

Definition store_remove (k : pystr) (s : store) : store :=
  List.filter (fun r => negb (pystr_eqb (fst r) k)) s.

Definition store_remove_prefix (k : pystr) (s : store) : store :=
  List.filter (fun r => negb (startswith (fst r) k)) s.

(** Requests a handler sends through the client, one constructor per
    client method [cli.py] calls. *)
Inductive call :=
| KvRecords
| KvKeys
| KvGetItem (key : pystr)
| KvGet (key : pystr)
| KvSetItem (key : pystr) (value : pyval)
| KvSet (key : pystr) (value : pyval)
| KvSetRecord (key : pystr) (flags value : pyval) (replace : bool)
| KvDelete (key : pystr) (recurse : bool)
| KvDelItem (key : pystr)
| AgentServiceRegister (name service_id address port tags check interval ttl : pyval).

(** A file handle: one of the standard streams or an opened file. *)
Inductive handle :=
| Stdin
| Stdout
| File (path : pystr).

Record world := World {
  w_kv : store;                      (* content of the remote store *)
  w_services : list call;            (* registrations the agent accepted *)
  w_requests : list (call * bool);   (* requests so far; [false]: transport failed *)
  w_transport : nat -> bool;         (* does the n-th request reach the store? *)
  w_stdin : pystr;
  w_stdout : pystr;
  w_stderr : pystr;
  w_files : list (pystr * pystr);    (* the files and their content *)
  w_writable : pystr -> bool         (* can a file of that name be opened for writing? *)
}.

Definition set_kv (s : store) (w : world) : world :=
  World s (w_services w) (w_requests w) (w_transport w)
        (w_stdin w) (w_stdout w) (w_stderr w) (w_files w) (w_writable w).
Definition add_service (c : call) (w : world) : world :=
  World (w_kv w) (w_services w ++ [c]) (w_requests w) (w_transport w)
        (w_stdin w) (w_stdout w) (w_stderr w) (w_files w) (w_writable w).
Definition log_request (c : call) (ok : bool) (w : world) : world :=
  World (w_kv w) (w_services w) (w_requests w ++ [(c, ok)]) (w_transport w)
        (w_stdin w) (w_stdout w) (w_stderr w) (w_files w) (w_writable w).
Definition put_stdout (s : pystr) (w : world) : world :=
  World (w_kv w) (w_services w) (w_requests w) (w_transport w)
        (w_stdin w) (w_stdout w ++ s) (w_stderr w) (w_files w) (w_writable w).
Definition put_stderr (s : pystr) (w : world) : world :=
  World (w_kv w) (w_services w) (w_requests w) (w_transport w)
        (w_stdin w) (w_stdout w) (w_stderr w ++ s) (w_files w) (w_writable w).
Definition set_files (fs : list (pystr * pystr)) (w : world) : world :=
  World (w_kv w) (w_services w) (w_requests w) (w_transport w)
        (w_stdin w) (w_stdout w) (w_stderr w) fs (w_writable w).

(** ** The monad of handlers: state and exceptions *)

Definition M (A : Type) : Type := world -> result A * world.

Definition ret {A} (a : A) : M A := fun w => (Ok a, w).
Definition raise {A} (e : exn) : M A := fun w => (Raise e, w).
Definition bind {A B} (m : M A) (k : A -> M B) : M B :=
  fun w => match m w with
           | (Ok a, w') => k a w'
           | (Raise e, w') => (Raise e, w')
           end.
Definition lift {A} (r : result A) : M A := fun w => (r, w).

Notation "x <- m ;; k" := (bind m (fun x => k))
  (at level 100, m at next level, right associativity).
Notation "m ;;; k" := (bind m (fun _ => k))
  (at level 100, right associativity).

(** [try: body except exceptions.ConnectionError: handler] *)
Definition try_except_ConnectionError {A} (body handler : M A) : M A :=
  fun w => match body w with
           | (Raise ConnectionError, w') => handler w'
           | r => r
           end.

(** [for x in l: body] *)
Fixpoint for_each {A} (l : list A) (body : A -> M unit) : M unit :=
  match l with
  | [] => ret tt
  | x :: l' => body x ;;; for_each l' body
  end.

Definition stdout_write (s : pystr) : M unit := fun w => (Ok tt, put_stdout s w).
Definition stderr_write (s : pystr) : M unit := fun w => (Ok tt, put_stderr s w).
Definition sys_exit {A} (code : Z) : M A := raise (SystemExit code).

(** *** Files *)

Fixpoint file_lookup (p : pystr) (fs : list (pystr * pystr)) : option pystr :=
  match fs with
  | [] => None
  | (q, c) :: fs' => if pystr_eqb q p then Some c else file_lookup p fs'
  end.

Fixpoint file_put (p c : pystr) (fs : list (pystr * pystr)) : list (pystr * pystr) :=
  match fs with
  | [] => [(p, c)]
  | (q, c') :: fs' =>
      if pystr_eqb q p then (p, c) :: fs' else (q, c') :: file_put p c fs'
  end.

(** [open(name, 'w')]: the file is created or truncated.  A name that cannot
    be opened for writing (its directory is missing, it names a directory,
    the permissions forbid it) is an [IOError] and no file is touched. *)
Definition open_w (name : pyval) : M handle :=
  match name with
  | PStr p => fun w =>
      if w_writable w p
      then (Ok (File p), set_files (file_put p [] (w_files w)) w)
      else (Raise IOError, w)
  | _ => raise TypeError
  end.

(** [open(name, 'r')]: the file has to exist. *)
Definition open_r (name : pyval) : M handle :=
  match name with
  | PStr p => fun w => match file_lookup p (w_files w) with
                       | Some _ => (Ok (File p), w)
                       | None => (Raise IOError, w)
                       end
  | _ => raise TypeError
  end.

(** [handle.write(s)] *)
Definition handle_write (h : handle) (s : pystr) : M unit :=
  match h with
  | Stdout => stdout_write s
  | File p => fun w =>
      match file_lookup p (w_files w) with
      | Some c => (Ok tt, set_files (file_put p (c ++ s) (w_files w)) w)
      | None => (Raise IOError, w)
      end
  | Stdin => raise IOError
  end.

(** [handle.read()] *)
Definition handle_read (h : handle) : M pystr :=
  match h with
  | Stdin => fun w => (Ok (w_stdin w), w)
  | File p => fun w =>
      match file_lookup p (w_files w) with
      | Some c => (Ok c, w)
      | None => (Raise IOError, w)
      end
  | Stdout => raise IOError
  end.

(** ** The client of the remote store *)

(** The transport adapter classes of [consulate.adapters] that [main] names. *)
Inductive adapter_class :=
| UnixSocketRequest.

(** The object [consulate.Consul(host, port, datacenter, token, scheme,
    adapter)] that [main] builds and passes to every handler. *)
Record Consul := {
  c_host : pyval;
  c_port : pyval;
  c_datacenter : pyval;
  c_token : pyval;
  c_scheme : pyval;
  c_adapter : option adapter_class
}.

(** Modelled from the spec: the client library (the [kv] and
    [agent.service] endpoints of [consulate.Consul]) is not in [cli.py].
    Following the remote collaborator contract, every method sends one
    request; a request the transport does not deliver raises
    [ConnectionError] and leaves the store as it was. *)
Definition request {A} (c : call) (serve : world -> result A * world) : M A :=
  fun w =>
    if w_transport w (length (w_requests w))
    then serve (log_request c true w)
    else (Raise ConnectionError, log_request c false w).

(** Modelled from the spec: paths are strings, and the spec names no
    exception for a key that is no text.  The methods use the key as text,
    so such a key ends in the error of a string method the value does not
    have, before anything is sent. *)
Definition with_path {A} (key : pyval) (k : pystr -> M A) : M A :=
  match key with
  | PStr p => k p
  | _ => raise (AttributeError "lstrip")
  end.

(** Modelled from the spec: [consul.kv.records()], full-record enumeration
    as a list of [(path, flags, value)] in the store's order. *)
Definition consul_kv_records (consul : Consul) : M pyval :=
  request KvRecords (fun w =>
    (Ok (PList (List.map (fun r => PList [PStr (fst r); fst (snd r); snd (snd r)])
                         (w_kv w))), w)).

(** Modelled from the spec: [consul.kv.keys()], the paths in the store's
    order. *)
Definition consul_kv_keys (consul : Consul) : M pyval :=
  request KvKeys (fun w =>
    (Ok (PList (List.map (fun r => PStr (fst r)) (w_kv w))), w)).

(** Modelled from the spec: [consul.kv[key]], get-by-key; the value of a
    record may be absent ([None]); a missing key is a [KeyError]. *)
Definition consul_kv_getitem (consul : Consul) (key : pyval) : M pyval :=
  with_path key (fun p =>
    request (KvGetItem p) (fun w =>
      match store_lookup p (w_kv w) with
      | Some (_, v) => (Ok v, w)
      | None => (Raise KeyError, w)
      end)).

(** Modelled from the spec: [consul.kv.get(key)], get-by-key with [None]
    for a missing key. *)
Definition consul_kv_get (consul : Consul) (key : pyval) : M pyval :=
  with_path key (fun p =>
    request (KvGet p) (fun w =>
      match store_lookup p (w_kv w) with
      | Some (_, v) => (Ok v, w)
      | None => (Ok PNone, w)
      end)).

(** Flags a plain [set] stores: those the record already has, else [0]. *)
Definition flags_of (p : pystr) (s : store) : pyval :=
  match store_lookup p s with
  | Some (f, _) => f
  | None => PInt 0
  end.

(** Modelled from the spec: [consul.kv[key] = value], set-by-key. *)
Definition consul_kv_setitem (consul : Consul) (key value : pyval) : M unit :=
  with_path key (fun p =>
    request (KvSetItem p value) (fun w =>
      (Ok tt, set_kv (store_put p (flags_of p (w_kv w), value) (w_kv w)) w))).

(** Modelled from the spec: [consul.kv.set(key, value)], set-by-key. *)
Definition consul_kv_set (consul : Consul) (key value : pyval) : M unit :=
  with_path key (fun p =>
    request (KvSet p value) (fun w =>
      (Ok tt, set_kv (store_put p (flags_of p (w_kv w), value) (w_kv w)) w))).

(** Modelled from the spec: what a delivered [set_record] does to the
    store, set-by-key with the only-if-absent option: when [replace] is
    false a key that exists is left as it is. *)
Definition store_set_record (p : pystr) (flags value : pyval) (replace : bool)
    (s : store) : store :=
  match store_lookup p s with
  | Some _ => if replace then store_put p (flags, value) s else s
  | None => store_put p (flags, value) s
  end.

(** Modelled from the spec: [consul.kv.set_record(key, flags, value,
    replace)], one request that writes the record with its flags. *)
Definition consul_kv_set_record (consul : Consul)
    (key flags value : pyval) (replace : bool) : M unit :=
  with_path key (fun p =>
    request (KvSetRecord p flags value replace) (fun w =>
      (Ok tt, set_kv (store_set_record p flags value replace (w_kv w)) w))).

(** Modelled from the spec: [consul.kv.delete(key, recurse)], delete-by-key,
    over the whole prefix when [recurse] is set. *)
Definition consul_kv_delete (consul : Consul) (key : pyval) (recurse : bool) : M unit :=
  with_path key (fun p =>
    request (KvDelete p recurse) (fun w =>
      (Ok tt, set_kv (if recurse then store_remove_prefix p (w_kv w)
                      else store_remove p (w_kv w)) w))).

(** Modelled from the spec: [del consul.kv[key]], delete-by-key. *)
Definition consul_kv_delitem (consul : Consul) (key : pyval) : M unit :=
  with_path key (fun p =>
    request (KvDelItem p) (fun w => (Ok tt, set_kv (store_remove p (w_kv w)) w))).

(** Modelled from the spec: [consul.agent.service.register(...)], one
    registration call carrying the payload as given. *)
Definition consul_agent_service_register (consul : Consul)
    (name service_id address port tags check interval ttl : pyval) : M unit :=
  let c := AgentServiceRegister name service_id address port tags check interval ttl in
  request c (fun w => (Ok tt, add_service c w)).

(** ** UTF-8 *)

(** [text.encode('utf-8')] on Python 2, the only runtime [cli.py] calls it
    on. *)
Definition utf8_encode_char (c : Z) : list Z :=
  if c <? 128 then [c]
  else if c <? 2048 then [192 + c / 64; 128 + c mod 64]
  else if c <? 65536 then [224 + c / 4096; 128 + (c / 64) mod 64; 128 + c mod 64]
  else [240 + c / 262144; 128 + (c / 4096) mod 64; 128 + (c / 64) mod 64;
        128 + c mod 64].

Definition utf8_encode (s : pystr) : list Z :=
  List.concat (List.map utf8_encode_char s).

Definition utf8_cont (b : Z) : bool := (128 <=? b) && (b <=? 191).

(** [bytes.decode('utf-8')] on Python 2: overlong forms and code points above
    U+10FFFF are rejected. *)
Fixpoint utf8_decode (bs : list Z) : option pystr :=
  match bs with
  | [] => Some []
  | b0 :: r0 =>
      if (0 <=? b0) && (b0 <? 128) then
        option_map (cons b0) (utf8_decode r0)
      else if (194 <=? b0) && (b0 <=? 223) then
        match r0 with
        | b1 :: r1 =>
            if utf8_cont b1
            then option_map (cons ((b0 - 192) * 64 + (b1 - 128))) (utf8_decode r1)
            else None
        | _ => None
        end
      else if (224 <=? b0) && (b0 <=? 239) then
        match r0 with
        | b1 :: b2 :: r2 =>
            let c := (b0 - 224) * 4096 + (b1 - 128) * 64 + (b2 - 128) in
            if utf8_cont b1 && utf8_cont b2 && (2048 <=? c)
            then option_map (cons c) (utf8_decode r2)
            else None
        | _ => None
        end
      else if (240 <=? b0) && (b0 <=? 244) then
        match r0 with
        | b1 :: b2 :: b3 :: r3 =>
            let c := (b0 - 240) * 262144 + (b1 - 128) * 4096
                     + (b2 - 128) * 64 + (b3 - 128) in
            if utf8_cont b1 && utf8_cont b2 && utf8_cont b3
               && (65536 <=? c) && (c <=? 1114111)
            then option_map (cons c) (utf8_decode r3)
            else None
        | _ => None
        end
      else None
  end.

(** ** The [json] module

    [json.dumps] and [json.load] with their default settings
    ([ensure_ascii], separators [", "] and [": "], strict strings). *)
Module Json.

Definition hex_digit (d : Z) : Z := if d <? 10 then 48 + d else 87 + d.

(** ['{0:04x}'.format(n)] for [n < 0x10000] *)
Definition hex4 (n : Z) : pystr :=
  [hex_digit ((n / 4096) mod 16); hex_digit ((n / 256) mod 16);
   hex_digit ((n / 16) mod 16); hex_digit (n mod 16)].

Definition escape_u (n : Z) : pystr := 92 :: 117 :: hex4 n.

(** The replacement of one character by [encode_basestring_ascii]. *)
Definition escape_char (c : Z) : pystr :=
  if c =? 92 then [92; 92]
  else if c =? 34 then [92; 34]
  else if c =? 8 then [92; 98]
  else if c =? 12 then [92; 102]
  else if c =? 10 then [92; 110]
  else if c =? 13 then [92; 114]
  else if c =? 9 then [92; 116]
  else if (32 <=? c) && (c <=? 126) then [c]
  else if c <? 65536 then escape_u c
  else
    let n := c - 65536 in
    let s1 := Z.lor 55296 (Z.land (Z.shiftr n 10) 1023) in
    let s2 := Z.lor 56320 (Z.land n 1023) in
    escape_u s1 ++ escape_u s2.

Definition encode_basestring_ascii (s : pystr) : pystr :=
  34 :: List.concat (List.map escape_char s) ++ [34].

Section Dumps.
Variable PYTHON3 : bool.

(** [json.dumps(v)].  Byte strings are not serializable on Python 3 and are
    decoded as UTF-8 on Python 2.  A float is written as the literal it was
    read from. *)
Fixpoint dumps (v : pyval) : result pystr :=
  match v with
  | PNone => Ok (py "null")
  | PBool true => Ok (py "true")
  | PBool false => Ok (py "false")
  | PInt z => Ok (str_of_int z)
  | PFloat lexeme => Ok lexeme
  | PStr s => Ok (encode_basestring_ascii s)
  | PBytes b =>
      if PYTHON3 then Raise TypeError
      else match utf8_decode b with
           | Some s => Ok (encode_basestring_ascii s)
           | None => Raise UnicodeDecodeError
           end
  | PList l =>
      match (fix items (l : list pyval) : result (list pystr) :=
               match l with
               | [] => Ok []
               | x :: l' =>
                   match dumps x with
                   | Raise e => Raise e
                   | Ok t => match items l' with
                             | Raise e => Raise e
                             | Ok ts => Ok (t :: ts)
                             end
                   end
               end) l with
      | Raise e => Raise e
      | Ok ts => Ok (91 :: join (py ", ") ts ++ [93])
      end
  | PDict d =>
      match (fix items (d : list (pystr * pyval)) : result (list pystr) :=
               match d with
               | [] => Ok []
               | (k, x) :: d' =>
                   match dumps x with
                   | Raise e => Raise e
                   | Ok t => match items d' with
                             | Raise e => Raise e
                             | Ok ts =>
                                 Ok ((encode_basestring_ascii k ++ py ": " ++ t) :: ts)
                             end
                   end
               end) d with
      | Raise e => Raise e
      | Ok ts => Ok (123 :: join (py ", ") ts ++ [125])
      end
  end.

End Dumps.

(** *** Decoding *)

Definition is_ws (c : Z) : bool :=
  (c =? 32) || (c =? 9) || (c =? 10) || (c =? 13).

Fixpoint skip_ws (s : pystr) : pystr :=
  match s with
  | c :: s' => if is_ws c then skip_ws s' else s
  | [] => []
  end.

Definition hex_val (c : Z) : option Z :=
  if (48 <=? c) && (c <=? 57) then Some (c - 48)
  else if (97 <=? c) && (c <=? 102) then Some (c - 87)
  else if (65 <=? c) && (c <=? 70) then Some (c - 55)
  else None.

Definition decode_uXXXX (a b c d : Z) : option Z :=
  match hex_val a, hex_val b, hex_val c, hex_val d with
  | Some x, Some y, Some z, Some t => Some (((x * 16 + y) * 16 + z) * 16 + t)
  | _, _, _, _ => None
  end.

(** The character a one-letter escape stands for. *)
Definition backslash (e : Z) : option Z :=
  if e =? 34 then Some 34
  else if e =? 92 then Some 92
  else if e =? 47 then Some 47
  else if e =? 98 then Some 8
  else if e =? 102 then Some 12
  else if e =? 110 then Some 10
  else if e =? 114 then Some 13
  else if e =? 116 then Some 9
  else None.

(** [scanstring] after the opening quote: the text up to the closing quote
    and what follows it.  [acc] holds the characters read so far, last
    first. *)
Fixpoint scanstring (s : pystr) (acc : pystr) : option (pystr * pystr) :=
  match s with
  | [] => None
  | c :: rest =>
      if c =? 34 then Some (List.rev acc, rest)
      else if c =? 92 then
        match rest with
        | [] => None
        | e :: rest1 =>
            if e =? 117 then
              match rest1 with
              | x1 :: x2 :: x3 :: x4 :: rest2 =>
                  match decode_uXXXX x1 x2 x3 x4 with
                  | None => None
                  | Some uni =>
                      if (55296 <=? uni) && (uni <=? 56319) then
                        match rest2 with
                        | b :: u :: rest3 =>
                            if (b =? 92) && (u =? 117) then
                              match rest3 with
                              | y1 :: y2 :: y3 :: y4 :: rest4 =>
                                  match decode_uXXXX y1 y2 y3 y4 with
                                  | None => None
                                  | Some uni2 =>
                                      if (56320 <=? uni2) && (uni2 <=? 57343) then
                                        scanstring rest4
                                          ((65536 + Z.lor (Z.shiftl (uni - 55296) 10)
                                                          (uni2 - 56320)) :: acc)
                                      else scanstring rest2 (uni :: acc)
                                  end
                              | _ => None
                              end
                            else scanstring rest2 (uni :: acc)
                        | _ => scanstring rest2 (uni :: acc)
                        end
                      else scanstring rest2 (uni :: acc)
                  end
              | _ => None
              end
            else
              match backslash e with
              | Some ch => scanstring rest1 (ch :: acc)
              | None => None
              end
        end
      else if c <? 32 then None
      else scanstring rest (c :: acc)
  end.

Definition is_digit (c : Z) : bool := (48 <=? c) && (c <=? 57).

Fixpoint span_digits (s : pystr) : pystr * pystr :=
  match s with
  | c :: s' =>
      if is_digit c then let (ds, r) := span_digits s' in (c :: ds, r)
      else ([], s)
  | [] => ([], [])
  end.

(** [int(digits)] *)
Definition int_of_digits (ds : pystr) : Z :=
  List.fold_left (fun acc c => acc * 10 + (c - 48)) ds 0.

(** The integer part of [NUMBER_RE]: [0|[1-9]\d*]. *)
Definition match_integer (s : pystr) : option (pystr * pystr) :=
  match s with
  | c :: s' =>
      if c =? 48 then Some ([48], s')
      else if is_digit c then Some (span_digits s)
      else None
  | [] => None
  end.

(** The optional fraction of [NUMBER_RE]: [\.\d+]. *)
Definition match_frac (s : pystr) : pystr * pystr :=
  match s with
  | c :: s' =>
      if c =? 46 then
        match span_digits s' with
        | ([], _) => ([], s)
        | (ds, r) => (c :: ds, r)
        end
      else ([], s)
  | [] => ([], [])
  end.

(** The optional exponent of [NUMBER_RE]: [[eE][-+]?\d+]. *)
Definition match_exp (s : pystr) : pystr * pystr :=
  match s with
  | c :: s' =>
      if (c =? 101) || (c =? 69) then
        match s' with
        | g :: s'' =>
            if (g =? 45) || (g =? 43) then
              match span_digits s'' with
              | ([], _) => ([], s)
              | (ds, r) => (c :: g :: ds, r)
              end
            else
              match span_digits s' with
              | ([], _) => ([], s)
              | (ds, r) => (c :: ds, r)
              end
        | [] => ([], s)
        end
      else ([], s)
  | [] => ([], [])
  end.

(** [match_number]: an integer unless a fraction or an exponent follows. *)
Definition match_number (s : pystr) : option (pyval * pystr) :=
  let (neg, s0) := match s with
                   | c :: s' => if c =? 45 then (true, s') else (false, s)
                   | [] => (false, s)
                   end in
  match match_integer s0 with
  | None => None
  | Some (ds, r) =>
      let (frac, r1) := match_frac r in
      let (exp, r2) := match_exp r1 in
      match frac, exp with
      | [], [] =>
          Some (PInt (if neg then - int_of_digits ds else int_of_digits ds), r2)
      | _, _ =>
          Some (PFloat ((if neg then [45] else []) ++ ds ++ frac ++ exp), r2)
      end
  end.

(** [dict(pairs)]: a repeated key keeps its first place and takes the last
    value. *)
Fixpoint dict_set (k : pystr) (v : pyval) (d : list (pystr * pyval))
  : list (pystr * pyval) :=
  match d with
  | [] => [(k, v)]
  | (k', v') :: d' =>
      if pystr_eqb k' k then (k', v) :: d' else (k', v') :: dict_set k v d'
  end.

Definition dict_of_pairs (pairs : list (pystr * pyval)) : list (pystr * pyval) :=
  List.fold_left (fun d kv => dict_set (fst kv) (snd kv) d) pairs [].

(** [scan_once], [JSONArray] and [JSONObject].  [fuel] bounds the number of
    nested calls; [loads] gives enough of it for any text. *)
Fixpoint scan_once (fuel : nat) (s : pystr) : option (pyval * pystr) :=
  match fuel with
  | O => None
  | S fuel' =>
      match s with
      | [] => None
      | c :: rest =>
          if c =? 34 then
            match scanstring rest [] with
            | Some (t, r) => Some (PStr t, r)
            | None => None
            end
          else if c =? 123 then
            match skip_ws rest with
            | c' :: r' =>
                if c' =? 125 then Some (PDict [], r')
                else if c' =? 34 then scan_object fuel' r' []
                else None
            | [] => None
            end
          else if c =? 91 then
            match skip_ws rest with
            | c' :: r' =>
                if c' =? 93 then Some (PList [], r')
                else scan_array fuel' (c' :: r') []
            | [] => None
            end
          else if startswith s (py "null") then Some (PNone, drop 4 s)
          else if startswith s (py "true") then Some (PBool true, drop 4 s)
          else if startswith s (py "false") then Some (PBool false, drop 5 s)
          else
            match match_number s with
            | Some r => Some r
            | None =>
                if startswith s (py "NaN") then Some (PFloat (py "NaN"), drop 3 s)
                else if startswith s (py "Infinity")
                then Some (PFloat (py "Infinity"), drop 8 s)
                else if startswith s (py "-Infinity")
                then Some (PFloat (py "-Infinity"), drop 9 s)
                else None
            end
      end
  end
with scan_array (fuel : nat) (s : pystr) (acc : list pyval)
  : option (pyval * pystr) :=
  match fuel with
  | O => None
  | S fuel' =>
      match scan_once fuel' s with
      | None => None
      | Some (v, r) =>
          match skip_ws r with
          | c :: r' =>
              if c =? 93 then Some (PList (List.rev (v :: acc)), r')
              else if c =? 44 then scan_array fuel' (skip_ws r') (v :: acc)
              else None
          | [] => None
          end
      end
  end
with scan_object (fuel : nat) (s : pystr) (acc : list (pystr * pyval))
  : option (pyval * pystr) :=
  match fuel with
  | O => None
  | S fuel' =>
      match scanstring s [] with
      | None => None
      | Some (key, r) =>
          match skip_ws r with
          | c :: r0 =>
              if c =? 58 then
                match scan_once fuel' (skip_ws r0) with
                | None => None
                | Some (v, r1) =>
                    match skip_ws r1 with
                    | c1 :: r2 =>
                        if c1 =? 125
                        then Some (PDict (dict_of_pairs (List.rev ((key, v) :: acc))), r2)
                        else if c1 =? 44 then
                          match skip_ws r2 with
                          | c2 :: r3 =>
                              if c2 =? 34 then scan_object fuel' r3 ((key, v) :: acc)
                              else None
                          | [] => None
                          end
                        else None
                    | [] => None
                    end
                end
              else None
          | [] => None
          end
      end
  end.

(** [json.loads(s)]: one value, white space around it and nothing else;
    [None] stands for the [ValueError] of a text that is not JSON. *)
Definition loads (s : pystr) : option pyval :=
  match scan_once (2 * length s + 1) (skip_ws s) with
  | Some (v, r) => match skip_ws r with
                   | [] => Some v
                   | _ => None
                   end
  | None => None
  end.

End Json.

(** ** The [argparse] module

    What [cli.py] uses of it: parsers with optional and positional
    arguments (actions [store] and [store_true], [nargs='?'], [type=int],
    [default], [dest]) and sub-commands.  The namespace [parse_args]
    returns maps attribute names to values.

    [parse_args] itself is code of the standard library, not of [cli.py]:
    the embedding of [cli.py] takes it as a parameter.  What it returns
    for a parser is described by [namespace_of] below, from the
    declarations alone: it holds of the namespace of every command line
    [parse_args] accepts, however its options are spelled (in full or
    abbreviated, [--opt value] or [--opt=value], [-f value] or [-fvalue],
    switches one by one or bundled). *)
Module Argparse.

Record kwargs := Kwargs {
  help : string;
  nargs : option string;
  action : option string;
  default : pyval;
  type_int : bool;
  dest : option string
}.

(** [{'help': h}] and the other keys the source gives. *)
Definition kw (h : string) : kwargs := Kwargs h None None PNone false None.
Definition with_nargs (n : string) (k : kwargs) : kwargs :=
  Kwargs (help k) (Some n) (action k) (default k) (type_int k) (dest k).
Definition with_action (a : string) (k : kwargs) : kwargs :=
  Kwargs (help k) (nargs k) (Some a) (default k) (type_int k) (dest k).
Definition with_default (d : pyval) (k : kwargs) : kwargs :=
  Kwargs (help k) (nargs k) (action k) d (type_int k) (dest k).
Definition with_type_int (k : kwargs) : kwargs :=
  Kwargs (help k) (nargs k) (action k) (default k) true (dest k).
Definition with_dest (d : string) (k : kwargs) : kwargs :=
  Kwargs (help k) (nargs k) (action k) (default k) (type_int k) (Some d).

(** An argument as [add_argument] declares it: its names and its keywords. *)
Definition argument : Type := list string * kwargs.

Unset Elimination Schemes.
Inductive parser :=
| Parser (arguments : list argument)
         (subparsers : option (string * list (string * parser))).
Set Elimination Schemes.

Definition arguments (p : parser) : list argument :=
  match p with Parser a _ => a end.
Definition subparsers (p : parser) : option (string * list (string * parser)) :=
  match p with Parser _ s => s end.

Definition is_flag (name : string) : bool :=
  match name with
  | String c _ => Ascii.eqb c "-"%char
  | EmptyString => false
  end.

Definition is_long_flag (name : string) : bool :=
  match name with
  | String c (String d _) => Ascii.eqb c "-"%char && Ascii.eqb d "-"%char
  | _ => false
  end.

Fixpoint lstrip_dash (s : string) : string :=
  match s with
  | String c s' => if Ascii.eqb c "-"%char then lstrip_dash s' else s
  | EmptyString => EmptyString
  end.

Fixpoint dash_to_underscore (s : string) : string :=
  match s with
  | String c s' =>
      String (if Ascii.eqb c "-"%char then "_"%char else c) (dash_to_underscore s')
  | EmptyString => EmptyString
  end.

Definition is_positional (a : argument) : bool :=
  match fst a with
  | [name] => negb (is_flag name)
  | _ => false
  end.

(** The attribute an argument is stored under: the [dest] keyword, else the
    name of a positional, else the first long flag (or the first flag)
    without its dashes and with [-] turned into [_]. *)
Definition dest_of (a : argument) : string :=
  match dest (snd a) with
  | Some d => d
  | None =>
      if is_positional a then List.hd EmptyString (fst a)
      else
        let flag := match List.filter is_long_flag (fst a) with
                    | l :: _ => l
                    | [] => List.hd EmptyString (fst a)
                    end in
        dash_to_underscore (lstrip_dash flag)
  end.

Abbreviation namespace := (gmap string pyval).

(** [action='store_true'] *)
Definition is_store_true (a : argument) : bool :=
  match action (snd a) with
  | Some act => String.eqb act "store_true"
  | None => false
  end.

(** [nargs='?'] *)
Definition is_optional_value (a : argument) : bool :=
  match nargs (snd a) with
  | Some n => String.eqb n "?"
  | None => false
  end.

(** The default of an argument: [False] for [store_true], else the
    [default] keyword. *)
Definition default_of (a : argument) : pyval :=
  if is_store_true a then PBool false else default (snd a).

(** *** What [parse_args] returns *)

(** The attributes a parser writes: the destinations of its arguments and
    of its sub-command. *)
Definition dests (p : parser) : list string :=
  List.map dest_of (arguments p)
  ++ match subparsers p with
     | Some (d, _) => [d]
     | None => []
     end.

(** The value stored for the text given to an argument: an integer for
    [type=int], else the text itself. *)
Definition stored (a : argument) (x : pyval) : Prop :=
  if type_int (snd a) then exists i, x = PInt i else exists s, x = PStr s.

(** What an argument leaves in the namespace.  A positional (all of
    [cli.py] take one text): the value stored for it.  An option: its
    default when it is not given; else [True] for [store_true], [None] for
    [nargs='?'] given without a value, and otherwise the value stored for
    its text. *)
Definition arg_value (a : argument) (x : pyval) : Prop :=
  if is_positional a then stored a x
  else x = default_of a
       \/ (is_store_true a = true /\ x = PBool true)
       \/ (is_store_true a = false /\ is_optional_value a = true /\ x = PNone)
       \/ (is_store_true a = false /\ stored a x).

(** The namespace has such a value under the attribute of the argument. *)
Definition holds (ns : namespace) (a : argument) : Prop :=
  exists x, ns !! dest_of a = Some x /\ arg_value a x.

(** Every argument of [p] has its value in [ns]. *)
Definition filled (p : parser) (ns : namespace) : Prop :=
  forall a, In a (arguments p) -> holds ns a.

(** [route root chain p]: the parser [p] is reached from [root] by the
    sub-commands named in [chain], each with the parser it was read by. *)
Inductive route (root : parser) : list (parser * string) -> parser -> Prop :=
| route_root : route root [] root
| route_step chain p d choices name sub :
    route root chain p ->
    subparsers p = Some (d, choices) -> In (name, sub) choices ->
    route root (chain ++ [(p, name)]) sub.

(** A step of the chain as the namespace records it: the arguments of the
    parser have their values and its sub-command attribute is the name. *)
Definition chose (ns : namespace) (step : parser * string) : Prop :=
  filled (fst step) ns
  /\ exists d choices, subparsers (fst step) = Some (d, choices)
                       /\ ns !! d = Some (PStr (py (snd step))).

(** The attributes the parsers of a route write. *)
Definition route_dests (chain : list (parser * string)) (p : parser) : list string :=
  List.concat (List.map (fun step => dests (fst step)) chain) ++ dests p.

(** An attribute some parser reachable from [root] writes. *)
Definition declares (root : parser) (k : string) : Prop :=
  exists chain p, route root chain p /\ In k (route_dests chain p).

(** [namespace_of PYTHON3 root ns]: [ns] is a namespace [parse_args] can
    return for the parser [root].  The command line named the sub-commands
    of [chain] and ended in the parser [p]: the arguments of every parser
    on the way, and those of [p], have their values; the sub-command
    attribute of every parser on the way is the name chosen, and that of
    [p], if [p] has sub-commands, is [None]; there is no attribute besides
    these.  On Python 2 a parser with sub-commands requires one, so [p] has
    none; on Python 3 the sub-command may be left out. *)
Definition namespace_of (PYTHON3 : bool) (root : parser) (ns : namespace) : Prop :=
  exists chain p,
    route root chain p
    /\ Forall (chose ns) chain
    /\ filled p ns
    /\ (forall d choices, subparsers p = Some (d, choices) -> ns !! d = Some PNone)
    /\ (forall k, is_Some (ns !! k) -> In k (route_dests chain p))
    /\ (PYTHON3 = false -> subparsers p = None).

(** [args.name]: an attribute the namespace does not have is an
    [AttributeError]. *)
Definition getattr (ns : namespace) (name : string) : M pyval :=
  match ns !! name with
  | Some v => ret v
  | None => raise (AttributeError name)
  end.

End Argparse.

(** ** [consulate/cli.py] *)

Import Argparse.

Section Cli.

(** [utils.PYTHON3]: does the program run on Python 3? *)
Variable PYTHON3 : bool.

(** [ArgumentParser.parse_args] on the command line (without the program
    name): code of the standard library.  It returns a namespace, or exits
    with status 2 after a usage error and with status 0 after [-h]. *)
Variable parse_args : parser -> list pystr -> result namespace.

(** *** Operations on values *)

(** [repr(v)] for the values nested in a container; the quoting of text is
    rendered without escapes. *)
Fixpoint py_repr (v : pyval) : pystr :=
  match v with
  | PNone => py "None"
  | PBool true => py "True"
  | PBool false => py "False"
  | PInt z => str_of_int z
  | PFloat lexeme => lexeme
  | PStr s => 39 :: s ++ [39]
  | PBytes b => if PYTHON3 then 98 :: 39 :: b ++ [39] else 39 :: b ++ [39]
  | PList l => 91 :: join (py ", ") (List.map py_repr l) ++ [93]
  | PDict d =>
      123 :: join (py ", ")
                  (List.map (fun kv => 39 :: fst kv ++ [39] ++ py ": " ++ py_repr (snd kv)) d)
          ++ [125]
  end.

(** [str(v)], which ['%s' % v], [print(v)] and ['{}'.format(v)] use. *)
Definition py_str (v : pyval) : pystr :=
  match v with
  | PStr s => s
  | PBytes b => if PYTHON3 then py_repr v else b
  | _ => py_repr v
  end.

(** [print(v)] *)
Definition print (v : pystr) : M unit := stdout_write (v ++ [10]).

(** The items [for x in v] goes through. *)
Definition iterate (v : pyval) : result (list pyval) :=
  match v with
  | PList l => Ok l
  | PDict d => Ok (List.map (fun kv => PStr (fst kv)) d)
  | PStr s => Ok (List.map (fun c => PStr [c]) s)
  | PBytes b => Ok (List.map (fun c => if PYTHON3 then PInt c else PBytes [c]) b)
  | _ => Raise TypeError
  end.

(** [v[i]] for a constant index [i]. *)
Definition getitem (v : pyval) (i : nat) : result pyval :=
  match v with
  | PList l => match nth_error l i with
               | Some x => Ok x
               | None => Raise IndexError
               end
  | PStr s => match nth_error s i with
              | Some c => Ok (PStr [c])
              | None => Raise IndexError
              end
  | PBytes b => match nth_error b i with
                | Some c => Ok (if PYTHON3 then PInt c else PBytes [c])
                | None => Raise IndexError
                end
  | PDict _ => Raise KeyError
  | _ => Raise TypeError
  end.

(** [v[i] = x]: only a list takes the assignment. *)
Definition setitem (v : pyval) (i : nat) (x : pyval) : result pyval :=
  match v with
  | PList l => if (i <? length l)%nat then Ok (PList (<[i := x]> l))
               else Raise IndexError
  | _ => Raise TypeError
  end.

(** *** The source, top to bottom *)

Definition connection_error {A} : M A :=
  stderr_write (py "ERROR: Could not connect to consul" ++ [10]) ;;;
  sys_exit 1.

Definition KV_PARSERS : list (string * string * list argument) :=
  [ ("backup", "Backup to stdout or a JSON file",
     [ (["-f"; "--file"],
        with_nargs "?" (kw "JSON file to read instead of stdin")) ]);
    ("restore", "Restore from stdin or a JSON file",
     [ (["-f"; "--file"],
        with_nargs "?" (kw "JSON file to read instead of stdin"));
       (["-n"; "--no-replace"],
        with_action "store_true" (kw "Do not replace existing entries")) ]);
    ("ls", "List all of the keys",
     [ (["-l"; "--long"], with_action "store_true" (kw "Long format")) ]);
    ("mkdir", "Create a folder",
     [ (["path"], kw "The path to create") ]);
    ("get", "Get a key from the database",
     [ (["key"], kw "The key to get") ]);
    ("set", "Set a key in the database",
     [ (["key"], kw "The key to set");
       (["value"], kw "The value of the key") ]);
    ("rm", "Remove a key from the database",
     [ (["key"], kw "The key to remove");
       (["-r"; "--recurse"],
        with_action "store_true"
          (kw "Delete all keys prefixed with the specified key")) ]) ]%string.

(** The parser of one [kv] action. *)
Definition kv_action_parser (entry : string * string * list argument)
  : string * parser :=
  match entry with
  | (name, help_text, arguments) => (name, Parser arguments None)
  end.

Definition kv_parser : parser :=
  Parser [] (Some ("action"%string, List.map kv_action_parser KV_PARSERS)).

(** The [kv] command added to the sub-commands of the top-level parser. *)
Definition add_kv_args : string * parser := ("kv"%string, kv_parser).

(** The parsers [add_register_args] creates: [check], [no-check] and [ttl]
    under [register]. *)
Definition register_check : parser :=
  Parser [ (["interval"], with_type_int (with_default (PInt 10)
              (kw "How often to run the check script")));
           (["path"], with_default PNone
              (kw "Path to the script invoked by Consul")) ]%string None.

Definition register_no_check : parser := Parser [] None.

Definition register_ttl : parser :=
  Parser [ (["duration"], with_default (PInt 10) (with_type_int
              (kw "TTL duration for a service with missing check data"))) ]%string
         None.

Definition registerp : parser :=
  Parser [ (["name"], kw "The service name");
           (["-a"; "--address"], with_default PNone (kw "Specify an address"));
           (["-p"; "--port"], with_default PNone (kw "Specify a port"));
           (["-s"; "--service-id"],
            with_default PNone (kw "Specify a service ID"));
           (["-t"; "--tags"],
            with_default (PList []) (kw "Specify a comma delimited list of tags")) ]
         (Some ("ctype", [ ("check", register_check);
                           ("no-check", register_no_check);
                           ("ttl", register_ttl) ]))%string.

(** The [register] command added to the sub-commands of the top-level
    parser. *)
Definition add_register_args : string * parser := ("register"%string, registerp).

(** The parser [parse_cli_args] creates. *)
Definition cli_parser : parser :=
  Parser [ (["--api-scheme"],
            with_default (PStr (py "http"))
              (kw "The scheme to use for connecting to Consul with"));
           (["--api-host"],
            with_default (PStr (py "localhost")) (kw "The consul host to connect on"));
           (["--api-port"],
            with_default (PInt 8500) (kw "The consul API port to connect to"));
           (["--datacenter"],
            with_dest "dc" (with_default PNone
              (kw "The datacenter to specify for the connection")));
           (["--token"], with_default PNone (kw "ACL token")) ]%string
         (Some ("command"%string, [ add_register_args; add_kv_args ])).

(** [parse_cli_args()] on the command line [argv] (without the program
    name). *)
Definition parse_cli_args (argv : list pystr) : result namespace :=
  parse_args cli_parser argv.

Definition kv_backup (consul : Consul) (args : namespace) : M unit :=
  file <- getattr args "file" ;;
  handle <- (if truthy file
             then (file <- getattr args "file" ;; open_w file)
             else ret Stdout) ;;
  try_except_ConnectionError
    (records <- consul_kv_records consul ;;
     text <- lift (Json.dumps PYTHON3 records) ;;
     handle_write handle (text ++ [10]))
    connection_error.

Definition kv_delete (consul : Consul) (args : namespace) : M unit :=
  try_except_ConnectionError
    (key <- getattr args "key" ;;
     consul_kv_delitem consul key)
    connection_error.

Definition kv_get (consul : Consul) (args : namespace) : M unit :=
  try_except_ConnectionError
    (key <- getattr args "key" ;;
     value <- consul_kv_get consul key ;;
     stdout_write (py_str value ++ [10]))
    connection_error.

Definition kv_ls (consul : Consul) (args : namespace) : M unit :=
  try_except_ConnectionError
    (keys <- consul_kv_keys consul ;;
     keys <- lift (iterate keys) ;;
     for_each keys (fun key =>
       long <- getattr args "long" ;;
       if truthy long then
         value <- consul_kv_getitem consul key ;;
         n <- lift (py_len value) ;;
         print (rjust 14 (str_of_int n) ++ [32] ++ py_str key)
       else
         print (py_str key)))
    connection_error.

Definition kv_mkdir (consul : Consul) (args : namespace) : M unit :=
  path <- getattr args "path" ;;
  init <- lift (slice_init path) ;;
  args <- (if negb (eq_str init (py "/"))
           then (path <- getattr args "path" ;;
                 path <- lift (add_str path (py "/")) ;;
                 ret (<["path"%string := path]> args))
           else ret args) ;;
  try_except_ConnectionError
    (path <- getattr args "path" ;;
     consul_kv_set consul path PNone)
    connection_error.

(** The body of the loop of [kv_restore]. *)
Definition kv_restore_row (consul : Consul) (args : namespace) (row : pyval)
  : M unit :=
  row <- (if negb PYTHON3 then
            value <- lift (getitem row 2) ;;
            match value with
            | PStr s => lift (setitem row 2 (PBytes (utf8_encode s)))
            | _ => ret row
            end
          else ret row) ;;
  try_except_ConnectionError
    (path <- lift (getitem row 0) ;;
     flags <- lift (getitem row 1) ;;
     value <- lift (getitem row 2) ;;
     no_replace <- getattr args "no_replace" ;;
     consul_kv_set_record consul path flags value (negb (truthy no_replace)))
    connection_error.

Definition kv_restore (consul : Consul) (args : namespace) : M unit :=
  file <- getattr args "file" ;;
  handle <- (if truthy file
             then (file <- getattr args "file" ;; open_r file)
             else ret Stdin) ;;
  text <- handle_read handle ;;
  data <- match Json.loads text with
          | Some data => ret data
          | None => raise ValueError
          end ;;
  rows <- lift (iterate data) ;;
  for_each rows (kv_restore_row consul args).

Definition kv_rm (consul : Consul) (args : namespace) : M unit :=
  try_except_ConnectionError
    (key <- getattr args "key" ;;
     recurse <- getattr args "recurse" ;;
     consul_kv_delete consul key (truthy recurse))
    connection_error.

Definition kv_set (consul : Consul) (args : namespace) : M unit :=
  try_except_ConnectionError
    (value <- getattr args "value" ;;
     key <- getattr args "key" ;;
     consul_kv_setitem consul key value)
    connection_error.

Definition register (consul : Consul) (args : namespace) : M unit :=
  ctype <- getattr args "ctype" ;;
  check <- (if eq_str ctype (py "check") then getattr args "path" else ret PNone) ;;
  ctype <- getattr args "ctype" ;;
  interval <- (if eq_str ctype (py "check")
               then (interval <- getattr args "interval" ;;
                     ret (PStr (py_str interval ++ py "s")))
               else ret PNone) ;;
  ctype <- getattr args "ctype" ;;
  ttl <- (if eq_str ctype (py "ttl")
          then (duration <- getattr args "duration" ;;
                ret (PStr (py_str duration ++ py "s")))
          else ret PNone) ;;
  tags <- getattr args "tags" ;;
  tags <- (if truthy tags
           then (tags <- getattr args "tags" ;; lift (py_split tags 44))
           else ret PNone) ;;
  try_except_ConnectionError
    (name <- getattr args "name" ;;
     service_id <- getattr args "service_id" ;;
     address <- getattr args "address" ;;
     port <- getattr args "port" ;;
     consul_agent_service_register consul name service_id address port
                                   tags check interval ttl)
    connection_error.

Definition KV_ACTIONS : gmap pystr (Consul -> namespace -> M unit) :=
  list_to_map
    [ (py "backup", kv_backup);
      (py "del", kv_delete);
      (py "get", kv_get);
      (py "ls", kv_ls);
      (py "mkdir", kv_mkdir);
      (py "restore", kv_restore);
      (py "rm", kv_rm);
      (py "set", kv_set) ].

(** [KV_ACTIONS[key]] *)
Definition KV_ACTIONS_getitem (key : pyval) : M (Consul -> namespace -> M unit) :=
  match key with
  | PStr name => match KV_ACTIONS !! name with
                 | Some handler => ret handler
                 | None => raise KeyError
                 end
  | PList _ | PDict _ => raise TypeError
  | _ => raise KeyError
  end.

(** The part of [main] after the arguments are parsed. *)
Definition main_body (args : namespace) : M unit :=
  scheme <- getattr args "scheme" ;;
  let adapter := if eq_str scheme (py "http+unix") then None
                 else Some UnixSocketRequest in
  api_host <- getattr args "api_host" ;;
  api_port <- getattr args "api_port" ;;
  dc <- getattr args "dc" ;;
  token <- getattr args "token" ;;
  scheme <- getattr args "scheme" ;;
  let consul := Build_Consul api_host api_port dc token scheme adapter in
  command <- getattr args "command" ;;
  if eq_str command (py "register") then register consul args
  else
    command <- getattr args "command" ;;
    if eq_str command (py "kv") then
      action <- getattr args "action" ;;
      handler <- KV_ACTIONS_getitem action ;;
      handler consul args
    else ret tt.

Definition main (argv : list pystr) : M unit :=
  args <- lift (parse_cli_args argv) ;;
  main_body args.

End Cli.

(** ** Notions used in the statements *)

(** *** A parser for command lines spelled in full

    [Exact.parse_args] is one function that can stand for the parameter
    [parse_args]: it reads a command line as [argparse] does when every
    option is spelled as declared and its value, a text that does not start
    with a dash, is the next token.  These are not all the command lines
    [argparse] accepts: abbreviated options, [--opt=value], [-fvalue],
    bundled switches and [--] are refused here.  So no property of
    [cli.py] is stated over this function; it serves to compute the
    namespaces of the sample command lines, each of which [namespace_of]
    holds of. *)
Module Exact.

(** Defaults are set for the attributes the namespace does not have yet. *)
Definition set_default (name : string) (v : pyval) (ns : namespace) : namespace :=
  match ns !! name with
  | Some _ => ns
  | None => <[name := v]> ns
  end.

Definition set_defaults (p : parser) (ns : namespace) : namespace :=
  let ns1 := List.fold_left (fun ns a => set_default (dest_of a) (default_of a) ns)
                            (arguments p) ns in
  match subparsers p with
  | Some (d, _) => set_default d PNone ns1
  | None => ns1
  end.

Definition is_digit (c : Z) : bool := (48 <=? c) && (c <=? 57).

(** [-5] and [-.5] are arguments, not flags (no parser of [cli.py] has a
    flag that looks like a negative number). *)
Definition negative_number (tok : pystr) : bool :=
  match tok with
  | 45 :: rest =>
      let ds := List.filter (fun c => negb (c =? 46)) rest in
      let dots := List.filter (fun c => c =? 46) rest in
      List.forallb is_digit ds
      && match dots with
         | [] => match ds with [] => false | _ => true end
         | [_] => match List.rev rest with
                  | c :: _ => is_digit c
                  | [] => false
                  end
         | _ => false
         end
  | _ => false
  end.

Definition flag_like (tok : pystr) : bool :=
  match tok with
  | 45 :: _ :: _ => negb (negative_number tok)
  | _ => false
  end.

Definition find_flag (tok : pystr) (args : list argument) : option argument :=
  List.find (fun a => negb (is_positional a)
                      && List.existsb (fun n => pystr_eqb (py n) tok) (fst a)) args.

(** [int(text)] for an optional sign and decimal digits. *)
Definition int_of_text (t : pystr) : option Z :=
  let digits ds :=
    match ds with
    | [] => None
    | _ => if List.forallb is_digit ds
           then Some (List.fold_left (fun acc c => acc * 10 + (c - 48)) ds 0)
           else None
    end in
  match t with
  | 45 :: ds => option_map Z.opp (digits ds)
  | 43 :: ds => digits ds
  | _ => digits t
  end.

(** The value stored for the text of an argument. *)
Definition convert (a : argument) (tok : pystr) : option pyval :=
  if type_int (snd a) then option_map PInt (int_of_text tok)
  else Some (PStr tok).

(** The value a flag stores: [True] for [store_true], [None] for an optional
    value left out, else the converted text. *)
Definition flag_value (a : argument) (x : pyval) : Prop :=
  (is_store_true a = true /\ x = PBool true)
  \/ (is_store_true a = false /\ is_optional_value a = true /\ x = PNone)
  \/ (is_store_true a = false /\ exists v, convert a v = Some x).

Section Parse.
Variable PYTHON3 : bool.

(** The tokens are read from left to right; [pending] are the positionals
    of the current parser still to be filled.  A flag is recognised by its
    exact spelling.  After the name of a sub-command the rest of the line
    belongs to that sub-command's parser.  Exit status [2] stands for a
    usage error and [0] for [-h]; the usage text is not modelled.  On
    Python 2 a parser with sub-commands requires one; on Python 3 the
    sub-command is optional and its attribute stays [None]. *)
Fixpoint parse_tokens (p : parser) (pending : list argument) (ns : namespace)
    (argv : list pystr) : result namespace :=
  match argv with
  | [] =>
      match pending with
      | _ :: _ => Raise (SystemExit 2)
      | [] =>
          match subparsers p with
          | Some _ => if PYTHON3 then Ok ns else Raise (SystemExit 2)
          | None => Ok ns
          end
      end
  | tok :: rest =>
      if flag_like tok then
        if pystr_eqb tok (py "-h") || pystr_eqb tok (py "--help")
        then Raise (SystemExit 0)
        else
          match find_flag tok (arguments p) with
          | None => Raise (SystemExit 2)
          | Some a =>
              if is_store_true a then
                parse_tokens p pending (<[dest_of a := PBool true]> ns) rest
              else if is_optional_value a then
                match rest with
                | v :: rest' =>
                    if flag_like v
                    then parse_tokens p pending (<[dest_of a := PNone]> ns) rest
                    else match convert a v with
                         | Some x =>
                             parse_tokens p pending (<[dest_of a := x]> ns) rest'
                         | None => Raise (SystemExit 2)
                         end
                | [] => parse_tokens p pending (<[dest_of a := PNone]> ns) rest
                end
              else
                match rest with
                | v :: rest' =>
                    if flag_like v then Raise (SystemExit 2)
                    else match convert a v with
                         | Some x =>
                             parse_tokens p pending (<[dest_of a := x]> ns) rest'
                         | None => Raise (SystemExit 2)
                         end
                | [] => Raise (SystemExit 2)
                end
          end
      else
        match pending with
        | a :: pending' =>
            match convert a tok with
            | Some x => parse_tokens p pending' (<[dest_of a := x]> ns) rest
            | None => Raise (SystemExit 2)
            end
        | [] =>
            match subparsers p with
            | None => Raise (SystemExit 2)
            | Some (d, choices) =>
                match List.find (fun c => pystr_eqb (py (fst c)) tok) choices with
                | None => Raise (SystemExit 2)
                | Some (_, sub) =>
                    parse_tokens sub (List.filter is_positional (arguments sub))
                                 (set_defaults sub (<[d := PStr tok]> ns)) rest
                end
            end
        end
  end.

Definition parse_args (p : parser) (argv : list pystr) : result namespace :=
  parse_tokens p (List.filter is_positional (arguments p)) (set_defaults p ∅) argv.

End Parse.

End Exact.

Import Exact.

(** Every argument of [p] but the positionals still [pending] has its
    value in [ns]. *)
Definition typed (p : parser) (pending : list argument) (ns : namespace) : Prop :=
  forall a, In a (arguments p) -> In a pending \/ holds ns a.

(** The namespace while the parser [p], reached by some chain, reads its
    tokens: the steps of the chain are recorded, the arguments of [p] but
    the positionals still pending have their values, no sub-command of [p]
    is chosen yet, and there is no attribute besides those of the route. *)
Definition routed (root : parser) (p : parser) (pending : list argument)
    (ns : namespace) : Prop :=
  exists chain,
    route root chain p
    /\ Forall (chose ns) chain
    /\ typed p pending ns
    /\ Forall (fun a => is_positional a = true) pending
    /\ (forall d choices, subparsers p = Some (d, choices) -> ns !! d = Some PNone)
    /\ (forall k, is_Some (ns !! k) -> In k (route_dests chain p)).

(** *** Kinds of attributes *)

(** The attribute [k] is an integer; it is text; it is [None] or text; it
    is [True] or [False]. *)
Definition is_int (ns : namespace) (k : string) : Prop :=
  exists i, ns !! k = Some (PInt i).

Definition is_text (ns : namespace) (k : string) : Prop :=
  exists s, ns !! k = Some (PStr s).

Definition none_or_text (ns : namespace) (k : string) : Prop :=
  ns !! k = Some PNone \/ is_text ns k.

Definition is_bool (ns : namespace) (k : string) : Prop :=
  exists b, ns !! k = Some (PBool b).

(** The arguments of a [kv] action in the namespace: the file of a backup or
    a restore is [None] or text, the switches are booleans, the positionals
    are text. *)
Definition kv_arguments (name : pystr) (ns : namespace) : Prop :=
  (name = py "backup" /\ none_or_text ns "file")
  \/ (name = py "restore" /\ none_or_text ns "file" /\ is_bool ns "no_replace")
  \/ (name = py "ls" /\ is_bool ns "long")
  \/ (name = py "mkdir" /\ is_text ns "path")
  \/ (name = py "get" /\ is_text ns "key")
  \/ (name = py "set" /\ is_text ns "key" /\ is_text ns "value")
  \/ (name = py "rm" /\ is_text ns "key" /\ is_bool ns "recurse").

(** The tags [register] sends for the value of [args.tags]: the fields
    between the commas of a text that is not empty, else [None]. *)
Definition tags_sent (tags : pyval) : pyval :=
  match tags with
  | PStr (c :: s) => PList (List.map PStr (split_on 44 (c :: s)))
  | _ => PNone
  end.

(** *** The routes of a parser *)

(** The routes from a parser: the parser itself, and the routes through
    each of its sub-commands. *)
Fixpoint routes (chain : list (parser * string)) (p : parser) {struct p}
  : list (list (parser * string) * parser) :=
  (chain, p)
  :: match p with
     | Parser _ None => []
     | Parser _ (Some (_, choices)) =>
         (fix through (cs : list (string * parser)) :=
            match cs with
            | [] => []
            | (name, sub) :: cs' => routes (chain ++ [(p, name)]) sub ++ through cs'
            end) choices
     end.

(** The names of a list are pairwise different. *)
Fixpoint distinct (l : list string) : bool :=
  match l with
  | [] => true
  | k :: l' => negb (existsb (String.eqb k) l') && distinct l'
  end.

(** *** Sample inputs *)

(** A store with two values and a folder, reached by a working transport. *)
Definition sample_store : store :=
  [ (py "a", (PList [], PStr (py "1")));
    (py "b/c", (PList [], PStr (py "2")));
    (py "web/", (PInt 0, PNone)) ].

Definition sample_world : world :=
  World sample_store [] [] (fun _ => true) [] [] [] [] (fun _ => true).

Definition sample_consul : Consul :=
  Build_Consul (PStr (py "localhost")) (PInt 8500) PNone PNone
               (PStr (py "http")) (Some UnixSocketRequest).

(** The connection options at their defaults. *)
Definition connection_defaults : namespace :=
  <["api_scheme"%string := PStr (py "http")]>
    (<["api_host"%string := PStr (py "localhost")]>
       (<["api_port"%string := PInt 8500]>
          (<["dc"%string := PNone]> {[ "token"%string := PNone ]}))).

(** The command line [kv get foo] and its namespace. *)
Definition sample_argv : list pystr := [py "kv"; py "get"; py "foo"].

Definition sample_args : namespace :=
  <["command"%string := PStr (py "kv")]>
    (<["action"%string := PStr (py "get")]>
       (<["key"%string := PStr (py "foo")]> connection_defaults)).

(** The command line [kv], which Python 3 accepts, and its namespace: no
    action was named. *)
Definition kv_alone_argv : list pystr := [py "kv"].

Definition kv_alone : namespace :=
  <["command"%string := PStr (py "kv")]>
    (<["action"%string := PNone]> connection_defaults).

(** The options of [register] at their defaults, for the service [web]. *)
Definition register_defaults : namespace :=
  <["command"%string := PStr (py "register")]>
    (<["name"%string := PStr (py "web")]>
       (<["address"%string := PNone]>
          (<["port"%string := PNone]>
             (<["service_id"%string := PNone]>
                (<["tags"%string := PList []]> connection_defaults))))).

(** The command line [register web check 10 /bin/true] and its namespace. *)
Definition sample_register_argv : list pystr :=
  [py "register"; py "web"; py "check"; py "10"; py "/bin/true"].

Definition sample_register_args : namespace :=
  <["ctype"%string := PStr (py "check")]>
    (<["interval"%string := PInt 10]>
       (<["path"%string := PStr (py "/bin/true")]> register_defaults)).

(** The command line [register web -t primary,v2 -p 80 ttl 30] and its
    namespace. *)
Definition sample_tagged_argv : list pystr :=
  [py "register"; py "web"; py "-t"; py "primary,v2"; py "-p"; py "80";
   py "ttl"; py "30"].

Definition sample_tagged_args : namespace :=
  <["ctype"%string := PStr (py "ttl")]>
    (<["duration"%string := PInt 30]>
       (<["tags"%string := PStr (py "primary,v2")]>
          (<["port"%string := PStr (py "80")]> register_defaults))).

(** The command line [--api-port 8501 kv set retries 3] and its namespace. *)
Definition sample_set_argv : list pystr :=
  [py "--api-port"; py "8501"; py "kv"; py "set"; py "retries"; py "3"].

Definition sample_set_args : namespace :=
  <["api_port"%string := PStr (py "8501")]>
    (<["command"%string := PStr (py "kv")]>
       (<["action"%string := PStr (py "set")]>
          (<["key"%string := PStr (py "retries")]>
             (<["value"%string := PStr (py "3")]> connection_defaults)))).

(** *** Backup and restore *)

(** The text [kv_restore] reads: the file named by [args.file], or the
    standard input when no file is given. *)
Definition restore_input (args : namespace) (w : world) : option pystr :=
  match args !! "file"%string with
  | Some file =>
      if truthy file
      then match file with
           | PStr p => file_lookup p (w_files w)
           | _ => None
           end
      else Some (w_stdin w)
  | None => None
  end.

(** A list of [(path, (flags, value))] tuples as a Python value: a list of
    three-element sequences. *)
Definition tuples_value (R : store) : pyval :=
  PList (List.map (fun r => PList [PStr (fst r); fst (snd r); snd (snd r)]) R).

(** The value [kv_restore] writes for a value of the input: on Python 2 text
    is written as its UTF-8 bytes. *)
Definition restore_value (PYTHON3 : bool) (v : pyval) : pyval :=
  if PYTHON3 then v
  else match v with
       | PStr s => PBytes (utf8_encode s)
       | _ => v
       end.

(** The write [kv_restore] issues for a tuple. *)
Definition restore_write (PYTHON3 : bool) (no_replace : pyval)
    (r : pystr * (pyval * pyval)) : call :=
  KvSetRecord (fst r) (fst (snd r)) (restore_value PYTHON3 (snd (snd r)))
              (negb (truthy no_replace)).

(** The store after a write was applied. *)
Definition apply_write (s : store) (c : call) : store :=
  match c with
  | KvSetRecord p flags value replace => store_set_record p flags value replace s
  | _ => s
  end.

Definition delivered (cb : call * bool) : Prop := snd cb = true.

(** The requests sent between two worlds. *)
Definition new_requests (w w' : world) : list (call * bool) :=
  drop (length (w_requests w)) (w_requests w').

Definition error_line : pystr := py "ERROR: Could not connect to consul" ++ [10].

(** The world after the writes [cs] were delivered and applied in turn. *)
Definition after_writes (cs : list call) (w : world) : world :=
  List.fold_left (fun w c => set_kv (apply_write (w_kv w) c) (log_request c true w))
                 cs w.

(** The text [kv_backup] writes for the sample store, and the arguments of
    [kv restore] and [kv restore -n] reading the standard input. *)
Definition sample_backup_text : pystr :=
  match Json.dumps true (tuples_value sample_store) with
  | Ok text => text ++ [10]
  | Raise _ => []
  end.

Definition sample_restore_args (no_replace : bool) : namespace :=
  <["file"%string := PNone]> {[ "no_replace"%string := PBool no_replace ]}.

(** A world whose store holds another value for ["a"], with the sample
    backup on its standard input; [broken_at n] is a transport that loses
    the request number [n]. *)
Definition broken_at (n : nat) : nat -> bool := fun i => negb (Nat.eqb i n).

Definition restore_world (transport : nat -> bool) : world :=
  World [ (py "a", (PInt 7, PStr (py "old"))) ] [] [] transport
        sample_backup_text [] [] [] (fun _ => true).


(** A world with a truncated backup on its standard input. *)
Definition truncated_world : world :=
  World sample_store [] [] (fun _ => true) (py "[[1, 2, 3], [4, ") [] [] []
        (fun _ => true).

(** *** Transport failures *)

(** A result that is neither the transport error nor an exit. *)
Definition benign {A} (r : result A) : Prop :=
  r <> Raise ConnectionError /\ forall code, r <> Raise (SystemExit code).

(** What a run from [w] to [w'] with result [r] did with the transport:
    either every request it sent was delivered, the error stream is as
    before and the result is benign; or exactly one request failed, it is
    the last one sent, the result is [Raise e] and [msg] was appended to the
    error stream.  Code inside a [try] has [e = ConnectionError] and no
    message; a handler has [e = SystemExit 1] and the error line. *)
Definition conn_post {A} (e : exn) (msg : pystr)
    (w : world) (r : result A) (w' : world) : Prop :=
  exists new,
    w_requests w' = w_requests w ++ new
    /\ ((Forall delivered new /\ w_stderr w' = w_stderr w /\ benign r)
        \/ (exists pre c, new = pre ++ [(c, false)] /\ Forall delivered pre
                          /\ r = Raise e /\ w_stderr w' = w_stderr w ++ msg)).

Definition conn_spec {A} (e : exn) (msg : pystr) (m : M A) : Prop :=
  forall w, conn_post e msg w (fst (m w)) (snd (m w)).

(** A computation that sends nothing and leaves the error stream alone. *)
Definition local {A} (m : M A) : Prop :=
  forall w, w_requests (snd (m w)) = w_requests w
            /\ w_stderr (snd (m w)) = w_stderr w
            /\ benign (fst (m w)).

(** A world whose transport is down, and the arguments of [kv get foo]. *)
Definition offline_world : world :=
  World sample_store [] [] (fun _ => false) [] [] [] [] (fun _ => true).

Definition sample_get_args : namespace := {[ "key"%string := PStr (py "foo") ]}.

(** *** Listing *)

(** The line [kv_ls] prints for a key in the long format: the length
    right-justified in 14 columns, a space, the key. *)
Definition ls_long_line (key : pystr) (n : Z) : pystr :=
  rjust 14 (str_of_int n) ++ [32] ++ key ++ [10].

(** The length of a value that has one. *)
Definition value_length (v : pyval) : Z :=
  match py_len v with
  | Ok n => n
  | Raise _ => 0
  end.

(** An empty store, and the arguments of [kv mkdir web] and [kv ls -l]. *)
Definition empty_world : world :=
  World [] [] [] (fun _ => true) [] [] [] []
        (fun _ => true).

Definition sample_mkdir_args : namespace := {[ "path"%string := PStr (py "web") ]}.

Definition sample_ls_args (long : bool) : namespace :=
  {[ "long"%string := PBool long ]}.

(** *** Values a backup carries *)

(** A Unicode scalar value: a code point that is not a surrogate. *)
Definition scalar (c : Z) : bool :=
  ((0 <=? c) && (c <? 55296)) || ((57344 <=? c) && (c <? 1114112)).

(** Values [json.dumps] writes and [json.loads] reads back as they are:
    [None], booleans, integers, text of scalar values, and lists of such. *)
Fixpoint jsonable (v : pyval) : bool :=
  match v with
  | PNone | PBool _ | PInt _ => true
  | PStr s => List.forallb scalar s
  | PList l => (fix all (l : list pyval) : bool :=
                  match l with
                  | [] => true
                  | x :: l' => jsonable x && all l'
                  end) l
  | PFloat _ | PBytes _ | PDict _ => false
  end.

(** What follows a value in the text [json.dumps] writes: a comma, a closing
    bracket, the final newline, or nothing. *)
Definition delimited (rest : pystr) : Prop :=
  match rest with
  | [] => True
  | c :: _ => c = 44 \/ c = 93 \/ c = 10
  end.

(** The first character of the text of a value: no white space and no
    closing bracket. *)
Definition value_head (t : pystr) : Prop :=
  match t with
  | [] => False
  | c :: _ => Json.is_ws c = false /\ c <> 93
  end.

(** [reads v v']: [json.dumps] writes [v], and what it wrote, followed by a
    delimiter, is scanned as [v']. *)
Definition reads (PYTHON3 : bool) (v v' : pyval) : Prop :=
  exists t,
    Json.dumps PYTHON3 v = Ok t /\ value_head t
    /\ forall rest, delimited rest ->
                    exists f, Json.scan_once f (t ++ rest) = Some (v', rest).

(** What the values of a list are written as. *)
Fixpoint dumps_all (PYTHON3 : bool) (l : list pyval) : result (list pystr) :=
  match l with
  | [] => Ok []
  | x :: l' =>
      match Json.dumps PYTHON3 x with
      | Raise e => Raise e
      | Ok t => match dumps_all PYTHON3 l' with
                | Raise e => Raise e
                | Ok ts => Ok (t :: ts)
                end
      end
  end.

(** The values a backup followed by a restore gives back as they were.  On
    Python 3: [None], booleans, integers, text and lists of these, which
    [json] reads back as it wrote them.  On Python 2: the UTF-8 bytes of a
    text, which [json.dumps] decodes and the [unicode] branch of
    [kv_restore] encodes again, and the same values as on Python 3 except
    text.  A record may hold other values (bytes or text, by the data
    model): bytes on Python 3 and bytes that are no UTF-8 on Python 2 make
    [json.dumps] fail, and text on Python 2 is restored as bytes. *)
Definition carried_value (PYTHON3 : bool) (v : pyval) : Prop :=
  if PYTHON3 then jsonable v = true
  else (exists s, List.forallb scalar s = true /\ v = PBytes (utf8_encode s))
       \/ (jsonable v = true /\ forall s, v <> PStr s).

(** A record a backup followed by a restore gives back: a path of scalar
    values, flags [json] reads back as they are, and such a value. *)
Definition carried_record (PYTHON3 : bool) (r : pystr * (pyval * pyval)) : Prop :=
  List.forallb scalar (fst r) = true
  /\ jsonable (fst (snd r)) = true
  /\ carried_value PYTHON3 (snd (snd r)).

(** [r'] is the tuple read from the backup of the record [r]. *)
Definition read_back (PYTHON3 : bool) (r r' : pystr * (pyval * pyval)) : Prop :=
  fst r' = fst r /\ fst (snd r') = fst (snd r)
  /\ restore_value PYTHON3 (snd (snd r')) = snd (snd r).

(** The world [kv restore] runs in after a backup: an empty store, a
    transport that delivers, and the backup on the standard input. *)
Definition fresh_world (text : pystr) : world :=
  World [] [] [] (fun _ => true) text [] [] [] (fun _ => true).

(** *** Runs of the handlers *)

(** The requests a listing in the long format sends for the records [l]:
    one [consul.kv[key]] per key. *)
Definition value_requests (l : store) : list (call * bool) :=
  List.map (fun r => (KvGetItem (fst r), true)) l.

(** The lines of a listing in the long format for the records [l]. *)
Definition ls_long_lines (l : store) : pystr :=
  List.concat (List.map (fun r => ls_long_line (fst r) (value_length (snd (snd r)))) l).

(** A value without a length: [len] of it is a [TypeError]. *)
Definition unsized (v : pyval) : Prop := py_len v = Raise TypeError.

(** A JSON value that is no container: [null], a boolean or a number. *)
Definition json_atom (v : pyval) : Prop :=
  match v with
  | PNone | PBool _ | PInt _ | PFloat _ => True
  | _ => False
  end.

(** A store with a folder between two values. *)
Definition folder_store : store :=
  [ (py "a", (PInt 0, PStr (py "1")));
    (py "web/", (PInt 0, PNone));
    (py "z", (PInt 0, PStr (py "26"))) ].

Definition folder_world : world :=
  World folder_store [] [] (fun _ => true) [] [] [] []
        (fun _ => true).

(** The arguments of [kv backup -f kv.json], and a world that has the sample
    store and the file of a backup made when the store was empty. *)
Definition backup_file_args : namespace := {[ "file"%string := PStr (py "kv.json") ]}.

Definition backup_file_world (transport : nat -> bool) : world :=
  World sample_store [] [] transport [] [] [] [ (py "kv.json", py "[]" ++ [10]) ]
        (fun _ => true).

(** The arguments of [kv restore -f kv.json] and a world with an empty store
    that has the file the backup of the sample store wrote. *)
Definition restore_file_args : namespace :=
  <["file"%string := PStr (py "kv.json")]> {[ "no_replace"%string := PBool false ]}.

Definition restore_file_world : world :=
  World [] [] [] (fun _ => true) [] [] [] [ (py "kv.json", sample_backup_text) ]
        (fun _ => true).

(** A store in which every record has a value. *)
Definition flat_store : store :=
  [ (py "a", (PInt 0, PStr (py "1")));
    (py "b/c", (PInt 0, PStr (py "twenty-six")))].

Definition flat_world : world :=
  World flat_store [] [] (fun _ => true) [] [] [] []
        (fun _ => true).

(** The rows of a backup whose second row has two elements only, and their
    JSON text. *)
Definition short_rows : pyval :=
  PList [ PList [PStr (py "a"); PInt 0; PStr (py "1")];
          PList [PStr (py "b"); PInt 0];
          PList [PStr (py "c"); PInt 0; PStr (py "3")] ].

Definition short_row_text : pystr :=
  match Json.dumps true short_rows with
  | Ok text => text ++ [10]
  | Raise _ => []
  end.

(** * Properties *)

(** ** Text and stores *)

Lemma pystr_eqb_eq (s t : pystr) : pystr_eqb s t = true <-> s = t.
Proof.
  revert t; induction s as [|c s IH]; intros [|d t]; simpl; split;
    try congruence; try reflexivity.
  - intros H. apply andb_prop in H as [Hc Hs].
    apply Z.eqb_eq in Hc. apply IH in Hs. congruence.
  - intros H. injection H as -> ->. rewrite Z.eqb_refl. simpl. apply IH. reflexivity.
Qed.

Lemma pystr_eqb_refl (s : pystr) : pystr_eqb s s = true.
Proof. apply pystr_eqb_eq. reflexivity. Qed.

Lemma pystr_eqb_neq (s t : pystr) : pystr_eqb s t = false <-> s <> t.
Proof.
  split.
  - intros H E. apply pystr_eqb_eq in E. congruence.
  - intros H. destruct (pystr_eqb s t) eqn:E; [|reflexivity].
    apply pystr_eqb_eq in E. contradiction.
Qed.

(** ** The namespace of a command line

    The parser of [cli.py] is a tree of parsers.  A command line follows a
    route through it, and the namespace it is parsed to has the attributes
    the parsers on that route declare, each with a value of the kind its
    argument stores. *)

(** *** Lists without repetition *)

Lemma NoDup_app_ne {A} (l1 l2 : list A) (x y : A) :
  NoDup (l1 ++ l2) -> In x l1 -> In y l2 -> x <> y.
Proof.
  intros Hnd Hx Hy ->. apply NoDup_app in Hnd as (_ & Hdis & _).
  apply (Hdis y); apply list_elem_of_In; assumption.
Qed.

Lemma NoDup_map_eq {A B} (f : A -> B) (l : list A) (a b : A) :
  NoDup (List.map f l) -> In a l -> In b l -> f a = f b -> a = b.
Proof.
  induction l as [|c l IH]; intros Hnd Ha Hb Hf; [contradiction|].
  simpl in Hnd. apply NoDup_cons in Hnd as [Hc Hnd].
  destruct Ha as [->|Ha], Hb as [->|Hb].
  - reflexivity.
  - exfalso. apply Hc. rewrite Hf. apply list_elem_of_In, in_map, Hb.
  - exfalso. apply Hc. rewrite <- Hf. apply list_elem_of_In, in_map, Ha.
  - apply IH; assumption.
Qed.

(** *** The routes of a parser *)

(** Induction on a parser and the parsers of its sub-commands. *)
Lemma parser_ind (P : parser -> Prop) :
  (forall args, P (Parser args None)) ->
  (forall args d choices,
      Forall (fun c => P (snd c)) choices -> P (Parser args (Some (d, choices)))) ->
  forall p, P p.
Proof.
  intros Hleaf Hnode. fix IH 1. intros [args [[d choices]|]]; [|apply Hleaf].
  apply Hnode. induction choices as [|[name sub] choices IHc]; constructor;
    [apply IH|exact IHc].
Qed.

Lemma routes_node chain args d choices :
  routes chain (Parser args (Some (d, choices)))
  = (chain, Parser args (Some (d, choices)))
    :: List.flat_map (fun c => routes (chain ++ [(Parser args (Some (d, choices)), fst c)])
                                      (snd c)) choices.
Proof.
  simpl. f_equal. generalize (Parser args (Some (d, choices))). intros q.
  induction choices as [|[name sub] choices IH]; [reflexivity|].
  simpl. rewrite IH. reflexivity.
Qed.

Lemma routes_head chain p : In (chain, p) (routes chain p).
Proof. destruct p as [args [[d choices]|]]; left; reflexivity. Qed.

(** A route of the list goes on into every sub-command of its parser. *)
Lemma routes_closed (p : parser) : forall chain c q d choices name sub,
  In (c, q) (routes chain p) ->
  subparsers q = Some (d, choices) -> In (name, sub) choices ->
  In (c ++ [(q, name)], sub) (routes chain p).
Proof.
  induction p as [args|args d0 cs IH] using parser_ind;
    intros chain c q d choices name sub Hin Hs Hsub.
  - destruct Hin as [[= <- <-]|[]]. discriminate Hs.
  - rewrite routes_node in *. destruct Hin as [[= <- <-]|Hin].
    + injection Hs as <- <-. right. apply in_flat_map.
      exists (name, sub). split; [exact Hsub|apply routes_head].
    + right. apply in_flat_map in Hin as [[n s] [Hc Hin]].
      apply in_flat_map. exists (n, s). split; [exact Hc|].
      apply (proj1 (List.Forall_forall _ _) IH (n, s) Hc _ _ _ d choices); assumption.
Qed.

(** [routes] has every route. *)
Lemma route_routes (root : parser) chain p :
  route root chain p -> In (chain, p) (routes [] root).
Proof.
  induction 1 as [|chain p d choices name sub Hr IH Hs Hin].
  - apply routes_head.
  - apply (routes_closed root [] chain p d choices); assumption.
Qed.

Lemma distinct_NoDup (l : list string) : distinct l = true -> NoDup l.
Proof.
  induction l as [|k l IH]; intros H; [constructor|].
  simpl in H. apply andb_prop in H as [Hk Hl]. apply NoDup_cons. split; [|apply IH, Hl].
  intros Hin. apply list_elem_of_In in Hin.
  apply negb_true_iff in Hk.
  assert (Hex : existsb (String.eqb k) l = true)
    by (apply existsb_exists; exists k; split; [exact Hin|apply String.eqb_refl]).
  congruence.
Qed.

(** *** The routes of the parser of [cli.py] *)

(** On no route of [cli.py] do two arguments write the same attribute. *)
Lemma cli_routes_wf chain p :
  route cli_parser chain p -> NoDup (route_dests chain p).
Proof.
  intros H. apply route_routes in H.
  assert (Hall : forallb (fun cp => distinct (route_dests (fst cp) (snd cp)))
                         (routes [] cli_parser) = true)
    by (vm_compute; reflexivity).
  apply distinct_NoDup.
  apply (proj1 (forallb_forall _ _) Hall (chain, p) H).
Qed.

(** The routes of [cli.py]: the top level, [register] and its three check
    variants, [kv] and its seven actions. *)
Lemma cli_route_cases chain p :
  route cli_parser chain p ->
  (chain = [] /\ p = cli_parser)
  \/ (chain = [(cli_parser, "register"%string)] /\ p = registerp)
  \/ (exists name, chain = [(cli_parser, "register"%string); (registerp, name)]
                   /\ In (name, p) [ ("check"%string, register_check);
                                     ("no-check"%string, register_no_check);
                                     ("ttl"%string, register_ttl) ])
  \/ (chain = [(cli_parser, "kv"%string)] /\ p = kv_parser)
  \/ (exists entry, In entry KV_PARSERS
                    /\ chain = [(cli_parser, "kv"%string);
                                (kv_parser, fst (kv_action_parser entry))]
                    /\ p = snd (kv_action_parser entry)).
Proof.
  induction 1 as [|chain p d choices name sub Hr IH Hs Hin]; [left; auto|].
  destruct IH as [[-> ->]|[[-> ->]|[[n [-> Hn]]|[[-> ->]|[entry [He [-> ->]]]]]]].
  - cbv [subparsers cli_parser] in Hs. injection Hs as <- <-.
    destruct Hin as [Hin|[Hin|[]]].
    + unfold add_register_args in Hin. injection Hin as <- <-. right. left. auto.
    + unfold add_kv_args in Hin. injection Hin as <- <-. do 3 right. left. auto.
  - cbv [subparsers registerp] in Hs. injection Hs as <- <-.
    do 2 right. left. exists name. auto.
  - destruct Hn as [Hn|[Hn|[Hn|[]]]]; injection Hn as <- <-; discriminate Hs.
  - assert (Ec : choices = List.map kv_action_parser KV_PARSERS)
      by (change (subparsers kv_parser)
            with (Some ("action"%string, List.map kv_action_parser KV_PARSERS))
            in Hs; congruence).
    subst choices. clear Hs.
    apply in_map_iff in Hin as [entry [Hentry Hin]].
    do 4 right. exists entry. rewrite Hentry. auto.
  - destruct entry as [[n h] a]. discriminate Hs.
Qed.

(** The attributes the parsers of [cli.py] declare, route by route. *)
Lemma cli_declares (k : string) :
  declares cli_parser k
  <-> existsb (fun cp => existsb (String.eqb k) (route_dests (fst cp) (snd cp)))
              (routes [] cli_parser) = true.
Proof.
  split.
  - intros (chain & p & Hr & Hk). apply existsb_exists.
    exists (chain, p). split; [apply route_routes, Hr|].
    apply existsb_exists. exists k. split; [exact Hk|apply String.eqb_refl].
  - intros H. apply existsb_exists in H as [[chain p] [Hin H]].
    apply existsb_exists in H as [k' [Hk E]]. apply String.eqb_eq in E. subst k'.
    exists chain, p. split; [|exact Hk].
    clear Hk. revert Hin.
    assert (Hsound : forall q c0, route cli_parser c0 q ->
                                   forall c q', In (c, q') (routes c0 q) ->
                                                route cli_parser c q').
    { induction q as [args|args d choices IH] using parser_ind; intros c0 Hr c q' Hin.
      - destruct Hin as [[= <- <-]|[]]. exact Hr.
      - rewrite routes_node in Hin. destruct Hin as [[= <- <-]|Hin]; [exact Hr|].
        apply in_flat_map in Hin as [[n s] [Hc Hin]].
        apply (proj1 (List.Forall_forall _ _) IH (n, s) Hc
                 (c0 ++ [(Parser args (Some (d, choices)), n)])); [|exact Hin].
        apply (route_step cli_parser c0 _ d choices n s Hr eq_refl Hc). }
    apply (Hsound cli_parser [] (route_root cli_parser)).
Qed.

Lemma chose_command (ns : namespace) name :
  chose ns (cli_parser, name) -> ns !! "command"%string = Some (PStr (py name)).
Proof.
  intros [_ [d [choices [Hs Hd]]]]. cbv [fst subparsers cli_parser] in Hs.
  injection Hs as <- _. exact Hd.
Qed.

Lemma chose_action (ns : namespace) name :
  chose ns (kv_parser, name) -> ns !! "action"%string = Some (PStr (py name)).
Proof.
  intros [_ [d [choices [Hs Hd]]]]. cbv [fst subparsers kv_parser] in Hs.
  injection Hs as <- _. exact Hd.
Qed.

Lemma chose_ctype (ns : namespace) name :
  chose ns (registerp, name) -> ns !! "ctype"%string = Some (PStr (py name)).
Proof.
  intros [_ [d [choices [Hs Hd]]]]. cbv [fst subparsers registerp] in Hs.
  injection Hs as <- _. exact Hd.
Qed.

(** *** What an argument of each kind leaves in the namespace *)

Lemma holds_positional_text (ns : namespace) a :
  is_positional a = true -> type_int (snd a) = false -> holds ns a ->
  is_text ns (dest_of a).
Proof.
  intros Hpos Hty [x [Hx Hv]]. unfold arg_value, stored in Hv.
  rewrite Hpos, Hty in Hv. destruct Hv as [s ->]. exists s. exact Hx.
Qed.

Lemma holds_positional_int (ns : namespace) a :
  is_positional a = true -> type_int (snd a) = true -> holds ns a ->
  is_int ns (dest_of a).
Proof.
  intros Hpos Hty [x [Hx Hv]]. unfold arg_value, stored in Hv.
  rewrite Hpos, Hty in Hv. destruct Hv as [i ->]. exists i. exact Hx.
Qed.

Lemma holds_switch (ns : namespace) a :
  is_positional a = false -> is_store_true a = true -> holds ns a ->
  is_bool ns (dest_of a).
Proof.
  intros Hpos Hst [x [Hx Hv]]. unfold arg_value in Hv. rewrite Hpos in Hv.
  unfold default_of in Hv. rewrite Hst in Hv.
  destruct Hv as [->|[[_ ->]|[[? _]|[? _]]]]; try discriminate; eexists; exact Hx.
Qed.

Lemma holds_option (ns : namespace) a :
  is_positional a = false -> is_store_true a = false -> type_int (snd a) = false ->
  holds ns a ->
  ns !! dest_of a = Some (default (snd a))
  \/ (is_optional_value a = true /\ ns !! dest_of a = Some PNone)
  \/ is_text ns (dest_of a).
Proof.
  intros Hpos Hst Hty [x [Hx Hv]]. unfold arg_value, stored in Hv.
  rewrite Hpos, Hty in Hv. unfold default_of in Hv. rewrite Hst in Hv.
  destruct Hv as [->|[[? _]|[[_ [Ho ->]]|[_ [s ->]]]]]; try discriminate.
  - left. exact Hx.
  - right. left. auto.
  - right. right. exists s. exact Hx.
Qed.

Ltac eval_arg H :=
  repeat match type of H with
         | context [dest_of ?a] =>
             let d := eval vm_compute in (dest_of a) in change (dest_of a) with d in H
         | context [default ?k] =>
             let d := eval vm_compute in (default k) in change (default k) with d in H
         end.

Ltac known_argument :=
  match goal with
  | |- In _ _ => vm_compute; tauto
  | |- _ = _ => reflexivity
  end.

Lemma text_present (ns : namespace) k : is_text ns k -> is_Some (ns !! k).
Proof. intros [s H]. eauto. Qed.

Lemma none_or_text_present (ns : namespace) k : none_or_text ns k -> is_Some (ns !! k).
Proof. intros [H|[s H]]; eauto. Qed.

(** The option [-f] of [backup] and [restore]. *)
Lemma file_option (ns : namespace) (a : argument) :
  a = (["-f"; "--file"], with_nargs "?" (kw "JSON file to read instead of stdin"))%string ->
  holds ns a -> none_or_text ns "file".
Proof.
  intros -> H. apply holds_option in H as [H|[[_ H]|H]]; try reflexivity.
  - left. exact H.
  - left. exact H.
  - right. exact H.
Qed.

(** The arguments of an action of [KV_PARSERS], once all of them have their
    values. *)
Lemma kv_entry_arguments (args : namespace) (entry : string * string * list argument) :
  In entry KV_PARSERS ->
  filled (snd (kv_action_parser entry)) args ->
  kv_arguments (py (fst (kv_action_parser entry))) args.
Proof.
  intros He Hty.
  unfold kv_arguments. simpl in He.
  destruct He as [<-|[<-|[<-|[<-|[<-|[<-|[<-|[]]]]]]]].
  - left. split; [reflexivity|].
    eapply file_option; [reflexivity|apply Hty; known_argument].
  - right. left. split; [reflexivity|]. split.
    + eapply file_option; [reflexivity|apply Hty; known_argument].
    + apply (holds_switch args (["-n"; "--no-replace"],
               with_action "store_true" (kw "Do not replace existing entries"))%string);
        [reflexivity|reflexivity|apply Hty; known_argument].
  - do 2 right. left. split; [reflexivity|].
    apply (holds_switch args (["-l"; "--long"],
             with_action "store_true" (kw "Long format"))%string);
      [reflexivity|reflexivity|apply Hty; known_argument].
  - do 3 right. left. split; [reflexivity|].
    apply (holds_positional_text args (["path"], kw "The path to create")%string);
      [reflexivity|reflexivity|apply Hty; known_argument].
  - do 4 right. left. split; [reflexivity|].
    apply (holds_positional_text args (["key"], kw "The key to get")%string);
      [reflexivity|reflexivity|apply Hty; known_argument].
  - do 5 right. left. split; [reflexivity|]. split.
    + apply (holds_positional_text args (["key"], kw "The key to set")%string);
        [reflexivity|reflexivity|apply Hty; known_argument].
    + apply (holds_positional_text args (["value"], kw "The value of the key")%string);
        [reflexivity|reflexivity|apply Hty; known_argument].
  - do 6 right. split; [reflexivity|]. split.
    + apply (holds_positional_text args (["key"], kw "The key to remove")%string);
        [reflexivity|reflexivity|apply Hty; known_argument].
    + apply (holds_switch args (["-r"; "--recurse"],
               with_action "store_true"
                 (kw "Delete all keys prefixed with the specified key"))%string);
        [reflexivity|reflexivity|apply Hty; known_argument].
Qed.

(** *** The namespaces of [cli.py] *)

(** A namespace has the attributes of its route only, so none that no
    parser declares. *)
Lemma namespace_declared (PYTHON3 : bool) (root : parser) (ns : namespace) :
  namespace_of PYTHON3 root ns -> forall k, is_Some (ns !! k) -> declares root k.
Proof.
  intros (chain & p & Hr & _ & _ & _ & Hdom & _) k Hk.
  exists chain, p. split; [exact Hr|apply Hdom, Hk].
Qed.

(** Every route starts at the root, whose arguments therefore have their
    values. *)
Lemma route_from_root (root : parser) chain p (ns : namespace) :
  route root chain p -> Forall (chose ns) chain -> filled p ns -> filled root ns.
Proof.
  intros Hr Hch Hty.
  assert (Hshape : (chain = [] /\ p = root) \/ exists name rest, chain = (root, name) :: rest).
  { clear Hch Hty. induction Hr as [|chain p d choices name sub Hr IH Hs Hin].
    - left. auto.
    - right. destruct IH as [[-> ->]|[n [rest ->]]]; simpl; eauto. }
  destruct Hshape as [[-> ->]|[name [rest ->]]]; [exact Hty|].
  apply List.Forall_cons_iff in Hch as [[H _] _]. exact H.
Qed.

(** The connection options are in every namespace. *)
Lemma namespace_connection (PYTHON3 : bool) (args : namespace) :
  namespace_of PYTHON3 cli_parser args ->
  is_text args "api_scheme" /\ is_text args "api_host"
  /\ (args !! "api_port"%string = Some (PInt 8500) \/ is_text args "api_port")
  /\ none_or_text args "dc" /\ none_or_text args "token".
Proof.
  intros (chain & p & Hr & Hch & Hty & _).
  pose proof (route_from_root _ _ _ _ Hr Hch Hty) as Htop. clear - Htop.
  assert (Hopt : forall a, In a (arguments cli_parser) ->
                   args !! dest_of a = Some (default (snd a))
                   \/ (is_optional_value a = true /\ args !! dest_of a = Some PNone)
                   \/ is_text args (dest_of a)).
  { intros a Ha. apply holds_option; [..|apply (Htop a Ha)];
      vm_compute in Ha; repeat (destruct Ha as [<-|Ha]); try contradiction;
      reflexivity. }
  unfold none_or_text.
  split; [|split; [|split; [|split]]].
  - destruct (Hopt (["--api-scheme"], with_default (PStr (py "http"))
              (kw "The scheme to use for connecting to Consul with"))%string)
      as [H|[[H _]|H]]; [vm_compute; tauto|eval_arg H; eexists; exact H
                        |discriminate H|exact H].
  - destruct (Hopt (["--api-host"], with_default (PStr (py "localhost"))
              (kw "The consul host to connect on"))%string)
      as [H|[[H _]|H]]; [vm_compute; tauto|eval_arg H; eexists; exact H
                        |discriminate H|exact H].
  - destruct (Hopt (["--api-port"], with_default (PInt 8500)
              (kw "The consul API port to connect to"))%string)
      as [H|[[H _]|H]]; [vm_compute; tauto|left; exact H|discriminate H|right; exact H].
  - destruct (Hopt (["--datacenter"], with_dest "dc" (with_default PNone
              (kw "The datacenter to specify for the connection")))%string)
      as [H|[[H _]|H]]; [vm_compute; tauto|left; exact H|discriminate H|right; exact H].
  - destruct (Hopt (["--token"], with_default PNone (kw "ACL token"))%string)
      as [H|[[H _]|H]]; [vm_compute; tauto|left; exact H|discriminate H|right; exact H].
Qed.

(** The namespace of a [kv] command: the action is a name of [KV_PARSERS],
    and every argument of its parser has a value; or, on Python 3 only, no
    action was named and the attribute is [None]. *)
Lemma kv_namespace (PYTHON3 : bool) (args : namespace) :
  namespace_of PYTHON3 cli_parser args ->
  args !! "command"%string = Some (PStr (py "kv")) ->
  (exists entry, In entry KV_PARSERS
                 /\ args !! "action"%string
                    = Some (PStr (py (fst (kv_action_parser entry))))
                 /\ filled (snd (kv_action_parser entry)) args)
  \/ (PYTHON3 = true /\ args !! "action"%string = Some PNone).
Proof.
  intros (chain & p & Hr & Hch & Hty & Hsub & _ & Hend) Hcmd.
  apply cli_route_cases in Hr
    as [[-> ->]|[[-> ->]|[[n [-> Hn]]|[[-> ->]|[entry [He [-> ->]]]]]]].
  - rewrite (Hsub "command"%string [add_register_args; add_kv_args] eq_refl) in Hcmd.
    discriminate Hcmd.
  - apply List.Forall_cons_iff in Hch as [Hc _]. apply chose_command in Hc.
    rewrite Hc in Hcmd. vm_compute in Hcmd. discriminate Hcmd.
  - apply List.Forall_cons_iff in Hch as [Hc _]. apply chose_command in Hc.
    rewrite Hc in Hcmd. vm_compute in Hcmd. discriminate Hcmd.
  - right. split.
    + destruct PYTHON3; [reflexivity|]. specialize (Hend eq_refl). discriminate Hend.
    + apply (Hsub "action"%string (List.map kv_action_parser KV_PARSERS) eq_refl).
  - left. apply List.Forall_cons_iff in Hch as [_ Hch].
    apply List.Forall_cons_iff in Hch as [Hc _]. apply chose_action in Hc.
    exists entry. auto.
Qed.

(** The namespace of a [register] command: the name is text; the service
    id, the address and the port are [None] or text; the tags are the
    default [[]] or text; and the check is one of the three variants or, on
    Python 3 only, was not named. *)
Lemma register_namespace (PYTHON3 : bool) (args : namespace) :
  namespace_of PYTHON3 cli_parser args ->
  args !! "command"%string = Some (PStr (py "register")) ->
  is_text args "name"
  /\ none_or_text args "service_id" /\ none_or_text args "address"
  /\ none_or_text args "port"
  /\ (args !! "tags"%string = Some (PList []) \/ is_text args "tags")
  /\ ((args !! "ctype"%string = Some (PStr (py "check"))
       /\ is_int args "interval" /\ is_text args "path")
      \/ (args !! "ctype"%string = Some (PStr (py "ttl")) /\ is_int args "duration")
      \/ args !! "ctype"%string = Some (PStr (py "no-check"))
      \/ (PYTHON3 = true /\ args !! "ctype"%string = Some PNone)).
Proof.
  intros (chain & p & Hr & Hch & Hty & Hsub & _ & Hend) Hcmd.
  assert (Hreg : filled registerp args
                 /\ ((args !! "ctype"%string = Some (PStr (py "check"))
                      /\ is_int args "interval" /\ is_text args "path")
                     \/ (args !! "ctype"%string = Some (PStr (py "ttl"))
                         /\ is_int args "duration")
                     \/ args !! "ctype"%string = Some (PStr (py "no-check"))
                     \/ (PYTHON3 = true /\ args !! "ctype"%string = Some PNone))).
  { apply cli_route_cases in Hr
      as [[-> ->]|[[-> ->]|[[n [-> Hn]]|[[-> ->]|[entry [He [-> ->]]]]]]].
    - rewrite (Hsub "command"%string [add_register_args; add_kv_args] eq_refl) in Hcmd.
      discriminate Hcmd.
    - split; [exact Hty|]. do 3 right. split.
      + destruct PYTHON3; [reflexivity|]. specialize (Hend eq_refl). discriminate Hend.
      + apply (Hsub "ctype"%string _ eq_refl).
    - apply List.Forall_cons_iff in Hch as [_ Hch].
      apply List.Forall_cons_iff in Hch as [Hc _].
      split; [apply Hc|]. apply chose_ctype in Hc.
      destruct Hn as [Hn|[Hn|[Hn|[]]]]; injection Hn as <- <-.
      + left. split; [exact Hc|]. split.
        * apply (holds_positional_int args
                   (["interval"], with_type_int (with_default (PInt 10)
                      (kw "How often to run the check script")))%string);
            [reflexivity|reflexivity|apply Hty; known_argument].
        * apply (holds_positional_text args
                   (["path"], with_default PNone
                      (kw "Path to the script invoked by Consul"))%string);
            [reflexivity|reflexivity|apply Hty; known_argument].
      + do 2 right. left. exact Hc.
      + right. left. split; [exact Hc|].
        apply (holds_positional_int args
                 (["duration"], with_default (PInt 10) (with_type_int
                    (kw "TTL duration for a service with missing check data")))%string);
          [reflexivity|reflexivity|apply Hty; known_argument].
    - apply List.Forall_cons_iff in Hch as [Hc _]. apply chose_command in Hc.
      rewrite Hc in Hcmd. vm_compute in Hcmd. discriminate Hcmd.
    - apply List.Forall_cons_iff in Hch as [Hc _]. apply chose_command in Hc.
      rewrite Hc in Hcmd. vm_compute in Hcmd. discriminate Hcmd. }
  destruct Hreg as [Hfill Hctype].
  assert (Hopt : forall a, In a (arguments registerp) -> is_positional a = false ->
                   args !! dest_of a = Some (default (snd a)) \/ is_text args (dest_of a)).
  { intros a Ha Hpos.
    destruct (holds_option args a) as [Hd|[[Ho _]|Ht]];
      [exact Hpos| | |apply (Hfill a Ha)|left; exact Hd| |right; exact Ht];
      vm_compute in Ha; repeat (destruct Ha as [<-|Ha]); try contradiction;
      try reflexivity; discriminate. }
  split; [|split; [|split; [|split; [|split]]]].
  - apply (holds_positional_text args (["name"], kw "The service name")%string);
      [reflexivity|reflexivity|apply Hfill; known_argument].
  - apply (Hopt (["-s"; "--service-id"],
                 with_default PNone (kw "Specify a service ID"))%string);
      [known_argument|reflexivity].
  - apply (Hopt (["-a"; "--address"],
                 with_default PNone (kw "Specify an address"))%string);
      [known_argument|reflexivity].
  - apply (Hopt (["-p"; "--port"], with_default PNone (kw "Specify a port"))%string);
      [known_argument|reflexivity].
  - apply (Hopt (["-t"; "--tags"],
                 with_default (PList [])
                   (kw "Specify a comma delimited list of tags"))%string);
      [known_argument|reflexivity].
  - exact Hctype.
Qed.

(** *** The namespaces of the sample command lines *)

(** The attributes of a namespace given in full are among those of a
    list. *)
Lemma attributes_in (ns : namespace) (l : list string) :
  forallb (fun kv => existsb (String.eqb (fst kv)) l) (map_to_list ns) = true ->
  forall k, is_Some (ns !! k) -> In k l.
Proof.
  intros H k [v Hk]. apply elem_of_map_to_list in Hk. apply list_elem_of_In in Hk.
  rewrite forallb_forall in H. specialize (H _ Hk). simpl in H.
  apply existsb_exists in H as [k' [Hin Heq]]. apply String.eqb_eq in Heq.
  subst k'. exact Hin.
Qed.

(** The value of an argument in a namespace given in full. *)
Ltac sample_value :=
  match goal with
  | |- holds ?ns ?a =>
      let v := eval vm_compute in (ns !! dest_of a) in
      match v with
      | Some ?x =>
          exists x; split;
          [vm_compute; reflexivity
          |vm_compute;
           first [ left; reflexivity
                 | right; left; split; reflexivity
                 | right; right; left; repeat split; reflexivity
                 | right; right; right; split; [reflexivity|eexists; reflexivity]
                 | eexists; reflexivity ]]
      end
  end.

Ltac sample_filled :=
  let a := fresh "a" in
  let Ha := fresh "Ha" in
  intros a Ha; vm_compute in Ha;
  repeat (destruct Ha as [<-|Ha]); try contradiction; sample_value.

Ltac sample_chose :=
  split; [sample_filled|do 2 eexists; split; [reflexivity|vm_compute; reflexivity]].

Ltac sample_chain :=
  repeat first [apply List.Forall_nil | apply List.Forall_cons; [sample_chose|]].

Ltac sample_attributes :=
  apply attributes_in; vm_compute; reflexivity.

Lemma route_kv : route cli_parser [(cli_parser, "kv"%string)] kv_parser.
Proof.
  apply (route_step cli_parser [] cli_parser "command"
           [add_register_args; add_kv_args] "kv" kv_parser (route_root _) eq_refl).
  right. left. reflexivity.
Qed.

Lemma route_kv_action (entry : string * string * list argument) :
  In entry KV_PARSERS ->
  route cli_parser [(cli_parser, "kv"%string); (kv_parser, fst (kv_action_parser entry))]
        (snd (kv_action_parser entry)).
Proof.
  intros He.
  apply (route_step cli_parser [(cli_parser, "kv"%string)] kv_parser "action"
           (List.map kv_action_parser KV_PARSERS) (fst (kv_action_parser entry))
           (snd (kv_action_parser entry)) route_kv eq_refl).
  apply in_map_iff. exists entry. split; [|exact He].
  destruct (kv_action_parser entry). reflexivity.
Qed.

Lemma route_register : route cli_parser [(cli_parser, "register"%string)] registerp.
Proof.
  apply (route_step cli_parser [] cli_parser "command"
           [add_register_args; add_kv_args] "register" registerp (route_root _) eq_refl).
  left. reflexivity.
Qed.

Lemma route_register_check (name : string) (sub : parser) :
  In (name, sub) [ ("check"%string, register_check);
                   ("no-check"%string, register_no_check);
                   ("ttl"%string, register_ttl) ] ->
  route cli_parser [(cli_parser, "register"%string); (registerp, name)] sub.
Proof.
  intros Hin.
  apply (route_step cli_parser [(cli_parser, "register"%string)] registerp "ctype"
           [ ("check"%string, register_check);
             ("no-check"%string, register_no_check);
             ("ttl"%string, register_ttl) ] name sub route_register eq_refl Hin).
Qed.

(** [kv get foo] *)
Lemma sample_args_namespace (PYTHON3 : bool) :
  namespace_of PYTHON3 cli_parser sample_args.
Proof.
  exists [(cli_parser, "kv"%string); (kv_parser, "get"%string)],
         (Parser [ (["key"], kw "The key to get") ]%string None).
  split; [apply (route_kv_action ("get", "Get a key from the database",
                                  [ (["key"], kw "The key to get") ])%string);
          vm_compute; tauto|].
  split; [sample_chain|].
  split; [sample_filled|].
  split; [intros d choices H; discriminate H|].
  split; [sample_attributes|reflexivity].
Qed.

(** [kv] on Python 3 *)
Lemma kv_alone_namespace : namespace_of true cli_parser kv_alone.
Proof.
  exists [(cli_parser, "kv"%string)], kv_parser.
  split; [exact route_kv|].
  split; [sample_chain|].
  split; [sample_filled|].
  split; [intros d choices H; injection H as <- _; vm_compute; reflexivity|].
  split; [sample_attributes|discriminate].
Qed.

(** [--api-port 8501 kv set retries 3] *)
Lemma sample_set_args_namespace (PYTHON3 : bool) :
  namespace_of PYTHON3 cli_parser sample_set_args.
Proof.
  exists [(cli_parser, "kv"%string); (kv_parser, "set"%string)],
         (Parser [ (["key"], kw "The key to set");
                   (["value"], kw "The value of the key") ]%string None).
  split; [apply (route_kv_action ("set", "Set a key in the database",
                                  [ (["key"], kw "The key to set");
                                    (["value"], kw "The value of the key") ])%string);
          vm_compute; tauto|].
  split; [sample_chain|].
  split; [sample_filled|].
  split; [intros d choices H; discriminate H|].
  split; [sample_attributes|reflexivity].
Qed.

(** [register web check 10 /bin/true] *)
Lemma sample_register_args_namespace (PYTHON3 : bool) :
  namespace_of PYTHON3 cli_parser sample_register_args.
Proof.
  exists [(cli_parser, "register"%string); (registerp, "check"%string)], register_check.
  split; [apply route_register_check; left; reflexivity|].
  split; [sample_chain|].
  split; [sample_filled|].
  split; [intros d choices H; discriminate H|].
  split; [sample_attributes|reflexivity].
Qed.

(** [register web -t primary,v2 -p 80 ttl 30] *)
Lemma sample_tagged_args_namespace (PYTHON3 : bool) :
  namespace_of PYTHON3 cli_parser sample_tagged_args.
Proof.
  exists [(cli_parser, "register"%string); (registerp, "ttl"%string)], register_ttl.
  split; [apply route_register_check; right; right; left; reflexivity|].
  split; [sample_chain|].
  split; [sample_filled|].
  split; [intros d choices H; discriminate H|].
  split; [sample_attributes|reflexivity].
Qed.

(** ** The parser for command lines spelled in full

    An induction principle for [parse_tokens].

    A property of the namespace that holds at the start, is kept by every
    flag, every positional and every choice of a sub-command, holds of the
    namespace [parse_tokens] returns. *)
Section ParseInvariant.
Variable PYTHON3 : bool.
Variable Inv : parser -> list argument -> namespace -> Prop.

Hypothesis Inv_flag : forall p pending ns a x,
  Inv p pending ns -> In a (arguments p) -> is_positional a = false ->
  flag_value a x ->
  Inv p pending (<[dest_of a := x]> ns).
Hypothesis Inv_positional : forall p a pending ns tok x,
  Inv p (a :: pending) ns -> In a (arguments p) -> convert a tok = Some x ->
  Inv p pending (<[dest_of a := x]> ns).
Hypothesis Inv_subcommand : forall p ns d choices name sub,
  Inv p [] ns -> subparsers p = Some (d, choices) -> In (name, sub) choices ->
  Inv sub (List.filter is_positional (arguments sub))
      (set_defaults sub (<[d := PStr (py name)]> ns)).

Lemma parse_tokens_invariant_bounded (n : nat) : forall argv p pending ns ns',
  (length argv <= n)%nat ->
  Inv p pending ns ->
  (forall a, In a pending -> In a (arguments p)) ->
  parse_tokens PYTHON3 p pending ns argv = Ok ns' ->
  exists p', Inv p' [] ns' /\ (PYTHON3 = false -> subparsers p' = None).
Proof.
  induction n as [|n IH]; intros argv p pending ns ns' Hlen HI Hpend H.
  - destruct argv; [|simpl in Hlen; lia]. simpl in H.
    destruct pending; [|discriminate].
    destruct (subparsers p) eqn:Es.
    + destruct PYTHON3 eqn:E3; [|discriminate]. injection H as <-.
      exists p. split; [assumption|discriminate].
    + injection H as <-. exists p. split; [assumption|intros _; assumption].
  - destruct argv as [|tok rest].
    { apply (IH [] p pending ns ns'); [simpl; lia|assumption|assumption|assumption]. }
    simpl in Hlen. simpl in H.
    destruct (flag_like tok).
    + destruct (pystr_eqb tok (py "-h") || pystr_eqb tok (py "--help"));
        [discriminate|].
      destruct (find_flag tok (arguments p)) as [a|] eqn:Ef; [|discriminate].
      apply find_some in Ef as [Hin Hf].
      apply andb_prop in Hf as [Hnp _]. apply negb_true_iff in Hnp.
      assert (Hstep : forall x argv',
                 flag_value a x ->
                 (length argv' <= n)%nat ->
                 parse_tokens PYTHON3 p pending (<[dest_of a := x]> ns) argv' = Ok ns' ->
                 exists p', Inv p' [] ns' /\ (PYTHON3 = false -> subparsers p' = None)).
      { intros x argv' Hx Hl Hp. eapply IH; [exact Hl| |exact Hpend|exact Hp].
        eapply Inv_flag; eauto. }
      unfold flag_value in Hstep.
      destruct (is_store_true a).
      { apply (Hstep (PBool true) rest); [tauto|lia|exact H]. }
      destruct (is_optional_value a).
      * destruct rest as [|v rest'].
        { apply (Hstep PNone []); [tauto|simpl; lia|exact H]. }
        destruct (flag_like v).
        { apply (Hstep PNone (v :: rest')); [tauto|lia|exact H]. }
        destruct (convert a v) as [x|] eqn:Ec; [|discriminate].
        apply (Hstep x rest'); [eauto|simpl in Hlen; lia|exact H].
      * destruct rest as [|v rest']; [discriminate|].
        destruct (flag_like v); [discriminate|].
        destruct (convert a v) as [x|] eqn:Ec; [|discriminate].
        apply (Hstep x rest'); [eauto|simpl in Hlen; lia|exact H].
    + destruct pending as [|a pending'].
      * destruct (subparsers p) as [[d choices]|] eqn:Es; [|discriminate].
        destruct (find _ choices) as [[name sub]|] eqn:Ef; [|discriminate].
        apply find_some in Ef as [Hin Hf]. simpl in Hf.
        apply pystr_eqb_eq in Hf. subst tok.
        eapply IH; [| | |exact H].
        -- lia.
        -- eapply Inv_subcommand; eauto.
        -- intros a Ha. apply filter_In in Ha. tauto.
      * destruct (convert a tok) as [x|] eqn:Ec; [|discriminate].
        eapply IH; [| | |exact H].
        -- lia.
        -- eapply Inv_positional; eauto. apply Hpend. left. reflexivity.
        -- intros a' Ha'. apply Hpend. right. exact Ha'.
Qed.

Lemma parse_args_invariant (p : parser) (argv : list pystr) (ns' : namespace) :
  Inv p (List.filter is_positional (arguments p)) (set_defaults p ∅) ->
  parse_args PYTHON3 p argv = Ok ns' ->
  exists p', Inv p' [] ns' /\ (PYTHON3 = false -> subparsers p' = None).
Proof.
  intros HI H. unfold parse_args in H.
  eapply (parse_tokens_invariant_bounded (length argv)); [| exact HI | | exact H].
  - lia.
  - intros a Ha. apply filter_In in Ha. tauto.
Qed.

End ParseInvariant.

(** *** Defaults *)

Lemma set_default_union (k : string) (v : pyval) (ns : namespace) :
  set_default k v ns = ns ∪ {[k := v]}.
Proof.
  unfold set_default. apply map_eq. intros j.
  destruct (ns !! k) as [x|] eqn:E.
  - rewrite lookup_union. destruct (decide (k = j)) as [<-|Hne].
    + rewrite E, lookup_singleton_eq. reflexivity.
    + rewrite lookup_singleton_ne by assumption. destruct (ns !! j); reflexivity.
  - rewrite lookup_union. destruct (decide (k = j)) as [<-|Hne].
    + rewrite lookup_insert_eq, E, lookup_singleton_eq. reflexivity.
    + rewrite lookup_insert_ne, lookup_singleton_ne by assumption.
      destruct (ns !! j); reflexivity.
Qed.

Lemma set_defaults_union (p : parser) (ns : namespace) :
  set_defaults p ns = ns ∪ set_defaults p ∅.
Proof.
  unfold set_defaults.
  assert (Hfold : forall (l : list argument) (m : namespace),
             fold_left (fun ns a => set_default (dest_of a) (default_of a) ns) l m
             = m ∪ fold_left (fun ns a => set_default (dest_of a) (default_of a) ns) l ∅).
  { induction l as [|a l IH]; intros m; simpl.
    - rewrite (right_id ∅ (∪)). reflexivity.
    - rewrite IH. rewrite (IH (set_default _ _ ∅)).
      rewrite !set_default_union.
      rewrite (left_id ∅ (∪)). rewrite (assoc (∪)). reflexivity. }
  rewrite Hfold. destruct (subparsers p) as [[d ?]|]; [|reflexivity].
  rewrite !set_default_union.
  rewrite (assoc (∪)). reflexivity.
Qed.

Lemma set_defaults_lookup_Some (p : parser) (ns : namespace) k v :
  ns !! k = Some v -> set_defaults p ns !! k = Some v.
Proof.
  intros H. rewrite set_defaults_union.
  apply lookup_union_Some_l. exact H.
Qed.

Lemma set_default_keep (k : string) (v : pyval) (m : namespace) j x :
  m !! j = Some x -> set_default k v m !! j = Some x.
Proof.
  intros H. unfold set_default. destruct (m !! k) eqn:E; [exact H|].
  rewrite lookup_insert_ne; [exact H|]. intros Heq. congruence.
Qed.

Lemma set_default_new (k : string) (v : pyval) (m : namespace) :
  m !! k = None -> set_default k v m !! k = Some v.
Proof. intros H. unfold set_default. rewrite H. apply lookup_insert_eq. Qed.

Lemma set_default_ne (k : string) (v : pyval) (m : namespace) j :
  k <> j -> set_default k v m !! j = m !! j.
Proof.
  intros H. unfold set_default. destruct (m !! k); [reflexivity|].
  apply lookup_insert_ne, H.
Qed.

Lemma fold_defaults_keep (l : list argument) : forall (m : namespace) k v,
  m !! k = Some v ->
  fold_left (fun ns a => set_default (dest_of a) (default_of a) ns) l m !! k = Some v.
Proof.
  induction l as [|b l IH]; intros m k v H; simpl; [exact H|].
  apply IH, set_default_keep, H.
Qed.

Lemma fold_defaults_other (l : list argument) : forall (m : namespace) k,
  m !! k = None -> ~ In k (List.map dest_of l) ->
  fold_left (fun ns a => set_default (dest_of a) (default_of a) ns) l m !! k = None.
Proof.
  induction l as [|b l IH]; intros m k H Hk; simpl; [exact H|].
  apply IH.
  - rewrite set_default_ne; [exact H|]. intros Heq. apply Hk. left. exact Heq.
  - intros Hin. apply Hk. right. exact Hin.
Qed.

Lemma fold_defaults_lookup (l : list argument) : forall (m : namespace) a,
  NoDup (List.map dest_of l) -> In a l -> m !! dest_of a = None ->
  fold_left (fun ns a => set_default (dest_of a) (default_of a) ns) l m !! dest_of a
  = Some (default_of a).
Proof.
  induction l as [|b l IH]; intros m a Hnd Ha Hm; [contradiction|].
  simpl in Hnd. apply NoDup_cons in Hnd as [Hb Hnd]. simpl.
  destruct Ha as [->|Ha].
  - apply fold_defaults_keep, set_default_new, Hm.
  - apply IH; [exact Hnd|exact Ha|].
    rewrite set_default_ne; [exact Hm|].
    intros Heq. apply Hb. rewrite Heq. apply list_elem_of_In, in_map, Ha.
Qed.

Lemma NoDup_dests_arguments (p : parser) :
  NoDup (dests p) -> NoDup (List.map dest_of (arguments p)).
Proof. unfold dests. intros H. apply NoDup_app in H. tauto. Qed.

Lemma dests_subcommand (p : parser) d choices a :
  NoDup (dests p) -> subparsers p = Some (d, choices) -> In a (arguments p) ->
  dest_of a <> d.
Proof.
  unfold dests. intros Hnd Hs Ha. rewrite Hs in Hnd.
  apply (NoDup_app_ne _ _ _ _ Hnd); [apply in_map, Ha|left; reflexivity].
Qed.

Lemma In_dests_argument (p : parser) a : In a (arguments p) -> In (dest_of a) (dests p).
Proof. intros H. unfold dests. apply in_or_app. left. apply in_map, H. Qed.

Lemma In_dests_subcommand (p : parser) d choices :
  subparsers p = Some (d, choices) -> In d (dests p).
Proof. intros H. unfold dests. rewrite H. apply in_or_app. right. left. reflexivity. Qed.

(** The defaults of a parser on a namespace that has none of its
    attributes. *)
Lemma set_defaults_fresh (p : parser) (ns : namespace) :
  NoDup (dests p) ->
  (forall k, In k (dests p) -> ns !! k = None) ->
  (forall a, In a (arguments p) ->
             set_defaults p ns !! dest_of a = Some (default_of a))
  /\ (forall d choices, subparsers p = Some (d, choices) ->
                        set_defaults p ns !! d = Some PNone)
  /\ (forall k, is_Some (set_defaults p ns !! k) -> is_Some (ns !! k) \/ In k (dests p)).
Proof.
  intros Hnd Hfresh. unfold set_defaults. split; [|split].
  - intros a Ha.
    assert (Hfold : fold_left (fun ns a => set_default (dest_of a) (default_of a) ns)
                      (arguments p) ns !! dest_of a = Some (default_of a)).
    { apply fold_defaults_lookup;
        [apply NoDup_dests_arguments, Hnd|exact Ha|apply Hfresh, In_dests_argument, Ha]. }
    destruct (subparsers p) as [[d choices]|] eqn:Es; [|exact Hfold].
    apply set_default_keep, Hfold.
  - intros d choices Es. rewrite Es.
    apply set_default_new, fold_defaults_other;
      [apply Hfresh, (In_dests_subcommand _ _ _ Es)|].
    intros Hin. apply in_map_iff in Hin as [a [Hin Ha]].
    revert Hin. eapply dests_subcommand; eauto.
  - intros k Hk.
    destruct (ns !! k) as [v|] eqn:E; [left; eauto|right].
    destruct (in_dec string_dec k (dests p)) as [Hin|Hout]; [exact Hin|exfalso].
    assert (Hfold : fold_left (fun ns a => set_default (dest_of a) (default_of a) ns)
                      (arguments p) ns !! k = None).
    { apply fold_defaults_other; [exact E|].
      intros Hin. apply Hout. unfold dests. apply in_or_app. left. exact Hin. }
    destruct (subparsers p) as [[d choices]|] eqn:Es.
    + rewrite set_default_ne, Hfold in Hk; [destruct Hk; discriminate|].
      intros Heq. apply Hout. rewrite <- Heq. eapply In_dests_subcommand; eauto.
    + rewrite Hfold in Hk. destruct Hk; discriminate.
Qed.

(** *** The namespace along a route *)

Lemma In_chain_dests (chain : list (parser * string)) step k :
  In step chain -> In k (dests (fst step)) ->
  In k (List.concat (List.map (fun step => dests (fst step)) chain)).
Proof.
  intros Hs Hk. apply in_concat. exists (dests (fst step)). split; [|exact Hk].
  apply in_map_iff. exists step. auto.
Qed.

Lemma holds_insert_ne (ns : namespace) a k x :
  dest_of a <> k -> holds ns a -> holds (<[k := x]> ns) a.
Proof.
  intros Hne [y [Hy Hv]]. exists y. split; [|exact Hv].
  rewrite lookup_insert_ne; [exact Hy|]. intros Heq. apply Hne. symmetry. exact Heq.
Qed.

(** Writing an attribute that is none of [p]. *)
Lemma typed_insert_ne (p : parser) pending (ns : namespace) k x :
  (forall a, In a (arguments p) -> dest_of a <> k) ->
  typed p pending ns -> typed p pending (<[k := x]> ns).
Proof.
  intros Hne Hty a Ha. destruct (Hty a Ha) as [Hin|Hh]; [left; exact Hin|right].
  apply holds_insert_ne; [apply Hne, Ha|exact Hh].
Qed.

(** Storing the value of an argument of [p]: the argument has its value and
    the others keep theirs, since no two write the same attribute. *)
Lemma typed_insert_own (p : parser) pending pending' (ns : namespace) a x :
  NoDup (dests p) -> In a (arguments p) -> arg_value a x ->
  (forall a', In a' pending -> a' = a \/ In a' pending') ->
  typed p pending ns -> typed p pending' (<[dest_of a := x]> ns).
Proof.
  intros Hnd Ha Hx Hpend Hty a' Ha'.
  assert (Hown : holds (<[dest_of a := x]> ns) a).
  { exists x. split; [apply lookup_insert_eq|exact Hx]. }
  destruct (Hty a' Ha') as [Hin|Hh].
  - destruct (Hpend a' Hin) as [->|Hin']; [right; exact Hown|left; exact Hin'].
  - right. destruct (string_dec (dest_of a') (dest_of a)) as [Heq|Hne].
    + rewrite (NoDup_map_eq dest_of (arguments p) a' a
                 (NoDup_dests_arguments _ Hnd) Ha' Ha Heq).
      exact Hown.
    + apply holds_insert_ne; assumption.
Qed.

Lemma typed_set_defaults (p sub : parser) pending (ns : namespace) :
  typed p pending ns -> typed p pending (set_defaults sub ns).
Proof.
  intros Hty a Ha. destruct (Hty a Ha) as [Hin|[x [Hx Hv]]]; [left; exact Hin|right].
  exists x. split; [apply set_defaults_lookup_Some, Hx|exact Hv].
Qed.

(** With no positional pending, every argument has its value. *)
Lemma typed_filled (p : parser) (ns : namespace) : typed p [] ns <-> filled p ns.
Proof.
  split.
  - intros Hty a Ha. destruct (Hty a Ha) as [[]|H]. exact H.
  - intros Hf a Ha. right. apply Hf, Ha.
Qed.

Lemma chose_insert (ns : namespace) step k x :
  ~ In k (dests (fst step)) -> chose ns step -> chose (<[k := x]> ns) step.
Proof.
  intros Hk [Hty [d [choices [Hs Hd]]]]. split.
  - apply typed_filled, typed_insert_ne; [|apply typed_filled, Hty].
    intros a Ha Heq. apply Hk. rewrite <- Heq. apply In_dests_argument, Ha.
  - exists d, choices. split; [exact Hs|].
    rewrite lookup_insert_ne; [exact Hd|].
    intros Heq. apply Hk. rewrite Heq. apply (In_dests_subcommand _ _ _ Hs).
Qed.

Lemma chose_set_defaults (ns : namespace) step sub :
  chose ns step -> chose (set_defaults sub ns) step.
Proof.
  intros [Hty [d [choices [Hs Hd]]]].
  split; [apply typed_filled, typed_set_defaults, typed_filled, Hty|].
  exists d, choices. split; [exact Hs|apply set_defaults_lookup_Some, Hd].
Qed.

(** The values [parse_tokens] stores are of the kind of their argument. *)
Lemma convert_stored (a : argument) (tok : pystr) (x : pyval) :
  convert a tok = Some x -> stored a x.
Proof.
  unfold convert, stored. destruct (type_int (snd a)).
  - destruct (int_of_text tok); simpl; [|discriminate]. intros [= <-]. eauto.
  - intros [= <-]. eauto.
Qed.

Lemma flag_value_arg_value (a : argument) (x : pyval) :
  is_positional a = false -> flag_value a x -> arg_value a x.
Proof.
  intros Hpos H. unfold arg_value. rewrite Hpos. right.
  destruct H as [H|[H|[Hst [v Hv]]]]; [left; exact H|right; left; exact H|].
  right. right. split; [exact Hst|apply (convert_stored a v), Hv].
Qed.

Lemma Forall_chose_insert chain p (ns : namespace) k x :
  NoDup (route_dests chain p) -> In k (dests p) ->
  Forall (chose ns) chain -> Forall (chose (<[k := x]> ns)) chain.
Proof.
  intros Hnd Hk Hch. apply List.Forall_forall. intros step Hstep.
  apply chose_insert; [|apply (proj1 (List.Forall_forall _ _) Hch), Hstep].
  intros Hin. apply (NoDup_app_ne _ _ k k Hnd); [|exact Hk|reflexivity].
  apply (In_chain_dests _ _ _ Hstep Hin).
Qed.

Lemma route_dests_parser chain p :
  NoDup (route_dests chain p) -> NoDup (dests p).
Proof. unfold route_dests. intros H. apply NoDup_app in H. tauto. Qed.

Section Routes.
Variable PYTHON3 : bool.
Variable root : parser.
Hypothesis root_wf : forall chain p, route root chain p -> NoDup (route_dests chain p).

(** The three steps of [parse_tokens] keep the namespace on its route: the
    value of a flag, of a positional, and the choice of a sub-command with
    its defaults. *)
Lemma routed_insert p pending pending' (ns : namespace) a x :
  routed root p pending ns -> In a (arguments p) -> arg_value a x ->
  (forall a', In a' pending -> a' = a \/ In a' pending') ->
  Forall (fun a => is_positional a = true) pending' ->
  routed root p pending' (<[dest_of a := x]> ns).
Proof.
  intros (chain & Hr & Hch & Hty & _ & Hsub & Hdom) Ha Hx Hpend Hpos.
  pose proof (root_wf chain p Hr) as Hnd.
  pose proof (route_dests_parser _ _ Hnd) as Hndp.
  exists chain. split; [exact Hr|]. split; [|split; [|split; [|split]]].
  - apply (Forall_chose_insert chain p); [exact Hnd|apply In_dests_argument, Ha|exact Hch].
  - apply (typed_insert_own p pending); assumption.
  - exact Hpos.
  - intros d choices Hs. rewrite lookup_insert_ne; [apply (Hsub d choices Hs)|].
    apply (dests_subcommand p d choices a Hndp Hs Ha).
  - intros k Hk. apply lookup_insert_is_Some in Hk as [<-|[_ Hk]].
    + unfold route_dests. apply in_or_app. right. apply In_dests_argument, Ha.
    + apply Hdom, Hk.
Qed.

Lemma routed_flag p pending (ns : namespace) a x :
  routed root p pending ns -> In a (arguments p) -> is_positional a = false ->
  flag_value a x ->
  routed root p pending (<[dest_of a := x]> ns).
Proof.
  intros HI Ha Hpos Hx.
  apply (routed_insert p pending); [exact HI|exact Ha| |tauto|].
  - apply flag_value_arg_value; assumption.
  - destruct HI as (chain & _ & _ & _ & H & _). exact H.
Qed.

Lemma routed_positional p a pending (ns : namespace) tok x :
  routed root p (a :: pending) ns -> In a (arguments p) -> convert a tok = Some x ->
  routed root p pending (<[dest_of a := x]> ns).
Proof.
  intros HI Ha Hx.
  assert (Hpos : Forall (fun a => is_positional a = true) (a :: pending))
    by (destruct HI as (chain & _ & _ & _ & H & _); exact H).
  apply List.Forall_cons_iff in Hpos as [Hpa Hpos].
  apply (routed_insert p (a :: pending)); [exact HI|exact Ha| | |exact Hpos].
  - unfold arg_value. rewrite Hpa. apply (convert_stored a tok), Hx.
  - intros a' [<-|Hin]; [left; reflexivity|right; exact Hin].
Qed.

Lemma routed_defaults chain p (ns : namespace) :
  route root chain p ->
  (forall k, is_Some (ns !! k) -> In k (List.concat (List.map (fun step => dests (fst step)) chain))) ->
  Forall (chose ns) chain ->
  routed root p (List.filter is_positional (arguments p)) (set_defaults p ns).
Proof.
  intros Hr Hdom Hch.
  pose proof (root_wf chain p Hr) as Hnd.
  pose proof (route_dests_parser _ _ Hnd) as Hndp.
  assert (Hfresh : forall k, In k (dests p) -> ns !! k = None).
  { intros k Hk. destruct (ns !! k) as [v|] eqn:E; [exfalso|reflexivity].
    apply (NoDup_app_ne _ _ k k Hnd); [|exact Hk|reflexivity].
    apply Hdom. rewrite E. eauto. }
  destruct (set_defaults_fresh p ns Hndp Hfresh) as [Hargs [Hsub Hkeys]].
  exists chain. split; [exact Hr|]. split; [|split; [|split; [|split]]].
  - apply List.Forall_forall. intros step Hstep.
    apply chose_set_defaults, (proj1 (List.Forall_forall _ _) Hch), Hstep.
  - intros a Ha. destruct (is_positional a) eqn:Hpos.
    + left. apply filter_In. auto.
    + right. exists (default_of a). split; [apply Hargs, Ha|].
      unfold arg_value. rewrite Hpos. left. reflexivity.
  - apply List.Forall_forall. intros a Ha. apply filter_In in Ha. tauto.
  - exact Hsub.
  - intros k Hk. unfold route_dests. apply in_or_app.
    destruct (Hkeys k Hk) as [H|H]; [left; apply Hdom, H|right; exact H].
Qed.

Lemma routed_subcommand p (ns : namespace) d choices name sub :
  routed root p [] ns -> subparsers p = Some (d, choices) -> In (name, sub) choices ->
  routed root sub (List.filter is_positional (arguments sub))
         (set_defaults sub (<[d := PStr (py name)]> ns)).
Proof.
  intros (chain & Hr & Hch & Hty & _ & Hsub & Hdom) Hs Hin.
  pose proof (root_wf chain p Hr) as Hnd.
  pose proof (route_dests_parser _ _ Hnd) as Hndp.
  apply (routed_defaults (chain ++ [(p, name)]) sub).
  - apply (route_step root chain p d choices); assumption.
  - intros k Hk. rewrite map_app, concat_app. simpl. rewrite app_nil_r.
    fold (route_dests chain p).
    apply lookup_insert_is_Some in Hk as [<-|[_ Hk]].
    + unfold route_dests. apply in_or_app. right. apply (In_dests_subcommand _ _ _ Hs).
    + apply Hdom, Hk.
  - apply List.Forall_app. split.
    + apply (Forall_chose_insert chain p);
        [exact Hnd|apply (In_dests_subcommand _ _ _ Hs)|exact Hch].
    + constructor; [|constructor]. split.
      * simpl. apply typed_filled, typed_insert_ne; [|exact Hty].
        intros a Ha. apply (dests_subcommand p d choices a Hndp Hs Ha).
      * exists d, choices. split; [exact Hs|apply lookup_insert_eq].
Qed.

Lemma routed_init :
  routed root root (List.filter is_positional (arguments root)) (set_defaults root ∅).
Proof.
  apply (routed_defaults [] root).
  - apply route_root.
  - intros k [v Hk]. rewrite lookup_empty in Hk. discriminate.
  - constructor.
Qed.

(** What [parse_args] returns: the namespace of a route through the
    sub-commands, with every argument of every parser on it. *)
Lemma parse_args_routed (argv : list pystr) (ns : namespace) :
  parse_args PYTHON3 root argv = Ok ns ->
  exists p, routed root p [] ns /\ (PYTHON3 = false -> subparsers p = None).
Proof.
  intros H.
  apply (parse_args_invariant PYTHON3 (routed root)) in H;
    [exact H|apply routed_flag|apply routed_positional|apply routed_subcommand
    |apply routed_init].
Qed.

End Routes.


(** What the parser for command lines spelled in full returns for
    [cli.py] is a namespace of [cli.py]. *)
Lemma exact_namespace_of (PYTHON3 : bool) (argv : list pystr) (ns : namespace) :
  Exact.parse_args PYTHON3 cli_parser argv = Ok ns ->
  namespace_of PYTHON3 cli_parser ns.
Proof.
  intros H.
  apply (parse_args_routed PYTHON3 cli_parser cli_routes_wf) in H
    as [p [(chain & Hr & Hch & Hty & _ & Hsub & Hdom) Hend]].
  exists chain, p. split; [exact Hr|]. split; [exact Hch|].
  split; [apply typed_filled, Hty|]. auto.
Qed.

(** The sample command lines and their namespaces. *)
Lemma sample_args_parsed (PYTHON3 : bool) :
  parse_cli_args (Exact.parse_args PYTHON3) sample_argv = Ok sample_args.
Proof. vm_compute. reflexivity. Qed.

Lemma sample_set_args_parsed (PYTHON3 : bool) :
  parse_cli_args (Exact.parse_args PYTHON3) sample_set_argv = Ok sample_set_args.
Proof. vm_compute. reflexivity. Qed.

Lemma sample_register_args_parsed (PYTHON3 : bool) :
  parse_cli_args (Exact.parse_args PYTHON3) sample_register_argv
  = Ok sample_register_args.
Proof. vm_compute. reflexivity. Qed.

Lemma sample_tagged_args_parsed (PYTHON3 : bool) :
  parse_cli_args (Exact.parse_args PYTHON3) sample_tagged_argv = Ok sample_tagged_args.
Proof. vm_compute. reflexivity. Qed.

(** Python 3 accepts [kv] without an action; Python 2 refuses it. *)
Lemma kv_alone_parsed :
  parse_cli_args (Exact.parse_args true) kv_alone_argv = Ok kv_alone
  /\ parse_cli_args (Exact.parse_args false) kv_alone_argv = Raise (SystemExit 2).
Proof. split; vm_compute; reflexivity. Qed.

(** ** [main] *)

(** [main] after the command line was parsed. *)
Lemma main_parsed (PYTHON3 : bool)
    (parse_args : parser -> list pystr -> result namespace)
    (argv : list pystr) (args : namespace) (w : world) :
  parse_args cli_parser argv = Ok args ->
  main PYTHON3 parse_args argv w = main_body PYTHON3 args w.
Proof. intros H. unfold main, parse_cli_args, bind, lift. rewrite H. reflexivity. Qed.

(** A command line that is refused: [main] ends with the exit of
    [parse_args]. *)
Lemma main_refused (PYTHON3 : bool)
    (parse_args : parser -> list pystr -> result namespace)
    (argv : list pystr) (e : exn) (w : world) :
  parse_args cli_parser argv = Raise e ->
  main PYTHON3 parse_args argv w = (Raise e, w).
Proof. intros H. unfold main, parse_cli_args, bind, lift. rewrite H. reflexivity. Qed.

(** [main] on a namespace without the attribute [scheme]. *)
Lemma main_body_scheme (PYTHON3 : bool) (args : namespace) (w : world) :
  args !! "scheme"%string = None ->
  main_body PYTHON3 args w = (Raise (AttributeError "scheme"), w).
Proof. intros H. unfold main_body, bind, getattr. rewrite H. reflexivity. Qed.

(** The parsers of [cli.py] declare [api_scheme] and, on no route, an
    attribute [scheme]. *)
Lemma cli_declares_api_scheme :
  declares cli_parser "api_scheme" /\ ~ declares cli_parser "scheme".
Proof.
  split.
  - apply cli_declares. vm_compute. reflexivity.
  - intros H. apply cli_declares in H. vm_compute in H. discriminate H.
Qed.

(** C2: the parsers of [cli.py] declare the attribute [api_scheme] (the
    option [--api-scheme], text in every namespace of the parser) and none
    declares an attribute [scheme].  So whenever [parse_args] accepts the
    command line, whatever its spelling, with a namespace that holds
    declared attributes only, that namespace has no attribute [scheme],
    and [main] stops with the attribute error of its first statement, the
    read of [args.scheme]: the world is as it was, so no client was built,
    nothing was sent, printed or written, and no handler ran. *)
Theorem main_fails_on_scheme (PYTHON3 : bool) (args : namespace) (w : world) :
  (forall k, is_Some (args !! k) -> declares cli_parser k) ->
  declares cli_parser "api_scheme"
  /\ ~ declares cli_parser "scheme"
  /\ (namespace_of PYTHON3 cli_parser args -> is_text args "api_scheme")
  /\ args !! "scheme"%string = None
  /\ main_body PYTHON3 args w = (Raise (AttributeError "scheme"), w)
  /\ forall (parse_args : parser -> list pystr -> result namespace) argv,
       parse_args cli_parser argv = Ok args ->
       main PYTHON3 parse_args argv w = (Raise (AttributeError "scheme"), w).
Proof.
  intros Hdecl.
  destruct cli_declares_api_scheme as [Hapi Hscheme].
  assert (Hnone : args !! "scheme"%string = None).
  { destruct (args !! "scheme"%string) as [v|] eqn:E; [exfalso|reflexivity].
    apply Hscheme, Hdecl. rewrite E. eauto. }
  split; [exact Hapi|]. split; [exact Hscheme|].
  split; [intros Hns; apply (namespace_connection _ _ Hns)|]. split; [exact Hnone|].
  split; [apply main_body_scheme, Hnone|].
  intros parse_args argv Hparse.
  rewrite (main_parsed _ _ _ _ _ Hparse). apply main_body_scheme, Hnone.
Qed.

Lemma main_fails_on_scheme_witness :
  (forall k, is_Some (sample_args !! k) -> declares cli_parser k)
  /\ is_Some (sample_args !! "api_scheme"%string)
  /\ main_body true sample_args sample_world
     = (Raise (AttributeError "scheme"), sample_world).
Proof.
  assert (H : forall k, is_Some (sample_args !! k) -> declares cli_parser k)
    by (apply (namespace_declared true), sample_args_namespace).
  split; [exact H|]. split; [vm_compute; eauto|].
  exact (proj1 (proj2 (proj2 (proj2 (proj2
           (main_fails_on_scheme true sample_args sample_world H)))))).
Defined.

(** ** [kv_mkdir] *)

(** The path [kv_mkdir] sends: the slash is appended unless the path without
    its last character is the text ["/"]. *)
Lemma kv_mkdir_request (consul : Consul) (args : namespace) (path : pystr) (w : world) :
  args !! "path"%string = Some (PStr path) ->
  w_requests (snd (kv_mkdir consul args w))
  = w_requests w
    ++ [(KvSet (if pystr_eqb (removelast path) (py "/") then path
                else path ++ py "/") PNone,
         w_transport w (length (w_requests w)))].
Proof.
  intros Hpath. unfold kv_mkdir, bind, getattr, lift. rewrite Hpath. simpl.
  destruct (pystr_eqb (removelast path) (py "/")); simpl.
  - unfold try_except_ConnectionError, bind, getattr. rewrite Hpath. simpl.
    unfold consul_kv_set, with_path, request.
    destruct (w_transport w (length (w_requests w))); reflexivity.
  - unfold try_except_ConnectionError, bind, getattr.
    rewrite lookup_insert_eq. simpl.
    unfold consul_kv_set, with_path, request.
    destruct (w_transport w (length (w_requests w))); reflexivity.
Qed.

(** C1, at the input ["foo/"]: the path already ends with a slash and
    [kv_mkdir] sends ["foo//"]. *)
Theorem kv_mkdir_doubles_trailing_slash (consul : Consul) (w : world) :
  w_requests (snd (kv_mkdir consul {[ "path"%string := PStr (py "foo/") ]} w))
  = w_requests w
    ++ [(KvSet (py "foo//") PNone, w_transport w (length (w_requests w)))].
Proof.
  rewrite (kv_mkdir_request consul _ (py "foo/")).
  - reflexivity.
  - apply lookup_singleton_eq.
Qed.

(** [kv_mkdir] on ["foo"] sends ["foo/"], and on ["/x"], which does not end
    with a slash, sends ["/x"] as it is. *)
Lemma kv_mkdir_examples (consul : Consul) (w : world) :
  w_requests (snd (kv_mkdir consul {[ "path"%string := PStr (py "foo") ]} w))
  = w_requests w
    ++ [(KvSet (py "foo/") PNone, w_transport w (length (w_requests w)))]
  /\ w_requests (snd (kv_mkdir consul {[ "path"%string := PStr (py "/x") ]} w))
     = w_requests w
       ++ [(KvSet (py "/x") PNone, w_transport w (length (w_requests w)))].
Proof.
  split.
  - rewrite (kv_mkdir_request consul _ (py "foo")); [reflexivity|].
    apply lookup_singleton_eq.
  - rewrite (kv_mkdir_request consul _ (py "/x")); [reflexivity|].
    apply lookup_singleton_eq.
Qed.

(** ** [kv_restore] *)

Lemma store_lookup_put (k k' : pystr) (fv : pyval * pyval) (s : store) :
  store_lookup k (store_put k' fv s)
  = if pystr_eqb k' k then Some fv else store_lookup k s.
Proof.
  induction s as [|[q fv'] s IH]; simpl.
  - destruct (pystr_eqb k' k); reflexivity.
  - destruct (pystr_eqb q k') eqn:Eq; simpl.
    + apply pystr_eqb_eq in Eq. subst q.
      destruct (pystr_eqb k' k); reflexivity.
    + destruct (pystr_eqb q k) eqn:Ek.
      * apply pystr_eqb_eq in Ek. subst q.
        apply pystr_eqb_neq in Eq.
        destruct (pystr_eqb k' k) eqn:E'; [|reflexivity].
        apply pystr_eqb_eq in E'. congruence.
      * exact IH.
Qed.

(** A conditional write leaves every key of the store as it was. *)
Lemma store_set_record_keeps (p : pystr) (flags value : pyval) (s : store)
    (k : pystr) (fv : pyval * pyval) :
  store_lookup k s = Some fv ->
  store_lookup k (store_set_record p flags value false s) = Some fv.
Proof.
  intros H. unfold store_set_record.
  destruct (store_lookup p s) eqn:Ep; [exact H|].
  rewrite store_lookup_put.
  destruct (pystr_eqb p k) eqn:E; [|exact H].
  apply pystr_eqb_eq in E. congruence.
Qed.

(** [kv_restore] parses the whole input, then goes through the rows. *)
Lemma kv_restore_reads (PYTHON3 : bool) (consul : Consul) (args : namespace)
    (w : world) (text : pystr) :
  restore_input args w = Some text ->
  kv_restore PYTHON3 consul args w
  = match Json.loads text with
    | Some data =>
        (rows <- lift (iterate PYTHON3 data) ;;
         for_each rows (kv_restore_row PYTHON3 consul args)) w
    | None => (Raise ValueError, w)
    end.
Proof.
  unfold restore_input, kv_restore, bind, getattr.
  destruct (args !! "file"%string) as [file|]; [|discriminate].
  unfold ret at 1. cbn beta iota.
  destruct (truthy file) eqn:Etruthy.
  - destruct file; try discriminate. intros Hfile.
    unfold ret, open_r, handle_read. rewrite Hfile. cbn beta iota. rewrite Hfile.
    destruct (Json.loads text); reflexivity.
  - intros [= <-]. unfold ret, handle_read. cbn beta iota.
    destruct (Json.loads (w_stdin w)); reflexivity.
Qed.

(** C4: when the input is not JSON, [kv_restore] stops with the parse error
    ([ValueError]) and the world is as before: no request was sent and
    nothing was written to the error stream. *)
Theorem kv_restore_parse_failure (PYTHON3 : bool) (consul : Consul)
    (args : namespace) (w : world) (text : pystr) :
  restore_input args w = Some text ->
  Json.loads text = None ->
  kv_restore PYTHON3 consul args w = (Raise ValueError, w).
Proof.
  intros Hin Hparse. rewrite (kv_restore_reads _ _ _ _ _ Hin), Hparse.
  reflexivity.
Qed.

Lemma after_writes_requests (cs : list call) (w : world) :
  w_requests (after_writes cs w) = w_requests w ++ List.map (fun c => (c, true)) cs.
Proof.
  revert w; induction cs as [|c cs IH]; intros w; simpl.
  - rewrite app_nil_r. reflexivity.
  - unfold after_writes in *. simpl. rewrite IH. simpl.
    rewrite <- app_assoc. reflexivity.
Qed.

Lemma after_writes_kv (cs : list call) (w : world) :
  w_kv (after_writes cs w) = List.fold_left apply_write cs (w_kv w).
Proof.
  revert w; induction cs as [|c cs IH]; intros w; simpl; [reflexivity|].
  unfold after_writes in *. simpl. rewrite IH. reflexivity.
Qed.

Lemma after_writes_streams (cs : list call) (w : world) :
  w_stderr (after_writes cs w) = w_stderr w
  /\ w_stdout (after_writes cs w) = w_stdout w
  /\ w_transport (after_writes cs w) = w_transport w.
Proof.
  revert w; induction cs as [|c cs IH]; intros w; simpl; [auto|].
  unfold after_writes in *. simpl. destruct (IH (set_kv (apply_write (w_kv w) c)
                                                       (log_request c true w)))
    as [-> [-> ->]]. auto.
Qed.

(** One turn of the loop on a tuple: one [set_record] request whose
    [replace] argument is [not args.no_replace]; when the transport fails,
    the error line and exit status 1. *)
Lemma kv_restore_row_tuple (PYTHON3 : bool) (consul : Consul) (args : namespace)
    (no_replace : pyval) (r : pystr * (pyval * pyval)) (w : world) :
  args !! "no_replace"%string = Some no_replace ->
  kv_restore_row PYTHON3 consul args (PList [PStr (fst r); fst (snd r); snd (snd r)]) w
  = if w_transport w (length (w_requests w))
    then (Ok tt, after_writes [restore_write PYTHON3 no_replace r] w)
    else (Raise (SystemExit 1),
          put_stderr error_line
                     (log_request (restore_write PYTHON3 no_replace r) false w)).
Proof.
  intros Hnr. destruct r as [p [f v]]. simpl fst. simpl snd.
  unfold kv_restore_row, restore_write, restore_value.
  destruct PYTHON3; simpl negb; cbv iota.
  - unfold bind, ret, lift, try_except_ConnectionError, getattr. simpl.
    rewrite Hnr. simpl.
    unfold consul_kv_set_record, with_path, request.
    destruct (w_transport w (length (w_requests w))); reflexivity.
  - destruct v; unfold bind, ret, lift, try_except_ConnectionError, getattr;
      simpl; rewrite Hnr; simpl;
      unfold consul_kv_set_record, with_path, request;
      destruct (w_transport w (length (w_requests w))); reflexivity.
Qed.

Lemma for_each_app {A} (l1 l2 : list A) (body : A -> M unit) (w : world) :
  for_each (l1 ++ l2) body w
  = match for_each l1 body w with
    | (Ok _, w') => for_each l2 body w'
    | (Raise e, w') => (Raise e, w')
    end.
Proof.
  revert w; induction l1 as [|x l1 IH]; intros w; simpl; [reflexivity|].
  unfold bind. destruct (body x w) as [[[]|e] w']; [apply IH|reflexivity].
Qed.

(** The loop over tuples while the transport delivers. *)
Lemma restore_rows_delivered (PYTHON3 : bool) (consul : Consul) (args : namespace)
    (no_replace : pyval) (R : store) : forall w,
  args !! "no_replace"%string = Some no_replace ->
  (forall i, (i < length R)%nat ->
             w_transport w (length (w_requests w) + i) = true) ->
  for_each (List.map (fun r => PList [PStr (fst r); fst (snd r); snd (snd r)]) R)
           (kv_restore_row PYTHON3 consul args) w
  = (Ok tt, after_writes (List.map (restore_write PYTHON3 no_replace) R) w).
Proof.
  induction R as [|r R IH]; intros w Hnr Hok; simpl; [reflexivity|].
  unfold bind. rewrite (kv_restore_row_tuple _ _ _ _ _ _ Hnr).
  rewrite <- (Nat.add_0_r (length (w_requests w))) at 1.
  rewrite (Hok 0%nat) by (simpl; lia).
  rewrite IH; [reflexivity|exact Hnr|].
  intros i Hi. simpl. rewrite length_app. simpl.
  replace (length (w_requests w) + 1 + i)%nat
    with (length (w_requests w) + S i)%nat by lia.
  apply Hok. simpl. lia.
Qed.

(** With [replace] false, whatever the transport does, the loop leaves every
    key of the store as it was. *)
Lemma restore_rows_keep (PYTHON3 : bool) (consul : Consul) (args : namespace)
    (no_replace : pyval) (R : store) (k : pystr) (fv : pyval * pyval) : forall w,
  args !! "no_replace"%string = Some no_replace ->
  truthy no_replace = true ->
  store_lookup k (w_kv w) = Some fv ->
  store_lookup k
    (w_kv (snd (for_each
                  (List.map (fun r => PList [PStr (fst r); fst (snd r); snd (snd r)]) R)
                  (kv_restore_row PYTHON3 consul args) w)))
  = Some fv.
Proof.
  induction R as [|r R IH]; intros w Hnr Ht Hk; simpl; [exact Hk|].
  unfold bind. rewrite (kv_restore_row_tuple _ _ _ _ _ _ Hnr).
  destruct (w_transport w (length (w_requests w))).
  - apply IH; [exact Hnr|exact Ht|].
    simpl. unfold restore_write. rewrite Ht. simpl.
    apply store_set_record_keeps. exact Hk.
  - simpl. exact Hk.
Qed.

Lemma kv_restore_parse_failure_witness :
  restore_input (sample_restore_args false) truncated_world
  = Some (py "[[1, 2, 3], [4, ")
  /\ Json.loads (py "[[1, 2, 3], [4, ") = None
  /\ kv_restore true sample_consul (sample_restore_args false) truncated_world
     = (Raise ValueError, truncated_world).
Proof.
  assert (Hin : restore_input (sample_restore_args false) truncated_world
                = Some (py "[[1, 2, 3], [4, ")) by (vm_compute; reflexivity).
  assert (Hparse : Json.loads (py "[[1, 2, 3], [4, ") = None)
    by (vm_compute; reflexivity).
  split; [exact Hin|]. split; [exact Hparse|].
  exact (kv_restore_parse_failure true sample_consul _ _ _ Hin Hparse).
Defined.

Lemma kv_restore_tuples (PYTHON3 : bool) (consul : Consul) (args : namespace)
    (w : world) (text : pystr) (R : store) :
  restore_input args w = Some text ->
  Json.loads text = Some (tuples_value R) ->
  kv_restore PYTHON3 consul args w
  = for_each (List.map (fun r => PList [PStr (fst r); fst (snd r); snd (snd r)]) R)
             (kv_restore_row PYTHON3 consul args) w.
Proof.
  intros Hin Hparse. rewrite (kv_restore_reads _ _ _ _ _ Hin), Hparse.
  reflexivity.
Qed.

(** C3: [kv_restore] on an input of tuples sends, while the transport
    delivers, one [set_record] per tuple, in order, with the tuple's path
    and flags, its value (on Python 2 text goes as its UTF-8 bytes) and
    [replace = not args.no_replace]; and with [no_replace] set, whatever the
    transport does, every key the store had before the call still has the
    flags and value it had. *)
Theorem kv_restore_writes (PYTHON3 : bool) (consul : Consul) (args : namespace)
    (w : world) (text : pystr) (R : store) (no_replace : pyval) :
  restore_input args w = Some text ->
  Json.loads text = Some (tuples_value R) ->
  args !! "no_replace"%string = Some no_replace ->
  ((forall i, (i < length R)%nat ->
              w_transport w (length (w_requests w) + i) = true) ->
   fst (kv_restore PYTHON3 consul args w) = Ok tt
   /\ new_requests w (snd (kv_restore PYTHON3 consul args w))
      = List.map (fun r => (KvSetRecord (fst r) (fst (snd r))
                                        (restore_value PYTHON3 (snd (snd r)))
                                        (negb (truthy no_replace)), true)) R)
  /\ (truthy no_replace = true ->
      forall k fv, store_lookup k (w_kv w) = Some fv ->
                   store_lookup k (w_kv (snd (kv_restore PYTHON3 consul args w)))
                   = Some fv).
Proof.
  intros Hin Hparse Hnr. rewrite (kv_restore_tuples _ _ _ _ _ _ Hin Hparse).
  split.
  - intros Hok. rewrite (restore_rows_delivered _ _ _ _ _ _ Hnr Hok). simpl.
    split; [reflexivity|].
    unfold new_requests. rewrite after_writes_requests.
    rewrite drop_app_length. rewrite List.map_map. reflexivity.
  - intros Ht k fv Hk. apply (restore_rows_keep _ _ _ _ _ _ _ _ Hnr Ht Hk).
Qed.

Lemma kv_restore_writes_witness :
  restore_input (sample_restore_args true) (restore_world (fun _ => true))
  = Some sample_backup_text
  /\ fst (kv_restore true sample_consul (sample_restore_args true)
                     (restore_world (fun _ => true))) = Ok tt
  /\ store_lookup (py "a")
       (w_kv (snd (kv_restore true sample_consul (sample_restore_args true)
                              (restore_world (fun _ => true)))))
     = Some (PInt 7, PStr (py "old")).
Proof.
  assert (Hin : restore_input (sample_restore_args true)
                              (restore_world (fun _ => true))
                = Some sample_backup_text) by (vm_compute; reflexivity).
  assert (Hparse : Json.loads sample_backup_text = Some (tuples_value sample_store))
    by (vm_compute; reflexivity).
  assert (Hnr : sample_restore_args true !! "no_replace"%string = Some (PBool true))
    by (vm_compute; reflexivity).
  pose proof (kv_restore_writes true sample_consul _ _ _ _ _ Hin Hparse Hnr)
    as [Hsent Hkept].
  split; [exact Hin|]. split.
  - apply Hsent. intros i _. reflexivity.
  - apply Hkept; reflexivity.
Defined.

(** C5: when the transport fails on the write of a tuple, the writes of the
    tuples before it were delivered and stay applied, the failed request is
    the last one sent, the error line is written once and the handler ends
    with exit status 1. *)
Theorem kv_restore_transport_failure (PYTHON3 : bool) (consul : Consul)
    (args : namespace) (w : world) (text : pystr)
    (before : store) (r : pystr * (pyval * pyval)) (after : store)
    (no_replace : pyval) :
  restore_input args w = Some text ->
  Json.loads text = Some (tuples_value (before ++ r :: after)) ->
  args !! "no_replace"%string = Some no_replace ->
  (forall i, (i < length before)%nat ->
             w_transport w (length (w_requests w) + i) = true) ->
  w_transport w (length (w_requests w) + length before) = false ->
  fst (kv_restore PYTHON3 consul args w) = Raise (SystemExit 1)
  /\ w_kv (snd (kv_restore PYTHON3 consul args w))
     = List.fold_left apply_write
                      (List.map (restore_write PYTHON3 no_replace) before) (w_kv w)
  /\ new_requests w (snd (kv_restore PYTHON3 consul args w))
     = List.map (fun r => (restore_write PYTHON3 no_replace r, true)) before
       ++ [(restore_write PYTHON3 no_replace r, false)]
  /\ w_stderr (snd (kv_restore PYTHON3 consul args w)) = w_stderr w ++ error_line.
Proof.
  intros Hin Hparse Hnr Hok Hfail.
  rewrite (kv_restore_tuples _ _ _ _ _ _ Hin Hparse).
  rewrite List.map_app, for_each_app.
  rewrite (restore_rows_delivered _ _ _ _ _ _ Hnr Hok).
  simpl. unfold bind. rewrite (kv_restore_row_tuple _ _ _ _ _ _ Hnr).
  destruct (after_writes_streams (List.map (restore_write PYTHON3 no_replace) before) w)
    as [Herr [_ Htr]].
  rewrite Htr, after_writes_requests, length_app, length_map, length_map, Hfail.
  unfold new_requests, put_stderr, log_request.
  cbn [fst snd w_kv w_requests w_stderr].
  rewrite after_writes_kv, after_writes_requests, Herr.
  repeat split.
  rewrite <- app_assoc, drop_app_length, List.map_map. reflexivity.
Qed.

Lemma kv_restore_transport_failure_witness :
  restore_input (sample_restore_args false) (restore_world (broken_at 1))
  = Some sample_backup_text
  /\ fst (kv_restore true sample_consul (sample_restore_args false)
                     (restore_world (broken_at 1))) = Raise (SystemExit 1)
  /\ w_kv (snd (kv_restore true sample_consul (sample_restore_args false)
                           (restore_world (broken_at 1))))
     = [ (py "a", (PList [], PStr (py "1"))) ].
Proof.
  assert (Hin : restore_input (sample_restore_args false) (restore_world (broken_at 1))
                = Some sample_backup_text) by (vm_compute; reflexivity).
  assert (Hparse : Json.loads sample_backup_text
                   = Some (tuples_value ([ (py "a", (PList [], PStr (py "1"))) ]
                                         ++ (py "b/c", (PList [], PStr (py "2")))
                                         :: [ (py "web/", (PInt 0, PNone)) ])))
    by (vm_compute; reflexivity).
  assert (Hnr : sample_restore_args false !! "no_replace"%string = Some (PBool false))
    by (vm_compute; reflexivity).
  assert (Hok : forall i, (i < 1)%nat ->
                          broken_at 1 (0 + i) = true)
    by (intros [|i] Hi; [reflexivity|lia]).
  pose proof (kv_restore_transport_failure true sample_consul _
                (restore_world (broken_at 1)) _ _ _ _ _
                Hin Hparse Hnr Hok eq_refl)
    as [Hexit [Hkv _]].
  split; [exact Hin|]. split; [exact Hexit|].
  rewrite Hkv. reflexivity.
Defined.

(** ** Transport failures in the handlers *)

Lemma benign_Ok {A} (a : A) : benign (Ok a).
Proof. split; [|intros code]; discriminate. Qed.

Lemma conn_spec_local {A} (e : exn) (msg : pystr) (m : M A) :
  local m -> conn_spec e msg m.
Proof.
  intros H w. destruct (H w) as [Hreq [Herr Hben]].
  exists []. rewrite app_nil_r. split; [exact Hreq|]. left.
  split; [constructor|]. split; assumption.
Qed.

Lemma local_ret {A} (a : A) : local (ret a).
Proof. intros w. simpl. auto using benign_Ok. Qed.

Lemma local_lift {A} (r : result A) : benign r -> local (lift r).
Proof. intros H w. simpl. auto. Qed.

Lemma local_raise {A} (e : exn) : benign (@Raise A e) -> local (@raise A e).
Proof. intros H w. simpl. auto. Qed.

Lemma local_getattr (args : namespace) (name : string) : local (getattr args name).
Proof.
  unfold getattr. destruct (args !! name).
  - apply local_ret.
  - apply local_raise. split; [|intros code]; discriminate.
Qed.

Lemma local_stdout_write (s : pystr) : local (stdout_write s).
Proof. intros w. simpl. auto using benign_Ok. Qed.

Lemma local_open_w (name : pyval) : local (open_w name).
Proof.
  unfold open_w. destruct name;
    try (apply local_raise; split; [|intros code]; discriminate).
  intros w. destruct (w_writable w s); simpl;
    repeat split; try discriminate; auto.
Qed.

Lemma local_open_r (name : pyval) : local (open_r name).
Proof.
  unfold open_r. destruct name;
    try (apply local_raise; split; [|intros code]; discriminate).
  intros w. destruct (file_lookup s (w_files w)); simpl;
    repeat split; try discriminate; auto.
Qed.

Lemma local_handle_write (h : handle) (s : pystr) : local (handle_write h s).
Proof.
  unfold handle_write. destruct h.
  - apply local_raise. split; [|intros code]; discriminate.
  - apply local_stdout_write.
  - intros w. destruct (file_lookup path (w_files w)); simpl;
      repeat split; try discriminate; auto.
Qed.

Lemma local_handle_read (h : handle) : local (handle_read h).
Proof.
  unfold handle_read. destruct h.
  - intros w. simpl. auto using benign_Ok.
  - apply local_raise. split; [|intros code]; discriminate.
  - intros w. destruct (file_lookup path (w_files w)); simpl;
      repeat split; try discriminate; auto.
Qed.

Lemma conn_spec_bind {A B} (e : exn) (msg : pystr) (m : M A) (k : A -> M B) :
  conn_spec e msg m -> (forall a, conn_spec e msg (k a)) ->
  conn_spec e msg (bind m k).
Proof.
  intros Hm Hk w. unfold bind. specialize (Hm w).
  destruct (m w) as [[a|e'] w1]; simpl in Hm.
  - specialize (Hk a w1). destruct (k a w1) as [r w2]. simpl in *.
    destruct Hm as [new1 [Hreq1 [[Hd1 [Herr1 _]]|[pre [c [_ [_ [Hr _]]]]]]]];
      [|discriminate].
    destruct Hk as [new2 [Hreq2 Hcase]].
    exists (new1 ++ new2). rewrite Hreq2, Hreq1, app_assoc.
    split; [reflexivity|].
    destruct Hcase as [[Hd2 [Herr2 Hben]]|[pre [c [-> [Hd2 [-> Herr2]]]]]].
    + left. split; [apply Forall_app; auto|]. split; [congruence|exact Hben].
    + right. exists (new1 ++ pre), c. rewrite app_assoc.
      split; [reflexivity|]. split; [apply Forall_app; auto|].
      split; [reflexivity|congruence].
  - simpl. destruct Hm as [new [Hreq Hcase]]. exists new. split; [exact Hreq|].
    destruct Hcase as [[Hd [Herr [Hb1 Hb2]]]|[pre [c [-> [Hd [Hr Herr]]]]]].
    + left. split; [exact Hd|]. split; [exact Herr|]. split.
      * intros H. apply Hb1. injection H as ->. reflexivity.
      * intros code H. apply (Hb2 code). injection H as ->. reflexivity.
    + right. exists pre, c. injection Hr as ->. auto.
Qed.

(** [try: body except ConnectionError: connection_error()] turns the one
    failed request of [body] into the error line and exit status 1. *)
Lemma conn_spec_try (body : M unit) :
  conn_spec ConnectionError [] body ->
  conn_spec (SystemExit 1) error_line
            (try_except_ConnectionError body connection_error).
Proof.
  intros Hb w. unfold try_except_ConnectionError. specialize (Hb w).
  destruct (body w) as [r w1]. simpl in Hb.
  destruct Hb as [new [Hreq [[Hd [Herr Hben]]|[pre [c [-> [Hd [-> Herr]]]]]]]].
  - destruct r as [a|e0]; [|destruct e0];
      try (simpl; exists new; split; [exact Hreq|]; left; auto; fail).
    destruct Hben as [Hc _]. congruence.
  - rewrite app_nil_r in Herr.
    exists (pre ++ [(c, false)]). split; [exact Hreq|]. right.
    exists pre, c. repeat split; [exact Hd|].
    change (w_stderr w1 ++ error_line = w_stderr w ++ error_line).
    rewrite Herr. reflexivity.
Qed.

Lemma conn_spec_for_each {A} (e : exn) (msg : pystr) (l : list A) (body : A -> M unit) :
  (forall x, conn_spec e msg (body x)) -> conn_spec e msg (for_each l body).
Proof.
  intros Hb. induction l as [|x l IH]; simpl.
  - apply conn_spec_local, local_ret.
  - apply conn_spec_bind; [apply Hb|intros _; exact IH].
Qed.

(** A request either fails, and is the one failed request, or is served. *)
Lemma conn_spec_request {A} (c : call) (serve : world -> result A * world) :
  (forall w, w_requests (snd (serve w)) = w_requests w
             /\ w_stderr (snd (serve w)) = w_stderr w
             /\ benign (fst (serve w))) ->
  conn_spec ConnectionError [] (request c serve).
Proof.
  intros Hs w. unfold request.
  destruct (w_transport w (length (w_requests w))).
  - destruct (Hs (log_request c true w)) as [Hreq [Herr Hben]].
    exists [(c, true)]. split; [rewrite Hreq; reflexivity|]. left.
    split; [repeat constructor|]. split; [rewrite Herr; reflexivity|exact Hben].
  - simpl. exists [(c, false)]. split; [reflexivity|]. right.
    exists [], c. rewrite app_nil_r. repeat split. constructor.
Qed.

Lemma conn_spec_with_path {A} (key : pyval) (k : pystr -> M A) :
  (forall p, conn_spec ConnectionError [] (k p)) ->
  conn_spec ConnectionError [] (with_path key k).
Proof.
  intros Hk. unfold with_path.
  destruct key; try (apply conn_spec_local, local_raise;
                     split; [|intros code]; discriminate).
  apply Hk.
Qed.

Ltac served :=
  intros ?w; simpl;
  repeat match goal with
         | |- context [match ?x with _ => _ end] => destruct x
         end;
  simpl; repeat split; try discriminate; auto.

Lemma conn_spec_kv_records (consul : Consul) :
  conn_spec ConnectionError [] (consul_kv_records consul).
Proof. apply conn_spec_request. served. Qed.

Lemma conn_spec_kv_keys (consul : Consul) :
  conn_spec ConnectionError [] (consul_kv_keys consul).
Proof. apply conn_spec_request. served. Qed.

Lemma conn_spec_kv_getitem (consul : Consul) (key : pyval) :
  conn_spec ConnectionError [] (consul_kv_getitem consul key).
Proof. apply conn_spec_with_path. intros p. apply conn_spec_request. served. Qed.

Lemma conn_spec_kv_get (consul : Consul) (key : pyval) :
  conn_spec ConnectionError [] (consul_kv_get consul key).
Proof. apply conn_spec_with_path. intros p. apply conn_spec_request. served. Qed.

Lemma conn_spec_kv_setitem (consul : Consul) (key value : pyval) :
  conn_spec ConnectionError [] (consul_kv_setitem consul key value).
Proof. apply conn_spec_with_path. intros p. apply conn_spec_request. served. Qed.

Lemma conn_spec_kv_set (consul : Consul) (key value : pyval) :
  conn_spec ConnectionError [] (consul_kv_set consul key value).
Proof. apply conn_spec_with_path. intros p. apply conn_spec_request. served. Qed.

Lemma conn_spec_kv_set_record (consul : Consul) (key flags value : pyval) (b : bool) :
  conn_spec ConnectionError [] (consul_kv_set_record consul key flags value b).
Proof. apply conn_spec_with_path. intros p. apply conn_spec_request. served. Qed.

Lemma conn_spec_kv_delete (consul : Consul) (key : pyval) (b : bool) :
  conn_spec ConnectionError [] (consul_kv_delete consul key b).
Proof. apply conn_spec_with_path. intros p. apply conn_spec_request. served. Qed.

Lemma conn_spec_kv_delitem (consul : Consul) (key : pyval) :
  conn_spec ConnectionError [] (consul_kv_delitem consul key).
Proof. apply conn_spec_with_path. intros p. apply conn_spec_request. served. Qed.

Lemma conn_spec_register_call (consul : Consul) (a b c d e f g h : pyval) :
  conn_spec ConnectionError [] (consul_agent_service_register consul a b c d e f g h).
Proof. apply conn_spec_request. served. Qed.

(** Induction on values, through the lists and dictionaries. *)
Lemma pyval_ind (P : pyval -> Prop) :
  P PNone -> (forall b, P (PBool b)) -> (forall z, P (PInt z)) ->
  (forall lexeme, P (PFloat lexeme)) -> (forall s, P (PStr s)) ->
  (forall b, P (PBytes b)) ->
  (forall l, Forall P l -> P (PList l)) ->
  (forall d, Forall (fun kv => P (snd kv)) d -> P (PDict d)) ->
  forall v, P v.
Proof.
  intros HNone HBool HInt HFloat HStr HBytes HList HDict.
  fix IH 1. intros [| b | z | lexeme | s | b | l | d].
  - exact HNone.
  - apply HBool.
  - apply HInt.
  - apply HFloat.
  - apply HStr.
  - apply HBytes.
  - apply HList. induction l as [|x l IHl]; constructor; [apply IH|exact IHl].
  - apply HDict. induction d as [|[k x] d IHd]; constructor; [apply IH|exact IHd].
Qed.

Lemma benign_Raise {A} (e : exn) :
  e <> ConnectionError -> (forall code, e <> SystemExit code) -> benign (@Raise A e).
Proof. intros H1 H2. split; [|intros code]; congruence. Qed.

Lemma benign_match {A B} (r : result A) (f : A -> result B) :
  benign r -> (forall a, benign (f a)) ->
  benign (match r with Ok a => f a | Raise e => Raise e end).
Proof.
  intros [H1 H2] Hf. destruct r as [a|e]; [apply Hf|].
  apply benign_Raise; [|intros code]; congruence.
Qed.

Ltac benign_cases :=
  repeat match goal with
         | |- context [match ?x with _ => _ end] => destruct x
         end;
  first [apply benign_Ok | apply benign_Raise; [|intros ?code]; discriminate].

Lemma benign_dumps (PYTHON3 : bool) (v : pyval) : benign (Json.dumps PYTHON3 v).
Proof.
  induction v as [| b | z | lexeme | s | b | l IH | d IH] using pyval_ind;
    cbn [Json.dumps]; try benign_cases.
  - apply benign_match; [|intros ts; apply benign_Ok].
    induction IH as [|x l Hx _ IHl]; [apply benign_Ok|].
    apply benign_match; [exact Hx|]. intros t.
    apply benign_match; [exact IHl|]. intros ts. apply benign_Ok.
  - apply benign_match; [|intros ts; apply benign_Ok].
    induction IH as [|[k x] d Hx _ IHd]; [apply benign_Ok|].
    apply benign_match; [exact Hx|]. intros t.
    apply benign_match; [exact IHd|]. intros ts. apply benign_Ok.
Qed.

Lemma benign_iterate (PYTHON3 : bool) (v : pyval) : benign (iterate PYTHON3 v).
Proof. unfold iterate. benign_cases. Qed.

Lemma benign_getitem (PYTHON3 : bool) (v : pyval) (i : nat) :
  benign (getitem PYTHON3 v i).
Proof. unfold getitem. benign_cases. Qed.

Lemma benign_setitem (v : pyval) (i : nat) (x : pyval) : benign (setitem v i x).
Proof. unfold setitem. benign_cases. Qed.

Lemma benign_py_len (v : pyval) : benign (py_len v).
Proof. unfold py_len. benign_cases. Qed.

Lemma benign_slice_init (v : pyval) : benign (slice_init v).
Proof. unfold slice_init. benign_cases. Qed.

Lemma benign_add_str (v : pyval) (s : pystr) : benign (add_str v s).
Proof. unfold add_str. benign_cases. Qed.

Lemma benign_py_split (v : pyval) (sep : Z) : benign (py_split v sep).
Proof. unfold py_split. benign_cases. Qed.

Create HintDb conn.
#[local] Hint Resolve local_ret local_getattr local_stdout_write local_open_w
  local_open_r local_handle_write local_handle_read benign_dumps benign_iterate
  benign_getitem benign_setitem benign_py_len benign_slice_init benign_add_str
  benign_py_split conn_spec_kv_records conn_spec_kv_keys conn_spec_kv_getitem
  conn_spec_kv_get conn_spec_kv_setitem conn_spec_kv_set conn_spec_kv_set_record
  conn_spec_kv_delete conn_spec_kv_delitem conn_spec_register_call : conn.

(** Goes through a handler: sequencing, branches, loops and the [try]. *)
Ltac conn :=
  repeat first
    [ apply conn_spec_try
    | apply conn_spec_bind; [|intros ?]
    | apply conn_spec_for_each; intros ?
    | solve [auto with conn]
    | apply conn_spec_local; solve [auto with conn]
    | apply conn_spec_local, local_lift; solve [auto with conn]
    | apply conn_spec_local, local_raise; split; [|intros ?code]; discriminate
    | match goal with
      | |- conn_spec _ _ (if ?b then _ else _) => destruct b
      | |- conn_spec _ _ (match ?v with _ => _ end) => destruct v
      end ].

Lemma conn_spec_kv_backup (PYTHON3 : bool) (consul : Consul) (args : namespace) :
  conn_spec (SystemExit 1) error_line (kv_backup PYTHON3 consul args).
Proof. unfold kv_backup. conn. Qed.

Lemma conn_spec_kv_delete_handler (consul : Consul) (args : namespace) :
  conn_spec (SystemExit 1) error_line (kv_delete consul args).
Proof. unfold kv_delete. conn. Qed.

Lemma conn_spec_kv_get_handler (PYTHON3 : bool) (consul : Consul) (args : namespace) :
  conn_spec (SystemExit 1) error_line (kv_get PYTHON3 consul args).
Proof. unfold kv_get. conn. Qed.

Lemma conn_spec_kv_ls (PYTHON3 : bool) (consul : Consul) (args : namespace) :
  conn_spec (SystemExit 1) error_line (kv_ls PYTHON3 consul args).
Proof. unfold kv_ls, print. conn. Qed.

Lemma conn_spec_kv_mkdir (consul : Consul) (args : namespace) :
  conn_spec (SystemExit 1) error_line (kv_mkdir consul args).
Proof. unfold kv_mkdir. conn. Qed.

Lemma conn_spec_kv_restore (PYTHON3 : bool) (consul : Consul) (args : namespace) :
  conn_spec (SystemExit 1) error_line (kv_restore PYTHON3 consul args).
Proof. unfold kv_restore, kv_restore_row. conn. Qed.

Lemma conn_spec_kv_rm (consul : Consul) (args : namespace) :
  conn_spec (SystemExit 1) error_line (kv_rm consul args).
Proof. unfold kv_rm. conn. Qed.

Lemma conn_spec_kv_set_handler (consul : Consul) (args : namespace) :
  conn_spec (SystemExit 1) error_line (kv_set consul args).
Proof. unfold kv_set. conn. Qed.

Lemma conn_spec_register (PYTHON3 : bool) (consul : Consul) (args : namespace) :
  conn_spec (SystemExit 1) error_line (register PYTHON3 consul args).
Proof. unfold register. conn. Qed.

Lemma KV_ACTIONS_handlers (PYTHON3 : bool) (name : pystr)
    (handler : Consul -> namespace -> M unit) :
  KV_ACTIONS PYTHON3 !! name = Some handler ->
  In handler [ kv_backup PYTHON3; kv_delete; kv_get PYTHON3; kv_ls PYTHON3;
               kv_mkdir; kv_restore PYTHON3; kv_rm; kv_set ].
Proof.
  unfold KV_ACTIONS. intros H. apply elem_of_list_to_map_2 in H.
  apply list_elem_of_In in H. simpl in H.
  repeat (destruct H as [H|H]; [injection H as _ <-; simpl; tauto|]).
  contradiction.
Qed.

Lemma conn_spec_handlers (PYTHON3 : bool)
    (handler : Consul -> namespace -> M unit) :
  handler = register PYTHON3
  \/ (exists name, KV_ACTIONS PYTHON3 !! name = Some handler) ->
  forall consul args, conn_spec (SystemExit 1) error_line (handler consul args).
Proof.
  intros [->|[name H]] consul args; [apply conn_spec_register|].
  apply KV_ACTIONS_handlers in H. simpl in H.
  repeat (destruct H as [<-|H]);
    auto using conn_spec_kv_backup, conn_spec_kv_delete_handler,
      conn_spec_kv_get_handler, conn_spec_kv_ls, conn_spec_kv_mkdir,
      conn_spec_kv_restore, conn_spec_kv_rm, conn_spec_kv_set_handler.
  contradiction.
Qed.

Lemma last_failed_unique (pre pre' : list (call * bool)) (c c' : call) :
  Forall delivered pre ->
  In (c', false) (pre ++ [(c, false)]) -> c' = c.
Proof.
  intros Hd Hin. apply in_app_or in Hin as [Hin|[Hin|[]]].
  - rewrite Forall_forall in Hd. apply list_elem_of_In, Hd in Hin. discriminate.
  - congruence.
Qed.

(** C6: for [register] and every handler of [KV_ACTIONS] ([kv_get] among
    them), if a request of the run was not delivered, then the handler ends
    with exit status 1, the error stream got the one fixed line (a text with
    a single newline, at its end), and the failed request is the last one
    sent, after delivered ones only: nothing was sent again. *)
Theorem transport_failure_exits (PYTHON3 : bool)
    (handler : Consul -> namespace -> M unit)
    (consul : Consul) (args : namespace) (w : world) (c : call) :
  handler = register PYTHON3
  \/ (exists name, KV_ACTIONS PYTHON3 !! name = Some handler) ->
  In (c, false) (new_requests w (snd (handler consul args w))) ->
  KV_ACTIONS PYTHON3 !! py "get" = Some (kv_get PYTHON3)
  /\ fst (handler consul args w) = Raise (SystemExit 1)
  /\ w_stderr (snd (handler consul args w)) = w_stderr w ++ error_line
  /\ List.count_occ Z.eq_dec error_line 10 = 1%nat
  /\ List.last error_line 0 = 10
  /\ exists pre, new_requests w (snd (handler consul args w)) = pre ++ [(c, false)]
                 /\ Forall delivered pre.
Proof.
  intros Hh Hin. split; [reflexivity|].
  pose proof (conn_spec_handlers PYTHON3 handler Hh consul args w)
    as [new [Hreq Hcase]].
  unfold new_requests in *. rewrite Hreq in *. rewrite drop_app_length in *.
  destruct Hcase as [[Hd _]|[pre [c' [-> [Hd [Hr Herr]]]]]].
  - rewrite Forall_forall in Hd. apply list_elem_of_In, Hd in Hin. discriminate.
  - split; [exact Hr|]. split; [exact Herr|].
    split; [reflexivity|]. split; [reflexivity|].
    exists pre. rewrite (last_failed_unique pre pre c' c Hd Hin). auto.
Qed.

Lemma transport_failure_exits_witness :
  In (KvGet (py "foo"), false)
     (new_requests offline_world
                   (snd (kv_get true sample_consul sample_get_args offline_world)))
  /\ fst (kv_get true sample_consul sample_get_args offline_world)
     = Raise (SystemExit 1)
  /\ w_stderr (snd (kv_get true sample_consul sample_get_args offline_world))
     = error_line.
Proof.
  assert (Hin : In (KvGet (py "foo"), false)
                   (new_requests offline_world
                      (snd (kv_get true sample_consul sample_get_args offline_world))))
    by (left; reflexivity).
  assert (Hh : kv_get true = register true
               \/ (exists name, KV_ACTIONS true !! name = Some (kv_get true)))
    by (right; exists (py "get"); reflexivity).
  pose proof (transport_failure_exits true (kv_get true) sample_consul
                sample_get_args offline_world _ Hh Hin)
    as [_ [Hexit [Herr _]]].
  split; [exact Hin|]. split; [exact Hexit|exact Herr].
Defined.

(** ** [register] *)

Lemma bind_getattr {B} (args : namespace) (name : string) (v : pyval)
    (k : pyval -> M B) (w : world) :
  args !! name = Some v -> bind (getattr args name) k w = k v w.
Proof. intros H. unfold bind, getattr. rewrite H. reflexivity. Qed.

Lemma bind_ret {A B} (a : A) (k : A -> M B) (w : world) :
  bind (ret a) k w = k a w.
Proof. reflexivity. Qed.

Lemma bind_bind {A B C} (m : M A) (k : A -> M B) (k' : B -> M C) (w : world) :
  bind (bind m k) k' w = bind m (fun a => bind (k a) k') w.
Proof. unfold bind. destruct (m w) as [[a|e] w']; reflexivity. Qed.

(** The tags [register] sends: the comma-separated fields of [args.tags],
    or [None] when no tag was given. *)
Lemma register_tags {B} (args : namespace) (k : pyval -> M B) (w : world) :
  args !! "tags"%string = Some (PList [])
  \/ (exists s, args !! "tags"%string = Some (PStr s)) ->
  exists tags,
    (tags <- getattr args "tags" ;;
     tags <- (if truthy tags
              then (tags <- getattr args "tags" ;; lift (py_split tags 44))
              else ret PNone) ;;
     k tags) w = k tags w.
Proof.
  intros [H|[s H]]; rewrite (bind_getattr _ _ _ _ _ H); cbv beta.
  - exists PNone. reflexivity.
  - destruct (truthy (PStr s)).
    + rewrite bind_bind, (bind_getattr _ _ _ _ _ H). eexists. reflexivity.
    + exists PNone. reflexivity.
Qed.

(** C9: for every namespace [parse_args] can return for a [register]
    command, whatever the spelling of the command line, the handler sends
    one registration, and the sub-command decides its check: [check] sends
    the script path and the interval as decimal digits followed by [s], and
    no TTL; [ttl] sends the duration as decimal digits followed by [s], and
    no script or interval; [no-check] (or, on Python 3, no sub-command)
    sends none of the three. *)
Theorem register_check_variant (PYTHON3 : bool) (args : namespace)
    (consul : Consul) (w : world) :
  namespace_of PYTHON3 cli_parser args ->
  args !! "command"%string = Some (PStr (py "register")) ->
  exists name service_id address port tags check interval ttl,
    new_requests w (snd (register PYTHON3 consul args w))
    = [(AgentServiceRegister name service_id address port tags check interval ttl,
        w_transport w (length (w_requests w)))]
    /\ ((args !! "ctype"%string = Some (PStr (py "check"))
         /\ (exists path, args !! "path"%string = Some (PStr path)
                          /\ check = PStr path)
         /\ (exists i, args !! "interval"%string = Some (PInt i)
                       /\ interval = PStr (str_of_int i ++ py "s"))
         /\ ttl = PNone)
        \/ (args !! "ctype"%string = Some (PStr (py "ttl"))
            /\ (exists d, args !! "duration"%string = Some (PInt d)
                          /\ ttl = PStr (str_of_int d ++ py "s"))
            /\ check = PNone /\ interval = PNone)
        \/ ((args !! "ctype"%string = Some (PStr (py "no-check"))
             \/ (PYTHON3 = true /\ args !! "ctype"%string = Some PNone))
            /\ check = PNone /\ interval = PNone /\ ttl = PNone)).
Proof.
  intros Hns Hcmd.
  destruct (register_namespace _ _ Hns Hcmd)
    as (Hname & Hsid & Haddr & Hport & Htags & Hctype).
  apply text_present in Hname as [name Hname].
  apply none_or_text_present in Hsid as [sid Hsid].
  apply none_or_text_present in Haddr as [address Haddr].
  apply none_or_text_present in Hport as [port Hport].
  assert (Hsend : forall tags check interval ttl,
             new_requests w
               (snd (try_except_ConnectionError
                       (name <- getattr args "name" ;;
                        service_id <- getattr args "service_id" ;;
                        address <- getattr args "address" ;;
                        port <- getattr args "port" ;;
                        consul_agent_service_register consul name service_id address
                                                      port tags check interval ttl)
                       connection_error w))
             = [(AgentServiceRegister name sid address port tags check interval ttl,
                 w_transport w (length (w_requests w)))]).
  { intros tags check interval ttl. unfold try_except_ConnectionError.
    rewrite (bind_getattr _ _ _ _ _ Hname), (bind_getattr _ _ _ _ _ Hsid),
      (bind_getattr _ _ _ _ _ Haddr), (bind_getattr _ _ _ _ _ Hport).
    unfold consul_agent_service_register, request, new_requests.
    destruct (w_transport w (length (w_requests w))); simpl;
      rewrite drop_app_length; reflexivity. }
  assert (Echeck : eq_str (PStr (py "check")) (py "check") = true) by reflexivity.
  assert (Ettl : eq_str (PStr (py "ttl")) (py "ttl") = true) by reflexivity.
  assert (Ect : eq_str (PStr (py "check")) (py "ttl") = false) by reflexivity.
  assert (Etc : eq_str (PStr (py "ttl")) (py "check") = false) by reflexivity.
  unfold register.
  destruct Hctype as [[Hct [[i Hi] [path Hpath]]]|[[Hct [d Hd]]|Hct]].
  - rewrite (bind_getattr _ _ _ _ _ Hct). cbv beta. rewrite Echeck.
    rewrite (bind_getattr _ _ _ _ _ Hpath), (bind_getattr _ _ _ _ _ Hct).
    cbv beta. rewrite Echeck.
    rewrite bind_bind, (bind_getattr _ _ _ _ _ Hi), bind_ret,
      (bind_getattr _ _ _ _ _ Hct).
    cbv beta. rewrite Ect, bind_ret.
    destruct (register_tags args
                (fun tags => try_except_ConnectionError
                   (name <- getattr args "name" ;;
                    service_id <- getattr args "service_id" ;;
                    address <- getattr args "address" ;;
                    port <- getattr args "port" ;;
                    consul_agent_service_register consul name service_id address
                      port tags (PStr path)
                      (PStr (py_str PYTHON3 (PInt i) ++ py "s")) PNone)
                   connection_error) w Htags) as [tags ->].
    exists name, sid, address, port, tags, (PStr path),
      (PStr (str_of_int i ++ py "s")), PNone.
    split; [apply Hsend|]. left. eauto 10.
  - rewrite (bind_getattr _ _ _ _ _ Hct). cbv beta. rewrite Etc.
    rewrite bind_ret, (bind_getattr _ _ _ _ _ Hct).
    cbv beta. rewrite Etc.
    rewrite bind_ret, (bind_getattr _ _ _ _ _ Hct).
    cbv beta. rewrite Ettl.
    rewrite bind_bind, (bind_getattr _ _ _ _ _ Hd), bind_ret.
    destruct (register_tags args
                (fun tags => try_except_ConnectionError
                   (name <- getattr args "name" ;;
                    service_id <- getattr args "service_id" ;;
                    address <- getattr args "address" ;;
                    port <- getattr args "port" ;;
                    consul_agent_service_register consul name service_id address
                      port tags PNone PNone
                      (PStr (py_str PYTHON3 (PInt d) ++ py "s")))
                   connection_error) w Htags) as [tags ->].
    exists name, sid, address, port, tags, PNone, PNone,
      (PStr (str_of_int d ++ py "s")).
    split; [apply Hsend|]. right. left. eauto 10.
  - assert (Hno : exists ct, args !! "ctype"%string = Some ct
                             /\ eq_str ct (py "check") = false
                             /\ eq_str ct (py "ttl") = false).
    { destruct Hct as [Hct|[_ Hct]]; eexists; (split; [exact Hct|]);
        split; reflexivity. }
    destruct Hno as [ct [Hct' [Hc Ht]]].
    rewrite (bind_getattr _ _ _ _ _ Hct'). cbv beta.
    rewrite Hc, bind_ret, (bind_getattr _ _ _ _ _ Hct'). cbv beta.
    rewrite Hc, bind_ret, (bind_getattr _ _ _ _ _ Hct'). cbv beta.
    rewrite Ht, bind_ret.
    destruct (register_tags args
                (fun tags => try_except_ConnectionError
                   (name <- getattr args "name" ;;
                    service_id <- getattr args "service_id" ;;
                    address <- getattr args "address" ;;
                    port <- getattr args "port" ;;
                    consul_agent_service_register consul name service_id address
                      port tags PNone PNone PNone)
                   connection_error) w Htags) as [tags ->].
    exists name, sid, address, port, tags, PNone, PNone, PNone.
    split; [apply Hsend|]. right. right. auto.
Qed.

Lemma register_check_variant_witness :
  namespace_of true cli_parser sample_register_args
  /\ sample_register_args !! "command"%string = Some (PStr (py "register"))
  /\ length (new_requests sample_world
                (snd (register true sample_consul sample_register_args sample_world)))
     = 1%nat.
Proof.
  assert (Hns : namespace_of true cli_parser sample_register_args)
    by apply sample_register_args_namespace.
  assert (Hcmd : sample_register_args !! "command"%string
                 = Some (PStr (py "register"))) by (vm_compute; reflexivity).
  split; [exact Hns|]. split; [exact Hcmd|].
  destruct (register_check_variant true sample_register_args
              sample_consul sample_world Hns Hcmd)
    as (name & sid & address & port & tags & check & interval & ttl & Hreq & _).
  rewrite Hreq. reflexivity.
Defined.

(** ** [KV_ACTIONS] *)

Lemma KV_ACTIONS_covers (PYTHON3 : bool) (entry : string * string * list argument) :
  In entry KV_PARSERS ->
  is_Some (KV_ACTIONS PYTHON3 !! py (fst (kv_action_parser entry)))
  /\ py (fst (kv_action_parser entry)) <> py "del".
Proof.
  intros Hin. simpl in Hin.
  repeat (destruct Hin as [<-|Hin]); try contradiction;
    (split; [eexists; reflexivity|vm_compute; discriminate]).
Qed.

(** C10, amended: the action names of the parser are ['backup'],
    ['restore'], ['ls'], ['mkdir'], ['get'], ['set'] and ['rm'], and
    [KV_ACTIONS] has a handler for each.  For every namespace [parse_args]
    can return for a [kv] command, either the action is one of these names
    and the lookup [KV_ACTIONS[args.action]] gives its handler, or, on
    Python 3 only, no action was named: the action is [None] and the lookup
    raises [KeyError].  [KV_ACTIONS] maps ['del'] to [kv_delete], and
    ['del'] is the action of no such namespace. *)
Theorem kv_actions_cover_parser (PYTHON3 : bool) (args : namespace) (w : world) :
  namespace_of PYTHON3 cli_parser args ->
  args !! "command"%string = Some (PStr (py "kv")) ->
  List.map (fun entry => fst (kv_action_parser entry)) KV_PARSERS
  = ["backup"; "restore"; "ls"; "mkdir"; "get"; "set"; "rm"]%string
  /\ (forall entry, In entry KV_PARSERS ->
         is_Some (KV_ACTIONS PYTHON3 !! py (fst (kv_action_parser entry))))
  /\ (exists action,
         args !! "action"%string = Some action
         /\ ((exists entry handler,
                 In entry KV_PARSERS
                 /\ action = PStr (py (fst (kv_action_parser entry)))
                 /\ KV_ACTIONS PYTHON3 !! py (fst (kv_action_parser entry)) = Some handler
                 /\ KV_ACTIONS_getitem PYTHON3 action w = (Ok handler, w))
             \/ (PYTHON3 = true /\ action = PNone
                 /\ KV_ACTIONS_getitem PYTHON3 action w = (Raise KeyError, w))))
  /\ (PYTHON3 = false ->
      exists action handler,
        args !! "action"%string = Some action
        /\ KV_ACTIONS_getitem PYTHON3 action w = (Ok handler, w))
  /\ KV_ACTIONS PYTHON3 !! py "del" = Some kv_delete
  /\ args !! "action"%string <> Some (PStr (py "del")).
Proof.
  intros Hns Hcmd.
  split; [reflexivity|]. split; [intros entry Hin; apply KV_ACTIONS_covers, Hin|].
  destruct (kv_namespace _ _ Hns Hcmd) as [[entry [Hin [Ha _]]]|[H3 Ha]].
  - destruct (KV_ACTIONS_covers PYTHON3 entry Hin) as [[handler Hh] Hne].
    assert (Hget : KV_ACTIONS_getitem PYTHON3 (PStr (py (fst (kv_action_parser entry)))) w
                   = (Ok handler, w))
      by (unfold KV_ACTIONS_getitem; rewrite Hh; reflexivity).
    split; [|split; [|split; [reflexivity|]]].
    + eexists. split; [exact Ha|]. left. exists entry, handler. auto.
    + intros _. eexists. exists handler. split; [exact Ha|exact Hget].
    + rewrite Ha. intros [= E]. apply Hne. exact E.
  - split; [|split; [|split; [reflexivity|]]].
    + exists PNone. split; [exact Ha|]. right. auto.
    + intros E. rewrite E in H3. discriminate H3.
    + rewrite Ha. discriminate.
Qed.

Lemma kv_actions_cover_parser_witness :
  namespace_of true cli_parser sample_args
  /\ sample_args !! "command"%string = Some (PStr (py "kv"))
  /\ sample_args !! "action"%string <> Some (PStr (py "del"))
  /\ KV_ACTIONS_getitem true (PStr (py "get")) sample_world
     = (Ok (kv_get true), sample_world).
Proof.
  assert (Hns : namespace_of true cli_parser sample_args)
    by apply sample_args_namespace.
  assert (Hcmd : sample_args !! "command"%string = Some (PStr (py "kv")))
    by (vm_compute; reflexivity).
  destruct (kv_actions_cover_parser true sample_args sample_world Hns Hcmd)
    as (_ & _ & _ & _ & _ & Hdel).
  split; [exact Hns|]. split; [exact Hcmd|]. split; [exact Hdel|reflexivity].
Defined.

(** C10, as stated, fails on Python 3: the command line [kv] is accepted
    without an action, its namespace is a namespace of a [kv] command
    whose action is [None], and the lookup [KV_ACTIONS[None]] raises
    [KeyError]; so does [main], were the attribute [scheme] there to let
    it reach the lookup. *)
Lemma kv_without_action_fails :
  namespace_of true cli_parser kv_alone
  /\ kv_alone !! "command"%string = Some (PStr (py "kv"))
  /\ kv_alone !! "action"%string = Some PNone
  /\ KV_ACTIONS_getitem true PNone sample_world = (Raise KeyError, sample_world)
  /\ main_body true (<["scheme"%string := PStr (py "http")]> kv_alone) sample_world
     = (Raise KeyError, sample_world).
Proof.
  split; [exact kv_alone_namespace|].
  split; [vm_compute; reflexivity|]. split; [vm_compute; reflexivity|].
  split; reflexivity.
Qed.

(** ** [kv_ls] *)

(** C7, at the store [kv mkdir web] leaves behind: the folder ["web/"] has
    no value, [len] of it is a [TypeError] that [kv_ls] does not catch, and
    [kv ls --long] ends with it without printing the line of the key. *)
Theorem kv_ls_long_fails_on_folder (PYTHON3 : bool) (consul : Consul) :
  w_kv (snd (kv_mkdir consul sample_mkdir_args empty_world))
  = [ (py "web/", (PInt 0, PNone)) ]
  /\ fst (kv_ls PYTHON3 consul (sample_ls_args true)
                (snd (kv_mkdir consul sample_mkdir_args empty_world)))
     = Raise TypeError
  /\ w_stdout (snd (kv_ls PYTHON3 consul (sample_ls_args true)
                          (snd (kv_mkdir consul sample_mkdir_args empty_world))))
     = [].
Proof. repeat split. Qed.

Lemma store_lookup_In (s : store) (r : pystr * (pyval * pyval)) :
  NoDup (List.map fst s) -> In r s -> store_lookup (fst r) s = Some (snd r).
Proof.
  induction s as [|[k fv] s IH]; intros Hnd Hin; [contradiction|].
  simpl in *. apply NoDup_cons in Hnd as [Hk Hnd].
  destruct Hin as [<-|Hin]; simpl.
  - rewrite pystr_eqb_refl. reflexivity.
  - destruct (pystr_eqb k (fst r)) eqn:E.
    + apply pystr_eqb_eq in E. subst k. exfalso. apply Hk.
      apply list_elem_of_In, in_map, Hin.
    + apply IH; assumption.
Qed.

Lemma for_each_cons {A} (x : A) (l : list A) (body : A -> M unit) (w : world) :
  for_each (x :: l) body w
  = match body x w with
    | (Ok _, w') => for_each l body w'
    | (Raise e, w') => (Raise e, w')
    end.
Proof. reflexivity. Qed.

Lemma try_Ok {A} (body handler : M A) (w w' : world) (a : A) :
  body w = (Ok a, w') -> try_except_ConnectionError body handler w = (Ok a, w').
Proof. intros H. unfold try_except_ConnectionError. rewrite H. reflexivity. Qed.

(** [kv_ls] asks for the keys, then goes through them. *)
Lemma kv_ls_keys (PYTHON3 : bool) (consul : Consul) (body : pyval -> M unit)
    (w : world) :
  w_transport w (length (w_requests w)) = true ->
  (keys <- consul_kv_keys consul ;;
   keys <- lift (iterate PYTHON3 keys) ;;
   for_each keys body) w
  = for_each (List.map (fun r => PStr (fst r)) (w_kv w)) body
             (log_request KvKeys true w).
Proof.
  intros Hok. unfold bind, consul_kv_keys, request. rewrite Hok. reflexivity.
Qed.

(** One turn of the loop of [kv_ls] in the long format. *)
Lemma kv_ls_long_step (PYTHON3 : bool) (consul : Consul) (args : namespace)
    (flag : pyval) (k : pystr) (f v : pyval) (n : Z) (w : world) :
  args !! "long"%string = Some flag -> truthy flag = true ->
  w_transport w (length (w_requests w)) = true ->
  store_lookup k (w_kv w) = Some (f, v) ->
  py_len v = Ok n ->
  (long <- getattr args "long" ;;
   if truthy long then
     value <- consul_kv_getitem consul (PStr k) ;;
     n <- lift (py_len value) ;;
     print (rjust 14 (str_of_int n) ++ [32] ++ py_str PYTHON3 (PStr k))
   else print (py_str PYTHON3 (PStr k))) w
  = (Ok tt, put_stdout (ls_long_line k n) (log_request (KvGetItem k) true w)).
Proof.
  intros Hlong Ht Hok Hlook Hn.
  rewrite (bind_getattr _ _ _ _ _ Hlong). cbv beta. rewrite Ht.
  unfold bind, consul_kv_getitem, with_path, request. rewrite Hok.
  change (w_kv (log_request (KvGetItem k) true w)) with (w_kv w).
  rewrite Hlook. unfold lift. rewrite Hn. unfold print, stdout_write, ls_long_line.
  simpl py_str. rewrite <- app_assoc. reflexivity.
Qed.

(** The loop of [kv_ls] in the long format over keys whose values have a
    length, with a transport that delivers. *)
Lemma kv_ls_long_loop (PYTHON3 : bool) (consul : Consul) (args : namespace)
    (flag : pyval) (l : store) : forall w,
  args !! "long"%string = Some flag -> truthy flag = true ->
  (forall i, w_transport w i = true) ->
  (forall r, In r l -> store_lookup (fst r) (w_kv w) = Some (snd r)
                       /\ exists n, py_len (snd (snd r)) = Ok n) ->
  exists w',
    for_each (List.map (fun r => PStr (fst r)) l)
      (fun key =>
         long <- getattr args "long" ;;
         if truthy long then
           value <- consul_kv_getitem consul key ;;
           n <- lift (py_len value) ;;
           print (rjust 14 (str_of_int n) ++ [32] ++ py_str PYTHON3 key)
         else print (py_str PYTHON3 key)) w = (Ok tt, w')
    /\ w_stdout w'
       = w_stdout w
         ++ List.concat (List.map (fun r => ls_long_line (fst r)
                                              (value_length (snd (snd r)))) l).
Proof.
  induction l as [|r l IH]; intros w Hlong Ht Hok Hl.
  - exists w. simpl. rewrite app_nil_r. auto.
  - destruct (Hl r (or_introl eq_refl)) as [Hlook [n Hn]].
    destruct r as [k [f v]]. simpl in Hlook, Hn.
    destruct (IH (put_stdout (ls_long_line k n) (log_request (KvGetItem k) true w))
                 Hlong Ht) as [w' [Hrun Hout]].
    { intros i. apply Hok. }
    { intros r Hr. apply Hl. right. exact Hr. }
    exists w'. split.
    + rewrite map_cons, for_each_cons. cbv beta. simpl fst.
      rewrite (kv_ls_long_step PYTHON3 consul args flag k f v n w
                 Hlong Ht (Hok _) Hlook Hn).
      exact Hrun.
    + rewrite Hout. simpl. unfold value_length. rewrite Hn.
      rewrite <- app_assoc. reflexivity.
Qed.

(** [kv ls --long] on a store in which every value has a length, with a
    transport that delivers: one line per record, in the store's order,
    made of the length of the value right-justified in 14 columns, a space
    and the key. *)
Lemma kv_ls_long_output (PYTHON3 : bool) (consul : Consul) (args : namespace)
    (flag : pyval) (w : world) :
  args !! "long"%string = Some flag -> truthy flag = true ->
  (forall i, w_transport w i = true) ->
  NoDup (List.map fst (w_kv w)) ->
  (forall r, In r (w_kv w) -> exists n, py_len (snd (snd r)) = Ok n) ->
  fst (kv_ls PYTHON3 consul args w) = Ok tt
  /\ w_stdout (snd (kv_ls PYTHON3 consul args w))
     = w_stdout w
       ++ List.concat (List.map (fun r => ls_long_line (fst r)
                                            (value_length (snd (snd r)))) (w_kv w)).
Proof.
  intros Hlong Ht Hok Hnd Hlen.
  destruct (kv_ls_long_loop PYTHON3 consul args flag (w_kv w)
              (log_request KvKeys true w) Hlong Ht)
    as [w' [Hrun Hout]].
  - intros i. apply Hok.
  - intros r Hr. split; [apply (store_lookup_In _ _ Hnd Hr)|apply Hlen, Hr].
  - unfold kv_ls.
    erewrite try_Ok; [split; [reflexivity|exact Hout]|].
    rewrite kv_ls_keys by apply Hok. exact Hrun.
Qed.

(** [kv ls] prints one line per key, the key itself. *)
Lemma kv_ls_output (PYTHON3 : bool) (consul : Consul) (args : namespace)
    (flag : pyval) (w : world) :
  args !! "long"%string = Some flag -> truthy flag = false ->
  w_transport w (length (w_requests w)) = true ->
  fst (kv_ls PYTHON3 consul args w) = Ok tt
  /\ w_stdout (snd (kv_ls PYTHON3 consul args w))
     = w_stdout w ++ List.concat (List.map (fun r => fst r ++ [10]) (w_kv w)).
Proof.
  intros Hlong Ht Hok.
  assert (Hloop : forall (l : store) w0,
             for_each (List.map (fun r => PStr (fst r)) l)
               (fun key =>
                  long <- getattr args "long" ;;
                  if truthy long then
                    value <- consul_kv_getitem consul key ;;
                    n <- lift (py_len value) ;;
                    print (rjust 14 (str_of_int n) ++ [32] ++ py_str PYTHON3 key)
                  else print (py_str PYTHON3 key)) w0
             = (Ok tt, put_stdout (List.concat (List.map (fun r => fst r ++ [10]) l))
                                  w0)).
  { induction l as [|[k fv] l IH]; intros w0.
    - destruct w0. unfold put_stdout. simpl. rewrite app_nil_r. reflexivity.
    - rewrite map_cons, for_each_cons. cbv beta.
      rewrite (bind_getattr _ _ _ _ _ Hlong). cbv beta.
      rewrite Ht. unfold print, stdout_write. rewrite IH.
      destruct w0. unfold put_stdout. simpl. rewrite <- app_assoc. reflexivity. }
  unfold kv_ls.
  erewrite try_Ok; [split; [reflexivity|]|].
  2:{ rewrite kv_ls_keys by apply Hok. apply Hloop. }
  reflexivity.
Qed.

(** ** [json]: reading back what was written *)

(** *** Text *)

Lemma hex_val_digit (d : Z) : 0 <= d < 16 -> Json.hex_val (Json.hex_digit d) = Some d.
Proof.
  intros H. unfold Json.hex_val, Json.hex_digit.
  destruct (d <? 10) eqn:E.
  - apply Z.ltb_lt in E.
    replace ((48 <=? 48 + d) && (48 + d <=? 57)) with true
      by (symmetry; apply andb_true_intro; split; apply Z.leb_le; lia).
    f_equal. lia.
  - apply Z.ltb_ge in E.
    replace ((48 <=? 87 + d) && (87 + d <=? 57)) with false
      by (symmetry; apply andb_false_intro2; apply Z.leb_gt; lia).
    replace ((97 <=? 87 + d) && (87 + d <=? 102)) with true
      by (symmetry; apply andb_true_intro; split; apply Z.leb_le; lia).
    f_equal. lia.
Qed.

Lemma decode_hex4 (n : Z) (rest : pystr) :
  0 <= n < 65536 ->
  exists x1 x2 x3 x4,
    Json.hex4 n ++ rest = x1 :: x2 :: x3 :: x4 :: rest
    /\ Json.decode_uXXXX x1 x2 x3 x4 = Some n.
Proof.
  intros H. unfold Json.hex4. do 4 eexists. split; [reflexivity|].
  unfold Json.decode_uXXXX.
  rewrite !hex_val_digit by (apply Z.mod_pos_bound; lia).
  f_equal. Z.div_mod_to_equations. lia.
Qed.

Lemma lor_disjoint (a b k : Z) :
  0 <= k -> 0 <= b < 2 ^ k -> Z.lor (a * 2 ^ k) b = a * 2 ^ k + b.
Proof.
  intros Hk Hb.
  rewrite <- Z.lxor_lor, <- Z.add_nocarry_lxor; try reflexivity.
  all: apply Z.bits_inj'; intros i Hi; rewrite Z.land_spec, Z.bits_0.
  all: destruct (Z.ltb_spec i k) as [Hlt|Hge].
  all: try (rewrite Z.mul_pow2_bits_low by lia; reflexivity).
  all: rewrite <- (Z.mod_small b (2 ^ k)) by lia.
  all: rewrite (Z.mod_pow2_bits_high b k i) by lia; apply andb_false_r.
Qed.

Lemma scalar_range (c : Z) :
  scalar c = true -> 0 <= c < 55296 \/ 57344 <= c < 1114112.
Proof. unfold scalar. lia. Qed.

Lemma scanstring_literal (c : Z) (rest acc : pystr) :
  c <> 34 -> c <> 92 -> 32 <= c ->
  Json.scanstring (c :: rest) acc = Json.scanstring rest (c :: acc).
Proof.
  intros H1 H2 H3. cbn [Json.scanstring].
  apply Z.eqb_neq in H1, H2. rewrite H1, H2.
  replace (c <? 32) with false by (symmetry; apply Z.ltb_ge; lia).
  reflexivity.
Qed.

Lemma scanstring_u (x1 x2 x3 x4 uni : Z) (rest acc : pystr) :
  Json.decode_uXXXX x1 x2 x3 x4 = Some uni ->
  (55296 <=? uni) && (uni <=? 56319) = false ->
  Json.scanstring (92 :: 117 :: x1 :: x2 :: x3 :: x4 :: rest) acc
  = Json.scanstring rest (uni :: acc).
Proof.
  intros Hd Hs. cbn [Json.scanstring].
  change (92 =? 34) with false. change (92 =? 92) with true.
  change (117 =? 117) with true. cbv iota. rewrite Hd, Hs. reflexivity.
Qed.

Lemma scanstring_pair (x1 x2 x3 x4 y1 y2 y3 y4 hi lo : Z) (rest acc : pystr) :
  Json.decode_uXXXX x1 x2 x3 x4 = Some hi ->
  (55296 <=? hi) && (hi <=? 56319) = true ->
  Json.decode_uXXXX y1 y2 y3 y4 = Some lo ->
  (56320 <=? lo) && (lo <=? 57343) = true ->
  Json.scanstring (92 :: 117 :: x1 :: x2 :: x3 :: x4
                   :: 92 :: 117 :: y1 :: y2 :: y3 :: y4 :: rest) acc
  = Json.scanstring rest
      ((65536 + Z.lor (Z.shiftl (hi - 55296) 10) (lo - 56320)) :: acc).
Proof.
  intros Hd1 Hs1 Hd2 Hs2. cbn [Json.scanstring].
  change (92 =? 34) with false. change (92 =? 92) with true.
  change (117 =? 117) with true. cbv iota. rewrite Hd1, Hs1.
  change ((92 =? 92) && (117 =? 117)) with true. cbv iota.
  rewrite Hd2, Hs2. reflexivity.
Qed.

(** The escape of a scalar value is read back as that value. *)
Lemma scanstring_escape_char (c : Z) (rest acc : pystr) :
  scalar c = true ->
  Json.scanstring (Json.escape_char c ++ rest) acc
  = Json.scanstring rest (c :: acc).
Proof.
  intros Hc. apply scalar_range in Hc. unfold Json.escape_char.
  destruct (Z.eqb_spec c 92) as [->|H92]; [reflexivity|].
  destruct (Z.eqb_spec c 34) as [->|H34]; [reflexivity|].
  destruct (Z.eqb_spec c 8) as [->|H8]; [reflexivity|].
  destruct (Z.eqb_spec c 12) as [->|H12]; [reflexivity|].
  destruct (Z.eqb_spec c 10) as [->|H10]; [reflexivity|].
  destruct (Z.eqb_spec c 13) as [->|H13]; [reflexivity|].
  destruct (Z.eqb_spec c 9) as [->|H9]; [reflexivity|].
  destruct ((32 <=? c) && (c <=? 126)) eqn:Eprint.
  { apply scanstring_literal; lia. }
  destruct (Z.ltb_spec c 65536) as [Hlow|Hhigh].
  - unfold Json.escape_u.
    destruct (decode_hex4 c rest) as (x1 & x2 & x3 & x4 & Heq & Hd); [lia|].
    cbn [app]. rewrite Heq. apply (scanstring_u _ _ _ _ _ _ _ Hd). lia.
  - assert (Hn : 0 <= c - 65536 < 1048576) by lia.
    set (n := c - 65536) in *.
    assert (Hhi : Z.lor 55296 (Z.land (Z.shiftr n 10) 1023) = 55296 + n / 1024).
    { rewrite Z.shiftr_div_pow2 by lia. change 1023 with (Z.ones 10).
      rewrite Z.land_ones by lia. change (2 ^ 10) with 1024.
      rewrite (Z.mod_small (n / 1024)) by (Z.div_mod_to_equations; lia).
      change 55296 with (54 * 2 ^ 10). apply lor_disjoint; [lia|].
      change (2 ^ 10) with 1024. Z.div_mod_to_equations. lia. }
    assert (Hlo : Z.lor 56320 (Z.land n 1023) = 56320 + n mod 1024).
    { change 1023 with (Z.ones 10). rewrite Z.land_ones by lia.
      change 56320 with (55 * 2 ^ 10). apply lor_disjoint; [lia|].
      apply Z.mod_pos_bound. lia. }
    cbv zeta. rewrite Hhi, Hlo. unfold Json.escape_u.
    destruct (decode_hex4 (56320 + n mod 1024) rest)
      as (y1 & y2 & y3 & y4 & Heq2 & Hd2);
      [Z.div_mod_to_equations; lia|].
    destruct (decode_hex4 (55296 + n / 1024)
                          (92 :: 117 :: y1 :: y2 :: y3 :: y4 :: rest))
      as (x1 & x2 & x3 & x4 & Heq1 & Hd1);
      [Z.div_mod_to_equations; lia|].
    rewrite <- app_assoc. cbn [app]. rewrite Heq2.
    change (92 :: 117 :: Json.hex4 (55296 + n / 1024)
               ++ 92 :: 117 :: y1 :: y2 :: y3 :: y4 :: rest)
      with (92 :: 117 :: (Json.hex4 (55296 + n / 1024)
               ++ 92 :: 117 :: y1 :: y2 :: y3 :: y4 :: rest)).
    rewrite Heq1.
    rewrite (scanstring_pair _ _ _ _ _ _ _ _ _ _ _ _ Hd1 ltac:(Z.div_mod_to_equations; lia)
                             Hd2 ltac:(Z.div_mod_to_equations; lia)).
    f_equal. f_equal.
    replace (55296 + n / 1024 - 55296) with (n / 1024) by lia.
    replace (56320 + n mod 1024 - 56320) with (n mod 1024) by lia.
    rewrite Z.shiftl_mul_pow2 by lia.
    rewrite lor_disjoint by (try lia; apply Z.mod_pos_bound; lia).
    change (2 ^ 10) with 1024. unfold n.
    Z.div_mod_to_equations. lia.
Qed.

Lemma scanstring_escaped (s : pystr) : forall (rest acc : pystr),
  List.forallb scalar s = true ->
  Json.scanstring (List.concat (List.map Json.escape_char s) ++ 34 :: rest) acc
  = Some (List.rev acc ++ s, rest).
Proof.
  induction s as [|c s IH]; intros rest acc Hs; simpl in Hs.
  - simpl. rewrite app_nil_r. reflexivity.
  - apply andb_prop in Hs as [Hc Hs].
    cbn [List.map List.concat]. rewrite <- app_assoc.
    rewrite scanstring_escape_char by exact Hc.
    rewrite IH by exact Hs. cbn [List.rev]. rewrite <- app_assoc. reflexivity.
Qed.

(** *** Integers *)

Lemma uint_chars_digits (u : Decimal.uint) :
  List.forallb Json.is_digit (uint_chars u) = true.
Proof. induction u; simpl; auto. Qed.

Lemma span_digits_app (ds rest : pystr) :
  List.forallb Json.is_digit ds = true ->
  match rest with [] => True | c :: _ => Json.is_digit c = false end ->
  Json.span_digits (ds ++ rest) = (ds, rest).
Proof.
  intros Hds Hrest. induction ds as [|d ds IH]; simpl in *.
  - destruct rest as [|c rest]; [reflexivity|]. simpl. rewrite Hrest. reflexivity.
  - apply andb_prop in Hds as [Hd Hds]. rewrite Hd, (IH Hds). reflexivity.
Qed.

Lemma int_of_digits_acc (u : Decimal.uint) (acc : positive) :
  List.fold_left (fun acc c => acc * 10 + (c - 48)) (uint_chars u) (Z.pos acc)
  = Z.pos (Pos.of_uint_acc u acc).
Proof.
  revert acc; induction u; intros acc; simpl; try reflexivity;
    rewrite <- IHu; f_equal; lia.
Qed.

Lemma int_of_digits_uint (u : Decimal.uint) :
  Json.int_of_digits (uint_chars u) = Z.of_N (Pos.of_uint u).
Proof.
  unfold Json.int_of_digits.
  induction u; simpl; try reflexivity; try exact IHu;
    apply (int_of_digits_acc u).
Qed.

Lemma int_of_digits_pos (p : positive) :
  Json.int_of_digits (uint_chars (Pos.to_uint p)) = Z.pos p.
Proof. rewrite int_of_digits_uint, DecimalPos.Unsigned.of_to. reflexivity. Qed.

(** The decimal digits of a positive number do not start with a zero. *)
Lemma to_uint_head (p : positive) :
  exists c ds, uint_chars (Pos.to_uint p) = c :: ds
               /\ Json.is_digit c = true /\ c <> 48.
Proof.
  assert (Hnorm : Decimal.unorm (Pos.to_uint p) = Pos.to_uint p).
  { rewrite <- (DecimalPos.Unsigned.to_of (Pos.to_uint p)).
    rewrite DecimalPos.Unsigned.of_to. reflexivity. }
  pose proof (Unsigned.to_uint_nonnil p) as Hnil.
  pose proof (Unsigned.to_uint_nonzero p) as Hzero.
  destruct (Pos.to_uint p) as [|u|u|u|u|u|u|u|u|u|u] eqn:E;
    try (eexists _, _; split; [reflexivity|split; [reflexivity|discriminate]]).
  - contradiction.
  - exfalso. rewrite unorm_D0 in Hnorm.
    destruct u as [|u'|u'|u'|u'|u'|u'|u'|u'|u'|u'] eqn:Eu; [contradiction|..];
      (assert (Hlen : (Decimal.nb_digits (Decimal.unorm u) <= Decimal.nb_digits u)%nat)
         by (apply nb_digits_unorm; subst u; discriminate);
       subst u; rewrite Hnorm in Hlen; simpl in Hlen; lia).
Qed.

Lemma match_number_int (z : Z) (rest : pystr) :
  delimited rest ->
  Json.match_number (str_of_int z ++ rest) = Some (PInt z, rest).
Proof.
  intros Hrest.
  assert (Hnd : match rest with [] => True | c :: _ => Json.is_digit c = false end).
  { destruct rest as [|c rest]; [exact I|]. simpl in Hrest.
    destruct Hrest as [->|[->| ->]]; reflexivity. }
  assert (Hfrac : Json.match_frac rest = ([], rest)).
  { destruct rest as [|c rest]; [reflexivity|]. simpl in Hrest.
    destruct Hrest as [->|[->| ->]]; reflexivity. }
  assert (Hexp : Json.match_exp rest = ([], rest)).
  { destruct rest as [|c rest]; [reflexivity|]. simpl in Hrest.
    destruct Hrest as [->|[->| ->]]; reflexivity. }
  assert (Hpos : forall p,
             Json.match_integer (uint_chars (Pos.to_uint p) ++ rest)
             = Some (uint_chars (Pos.to_uint p), rest)).
  { intros p. destruct (to_uint_head p) as (c & ds & Heq & Hd & Hnz).
    pose proof (uint_chars_digits (Pos.to_uint p)) as Hall.
    pose proof (span_digits_app _ _ Hall Hnd) as Hspan.
    rewrite Heq in *. cbn [app] in *. unfold Json.match_integer.
    apply Z.eqb_neq in Hnz. rewrite Hnz, Hd, Hspan. reflexivity. }
  unfold str_of_int. destruct z as [|p|p]; simpl Z.to_int.
  - cbn. rewrite Hfrac, Hexp. reflexivity.
  - unfold Json.match_number.
    destruct (to_uint_head p) as (c & ds & Heq & Hd & Hnz).
    assert (Hminus : (c =? 45) = false).
    { unfold Json.is_digit in Hd. lia. }
    specialize (Hpos p). rewrite Heq in *. cbn [app] in *.
    rewrite Hminus, Hpos, Hfrac, Hexp. rewrite <- Heq, int_of_digits_pos.
    reflexivity.
  - unfold Json.match_number. cbn [app]. change (45 =? 45) with true. cbv iota.
    rewrite Hpos, Hfrac, Hexp, int_of_digits_pos. reflexivity.
Qed.

(** *** Fuel *)

Lemma scan_once_S (f : nat) (s : pystr) :
  Json.scan_once (S f) s
  = match s with
    | [] => None
    | c :: rest =>
        if c =? 34 then
          match Json.scanstring rest [] with
          | Some (t, r) => Some (PStr t, r)
          | None => None
          end
        else if c =? 123 then
          match Json.skip_ws rest with
          | c' :: r' =>
              if c' =? 125 then Some (PDict [], r')
              else if c' =? 34 then Json.scan_object f r' []
              else None
          | [] => None
          end
        else if c =? 91 then
          match Json.skip_ws rest with
          | c' :: r' =>
              if c' =? 93 then Some (PList [], r')
              else Json.scan_array f (c' :: r') []
          | [] => None
          end
        else if startswith s (py "null") then Some (PNone, drop 4 s)
        else if startswith s (py "true") then Some (PBool true, drop 4 s)
        else if startswith s (py "false") then Some (PBool false, drop 5 s)
        else
          match Json.match_number s with
          | Some r => Some r
          | None =>
              if startswith s (py "NaN") then Some (PFloat (py "NaN"), drop 3 s)
              else if startswith s (py "Infinity")
              then Some (PFloat (py "Infinity"), drop 8 s)
              else if startswith s (py "-Infinity")
              then Some (PFloat (py "-Infinity"), drop 9 s)
              else None
          end
    end.
Proof. reflexivity. Qed.

Lemma scan_array_S (f : nat) (s : pystr) (acc : list pyval) :
  Json.scan_array (S f) s acc
  = match Json.scan_once f s with
    | None => None
    | Some (v, r) =>
        match Json.skip_ws r with
        | c :: r' =>
            if c =? 93 then Some (PList (List.rev (v :: acc)), r')
            else if c =? 44 then Json.scan_array f (Json.skip_ws r') (v :: acc)
            else None
        | [] => None
        end
    end.
Proof. reflexivity. Qed.

Lemma scan_object_S (f : nat) (s : pystr) (acc : list (pystr * pyval)) :
  Json.scan_object (S f) s acc
  = match Json.scanstring s [] with
    | None => None
    | Some (key, r) =>
        match Json.skip_ws r with
        | c :: r0 =>
            if c =? 58 then
              match Json.scan_once f (Json.skip_ws r0) with
              | None => None
              | Some (v, r1) =>
                  match Json.skip_ws r1 with
                  | c1 :: r2 =>
                      if c1 =? 125
                      then Some (PDict (Json.dict_of_pairs
                                          (List.rev ((key, v) :: acc))), r2)
                      else if c1 =? 44 then
                        match Json.skip_ws r2 with
                        | c2 :: r3 =>
                            if c2 =? 34
                            then Json.scan_object f r3 ((key, v) :: acc)
                            else None
                        | [] => None
                        end
                      else None
                  | [] => None
                  end
              end
            else None
        | [] => None
        end
    end.
Proof. reflexivity. Qed.

(** More fuel does not change a result. *)
Lemma scan_more_fuel (f : nat) :
  (forall s r, Json.scan_once f s = Some r -> Json.scan_once (S f) s = Some r)
  /\ (forall s acc r, Json.scan_array f s acc = Some r ->
                      Json.scan_array (S f) s acc = Some r)
  /\ (forall s acc r, Json.scan_object f s acc = Some r ->
                      Json.scan_object (S f) s acc = Some r).
Proof.
  induction f as [|f [IHonce [IHarray IHobject]]].
  - repeat split; intros; discriminate.
  - repeat split.
    + intros s r H. rewrite (scan_once_S (S f)). rewrite (scan_once_S f) in H.
      destruct s as [|c rest]; [discriminate|].
      destruct (c =? 34); [exact H|].
      destruct (c =? 123).
      { destruct (Json.skip_ws rest) as [|c' r']; [discriminate|].
        destruct (c' =? 125); [exact H|].
        destruct (c' =? 34); [|discriminate]. apply IHobject, H. }
      destruct (c =? 91).
      { destruct (Json.skip_ws rest) as [|c' r']; [discriminate|].
        destruct (c' =? 93); [exact H|]. apply IHarray, H. }
      exact H.
    + intros s acc r H. rewrite (scan_array_S (S f)). rewrite (scan_array_S f) in H.
      destruct (Json.scan_once f s) as [[v r0]|] eqn:E; [|discriminate].
      rewrite (IHonce _ _ E).
      destruct (Json.skip_ws r0) as [|c r']; [discriminate|].
      destruct (c =? 93); [exact H|].
      destruct (c =? 44); [|discriminate]. apply IHarray, H.
    + intros s acc r H. rewrite (scan_object_S (S f)). rewrite (scan_object_S f) in H.
      destruct (Json.scanstring s []) as [[key r0]|]; [|discriminate].
      destruct (Json.skip_ws r0) as [|c r1]; [discriminate|].
      destruct (c =? 58); [|discriminate].
      destruct (Json.scan_once f (Json.skip_ws r1)) as [[v r2]|] eqn:E;
        [|discriminate].
      rewrite (IHonce _ _ E).
      destruct (Json.skip_ws r2) as [|c1 r3]; [discriminate|].
      destruct (c1 =? 125); [exact H|].
      destruct (c1 =? 44); [|discriminate].
      destruct (Json.skip_ws r3) as [|c2 r4]; [discriminate|].
      destruct (c2 =? 34); [|discriminate]. apply IHobject, H.
Qed.

Lemma scan_once_fuel_le (f f' : nat) (s : pystr) (r : pyval * pystr) :
  (f <= f')%nat -> Json.scan_once f s = Some r -> Json.scan_once f' s = Some r.
Proof.
  intros Hle H. induction Hle as [|f' Hle IH]; [exact H|].
  apply (proj1 (scan_more_fuel f')), IH.
Qed.

Lemma scan_array_fuel_le (f f' : nat) (s : pystr) (acc : list pyval)
    (r : pyval * pystr) :
  (f <= f')%nat -> Json.scan_array f s acc = Some r ->
  Json.scan_array f' s acc = Some r.
Proof.
  intros Hle H. induction Hle as [|f' Hle IH]; [exact H|].
  apply (proj1 (proj2 (scan_more_fuel f'))), IH.
Qed.

Lemma skip_ws_length (s : pystr) : (length (Json.skip_ws s) <= length s)%nat.
Proof.
  induction s as [|c s IH]; simpl; [lia|].
  destruct (Json.is_ws c); simpl; lia.
Qed.

Ltac scan_cases H :=
  repeat (match type of H with
          | (if ?b then _ else _) = _ => destruct b
          | match ?x with _ => _ end = _ => destruct x
          end; try discriminate H).

Lemma scanstring_length (n : nat) : forall s acc t r,
  (length s <= n)%nat ->
  Json.scanstring s acc = Some (t, r) -> (length r < length s)%nat.
Proof.
  induction n as [|n IH]; intros s acc t r Hlen H.
  - destruct s; [discriminate|simpl in Hlen; lia].
  - destruct s as [|c rest]; [discriminate|].
    cbn [Json.scanstring] in H. scan_cases H;
      try (injection H as _ <-; simpl; lia);
      (apply IH in H; simpl in *; lia).
Qed.

Lemma span_digits_length (s : pystr) :
  (length (snd (Json.span_digits s)) <= length s)%nat
  /\ (length (fst (Json.span_digits s)) + length (snd (Json.span_digits s))
      = length s)%nat.
Proof.
  induction s as [|c s [IH1 IH2]]; simpl; [lia|].
  destruct (Json.is_digit c); [|simpl; lia].
  destruct (Json.span_digits s) as [ds r]. simpl in *. lia.
Qed.

Lemma match_frac_length (s : pystr) :
  (length (snd (Json.match_frac s)) <= length s)%nat.
Proof.
  destruct s as [|c s]; simpl; [lia|].
  destruct (c =? 46); [|simpl; lia].
  pose proof (span_digits_length s) as [H _].
  destruct (Json.span_digits s) as [[|d ds] r]; simpl in *; lia.
Qed.

Lemma match_exp_length (s : pystr) :
  (length (snd (Json.match_exp s)) <= length s)%nat.
Proof.
  destruct s as [|c s]; simpl; [lia|].
  destruct ((c =? 101) || (c =? 69)); [|simpl; lia].
  destruct s as [|g s]; [simpl; lia|].
  destruct ((g =? 45) || (g =? 43)).
  - pose proof (span_digits_length s) as [H _].
    destruct (Json.span_digits s) as [[|d ds] r]; simpl in *; lia.
  - pose proof (span_digits_length (g :: s)) as [H _].
    destruct (Json.span_digits (g :: s)) as [[|d ds] r]; simpl in *; lia.
Qed.

Lemma match_number_length (s : pystr) (v : pyval) (r : pystr) :
  Json.match_number s = Some (v, r) -> (length r < length s)%nat.
Proof.
  unfold Json.match_number.
  set (s0 := match s with
             | c :: s' => if c =? 45 then (true, s') else (false, s)
             | [] => (false, s)
             end).
  assert (Hs0 : (length (snd s0) <= length s)%nat).
  { subst s0. destruct s as [|c s']; simpl; [lia|].
    destruct (c =? 45); simpl; lia. }
  destruct s0 as [neg s1]. simpl in Hs0.
  destruct (Json.match_integer s1) as [[ds r0]|] eqn:Ei; [|discriminate].
  assert (Hr0 : (length r0 < length s1)%nat).
  { unfold Json.match_integer in Ei. destruct s1 as [|c s']; [discriminate|].
    destruct (c =? 48); [injection Ei as _ <-; simpl; lia|].
    destruct (Json.is_digit c) eqn:Ed; [|discriminate].
    injection Ei as Ei. simpl in Ei. rewrite Ed in Ei.
    pose proof (span_digits_length s') as [H _].
    destruct (Json.span_digits s') as [ds' r']. injection Ei as _ <-.
    simpl in *. lia. }
  pose proof (match_frac_length r0) as Hf.
  destruct (Json.match_frac r0) as [frac r1]. simpl in Hf.
  pose proof (match_exp_length r1) as He.
  destruct (Json.match_exp r1) as [exp r2]. simpl in He.
  intros H. destruct frac, exp; injection H as _ <-; lia.
Qed.

(** Every scan takes at least one character. *)
Lemma scan_consumes (f : nat) :
  (forall s v r, Json.scan_once f s = Some (v, r) -> (length r < length s)%nat)
  /\ (forall s acc v r, Json.scan_array f s acc = Some (v, r) ->
                        (length r < length s)%nat)
  /\ (forall s acc v r, Json.scan_object f s acc = Some (v, r) ->
                        (length r < length s)%nat).
Proof.
  induction f as [|f [IHonce [IHarray IHobject]]].
  - repeat split; intros; discriminate.
  - repeat split.
    + intros s v r H. rewrite scan_once_S in H.
      destruct s as [|c rest]; [discriminate|].
      destruct (c =? 34).
      { destruct (Json.scanstring rest []) as [[t r0]|] eqn:E; [|discriminate].
        injection H as _ <-. apply (scanstring_length (length rest)) in E; [|lia].
        simpl. lia. }
      destruct (c =? 123).
      { pose proof (skip_ws_length rest) as Hws.
        destruct (Json.skip_ws rest) as [|c' r']; [discriminate|].
        destruct (c' =? 125); [injection H as _ <-; simpl in *; lia|].
        destruct (c' =? 34); [|discriminate].
        apply IHobject in H. simpl in *. lia. }
      destruct (c =? 91).
      { pose proof (skip_ws_length rest) as Hws.
        destruct (Json.skip_ws rest) as [|c' r']; [discriminate|].
        destruct (c' =? 93); [injection H as _ <-; simpl in *; lia|].
        apply IHarray in H. simpl in *. lia. }
      destruct (startswith (c :: rest) (py "null"));
        [injection H as _ <-; rewrite length_drop; simpl; lia|].
      destruct (startswith (c :: rest) (py "true"));
        [injection H as _ <-; rewrite length_drop; simpl; lia|].
      destruct (startswith (c :: rest) (py "false"));
        [injection H as _ <-; rewrite length_drop; simpl; lia|].
      destruct (Json.match_number (c :: rest)) as [[v0 r0]|] eqn:E.
      { injection H as _ <-. apply match_number_length in E. exact E. }
      scan_cases H; injection H as _ <-; rewrite length_drop; simpl; lia.
    + intros s acc v r H. rewrite scan_array_S in H.
      destruct (Json.scan_once f s) as [[v0 r0]|] eqn:E; [|discriminate].
      apply IHonce in E.
      pose proof (skip_ws_length r0) as Hws.
      destruct (Json.skip_ws r0) as [|c r']; [discriminate|].
      destruct (c =? 93); [injection H as _ <-; simpl in *; lia|].
      destruct (c =? 44); [|discriminate].
      apply IHarray in H. pose proof (skip_ws_length r'). simpl in *. lia.
    + intros s acc v r H. rewrite scan_object_S in H.
      destruct (Json.scanstring s []) as [[key r0]|] eqn:E; [|discriminate].
      apply (scanstring_length (length s)) in E; [|lia].
      pose proof (skip_ws_length r0) as Hws0.
      destruct (Json.skip_ws r0) as [|c r1]; [discriminate|].
      destruct (c =? 58); [|discriminate].
      destruct (Json.scan_once f (Json.skip_ws r1)) as [[v0 r2]|] eqn:E1;
        [|discriminate].
      apply IHonce in E1. pose proof (skip_ws_length r1) as Hws1.
      pose proof (skip_ws_length r2) as Hws2.
      destruct (Json.skip_ws r2) as [|c1 r3]; [discriminate|].
      destruct (c1 =? 125); [injection H as _ <-; simpl in *; lia|].
      destruct (c1 =? 44); [|discriminate].
      pose proof (skip_ws_length r3) as Hws3.
      destruct (Json.skip_ws r3) as [|c2 r4]; [discriminate|].
      destruct (c2 =? 34); [|discriminate].
      apply IHobject in H. simpl in *. lia.
Qed.

(** Beyond twice the length of the text, fuel makes no difference. *)
Lemma scan_fuel_stable (f : nat) :
  (forall s, (2 * length s + 1 <= f)%nat ->
             Json.scan_once (S f) s = Json.scan_once f s)
  /\ (forall s acc, (2 * length s + 2 <= f)%nat ->
                    Json.scan_array (S f) s acc = Json.scan_array f s acc)
  /\ (forall s acc, (2 * length s + 2 <= f)%nat ->
                    Json.scan_object (S f) s acc = Json.scan_object f s acc).
Proof.
  induction f as [|f [IHonce [IHarray IHobject]]].
  - repeat split; intros; lia.
  - repeat split.
    + intros s Hf. rewrite (scan_once_S (S f)), (scan_once_S f).
      destruct s as [|c rest]; [reflexivity|]. simpl in Hf.
      destruct (c =? 34); [reflexivity|].
      destruct (c =? 123).
      { pose proof (skip_ws_length rest) as Hws.
        destruct (Json.skip_ws rest) as [|c' r']; [reflexivity|].
        destruct (c' =? 125); [reflexivity|].
        destruct (c' =? 34); [|reflexivity].
        apply IHobject. simpl in Hws. lia. }
      destruct (c =? 91).
      { pose proof (skip_ws_length rest) as Hws.
        destruct (Json.skip_ws rest) as [|c' r']; [reflexivity|].
        destruct (c' =? 93); [reflexivity|].
        apply IHarray. simpl in *. lia. }
      reflexivity.
    + intros s acc Hf. rewrite (scan_array_S (S f)), (scan_array_S f).
      rewrite IHonce by lia.
      destruct (Json.scan_once f s) as [[v r0]|] eqn:E; [|reflexivity].
      apply (proj1 (scan_consumes f)) in E.
      pose proof (skip_ws_length r0) as Hws.
      destruct (Json.skip_ws r0) as [|c r']; [reflexivity|].
      destruct (c =? 93); [reflexivity|].
      destruct (c =? 44); [|reflexivity].
      apply IHarray. pose proof (skip_ws_length r'). simpl in *. lia.
    + intros s acc Hf. rewrite (scan_object_S (S f)), (scan_object_S f).
      destruct (Json.scanstring s []) as [[key r0]|] eqn:E; [|reflexivity].
      apply (scanstring_length (length s)) in E; [|lia].
      pose proof (skip_ws_length r0) as Hws0.
      destruct (Json.skip_ws r0) as [|c r1]; [reflexivity|].
      destruct (c =? 58); [|reflexivity].
      pose proof (skip_ws_length r1) as Hws1.
      rewrite IHonce by (simpl in *; lia).
      destruct (Json.scan_once f (Json.skip_ws r1)) as [[v r2]|] eqn:E1;
        [|reflexivity].
      apply (proj1 (scan_consumes f)) in E1.
      pose proof (skip_ws_length r2) as Hws2.
      destruct (Json.skip_ws r2) as [|c1 r3]; [reflexivity|].
      destruct (c1 =? 125); [reflexivity|].
      destruct (c1 =? 44); [|reflexivity].
      pose proof (skip_ws_length r3) as Hws3.
      destruct (Json.skip_ws r3) as [|c2 r4]; [reflexivity|].
      destruct (c2 =? 34); [|reflexivity].
      apply IHobject. simpl in *. lia.
Qed.

(** The fuel [loads] gives is enough: any larger amount gives the same
    result, so [loads] fails only on a text the scanner rejects. *)
Lemma loads_fuel_enough (s : pystr) (f : nat) :
  (2 * length s + 1 <= f)%nat ->
  Json.scan_once f (Json.skip_ws s)
  = Json.scan_once (2 * length s + 1) (Json.skip_ws s).
Proof.
  intros Hf. induction Hf as [|f Hf IH]; [reflexivity|].
  rewrite <- IH. apply (proj1 (scan_fuel_stable f)).
  pose proof (skip_ws_length s). lia.
Qed.

Lemma loads_scan (s : pystr) (f : nat) (v : pyval) (r : pystr) :
  Json.scan_once f (Json.skip_ws s) = Some (v, r) ->
  Json.skip_ws r = [] ->
  Json.loads s = Some v.
Proof.
  intros H Hr. unfold Json.loads.
  assert (H' : Json.scan_once (2 * length s + 1) (Json.skip_ws s) = Some (v, r)).
  { destruct (Nat.le_gt_cases f (2 * length s + 1)) as [Hle|Hgt].
    - apply (scan_once_fuel_le _ _ _ _ Hle H).
    - rewrite <- (loads_fuel_enough s f) by lia. exact H. }
  rewrite H', Hr. reflexivity.
Qed.

(** *** Values *)

Lemma dumps_PList (PYTHON3 : bool) (l : list pyval) :
  Json.dumps PYTHON3 (PList l)
  = match dumps_all PYTHON3 l with
    | Raise e => Raise e
    | Ok ts => Ok (91 :: join (py ", ") ts ++ [93])
    end.
Proof.
  cbn [Json.dumps].
  assert (H : forall l,
             (fix items (l : list pyval) : result (list pystr) :=
                match l with
                | [] => Ok []
                | x :: l' =>
                    match Json.dumps PYTHON3 x with
                    | Ok t => match items l' with
                              | Ok ts => Ok (t :: ts)
                              | Raise e => Raise e
                              end
                    | Raise e => Raise e
                    end
                end) l = dumps_all PYTHON3 l).
  { clear l. induction l as [|x l IH]; [reflexivity|].
    simpl. rewrite IH. reflexivity. }
  rewrite H. reflexivity.
Qed.

Lemma reads_PNone (PYTHON3 : bool) : reads PYTHON3 PNone PNone.
Proof.
  exists (py "null"). split; [reflexivity|]. split; [split; [reflexivity|discriminate]|].
  intros rest _. exists 1%nat. reflexivity.
Qed.

Lemma reads_PBool (PYTHON3 : bool) (b : bool) : reads PYTHON3 (PBool b) (PBool b).
Proof.
  destruct b.
  - exists (py "true"). split; [reflexivity|].
    split; [split; [reflexivity|discriminate]|].
    intros rest _. exists 1%nat. reflexivity.
  - exists (py "false"). split; [reflexivity|].
    split; [split; [reflexivity|discriminate]|].
    intros rest _. exists 1%nat. reflexivity.
Qed.

(** The text of an integer starts with a minus sign or a digit. *)
Lemma str_of_int_head (z : Z) :
  exists c ds, str_of_int z = c :: ds /\ (c = 45 \/ Json.is_digit c = true).
Proof.
  unfold str_of_int. destruct z as [|p|p]; simpl Z.to_int.
  - eexists _, _. split; [reflexivity|]. right. reflexivity.
  - destruct (to_uint_head p) as (c & ds & Heq & Hd & _).
    exists c, ds. auto.
  - eexists _, _. split; [reflexivity|]. left. reflexivity.
Qed.

Lemma reads_PInt (PYTHON3 : bool) (z : Z) : reads PYTHON3 (PInt z) (PInt z).
Proof.
  exists (str_of_int z). split; [reflexivity|].
  destruct (str_of_int_head z) as (c & ds & Heq & Hc).
  assert (Hrange : c = 45 \/ 48 <= c <= 57).
  { destruct Hc as [->|Hc]; [left; reflexivity|right].
    unfold Json.is_digit in Hc. lia. }
  split.
  - rewrite Heq. unfold value_head, Json.is_ws. split; [|lia].
    repeat apply orb_false_intro; apply Z.eqb_neq; lia.
  - intros rest Hrest. exists 1%nat. rewrite scan_once_S.
    pose proof (match_number_int z rest Hrest) as Hnum.
    rewrite Heq in *. cbn [app] in *.
    replace (c =? 34) with false by (symmetry; apply Z.eqb_neq; lia).
    replace (c =? 123) with false by (symmetry; apply Z.eqb_neq; lia).
    replace (c =? 91) with false by (symmetry; apply Z.eqb_neq; lia).
    change (py "null") with [110; 117; 108; 108].
    change (py "true") with [116; 114; 117; 101].
    change (py "false") with [102; 97; 108; 115; 101].
    cbn [startswith].
    replace (c =? 110) with false by (symmetry; apply Z.eqb_neq; lia).
    replace (c =? 116) with false by (symmetry; apply Z.eqb_neq; lia).
    replace (c =? 102) with false by (symmetry; apply Z.eqb_neq; lia).
    cbn [andb]. rewrite Hnum. reflexivity.
Qed.

Lemma reads_PStr (PYTHON3 : bool) (s : pystr) :
  List.forallb scalar s = true -> reads PYTHON3 (PStr s) (PStr s).
Proof.
  intros Hs. exists (Json.encode_basestring_ascii s). split; [reflexivity|].
  split; [split; [reflexivity|discriminate]|].
  intros rest _. exists 1%nat. rewrite scan_once_S.
  unfold Json.encode_basestring_ascii. cbn [app].
  change (34 =? 34) with true. cbv iota.
  rewrite <- app_assoc. cbn [app].
  rewrite scanstring_escaped by exact Hs. reflexivity.
Qed.

Lemma skip_ws_head (s : pystr) :
  match s with [] => True | c :: _ => Json.is_ws c = false end ->
  Json.skip_ws s = s.
Proof. destruct s as [|c s]; [reflexivity|]. simpl. intros ->. reflexivity. Qed.

Lemma value_head_app (t rest : pystr) :
  value_head t ->
  match t ++ rest with [] => True | c :: _ => Json.is_ws c = false end.
Proof. destruct t as [|c t]; [contradiction|]. simpl. tauto. Qed.

(** The elements of a list, written with [", "] between them, are scanned
    back one after the other up to the closing bracket. *)
Lemma reads_items (PYTHON3 : bool) (l l' : list pyval) :
  Forall2 (reads PYTHON3) l l' -> l <> [] ->
  exists ts,
    dumps_all PYTHON3 l = Ok ts
    /\ value_head (join (py ", ") ts)
    /\ forall acc rest,
         exists f, Json.scan_array f (join (py ", ") ts ++ 93 :: rest) acc
                   = Some (PList (List.rev acc ++ l'), rest).
Proof.
  intros H. induction H as [|x x' l l' Hx Hl IH]; intros Hne; [contradiction|].
  destruct Hx as (t & Hdump & Hhead & Hscan).
  destruct l as [|y l2].
  - apply Forall2_nil_inv_l in Hl. subst l'.
    exists [t]. simpl. rewrite Hdump. split; [reflexivity|]. split; [exact Hhead|].
    intros acc rest.
    destruct (Hscan (93 :: rest)) as [f1 Hf1]; [simpl; auto|].
    exists (S f1). rewrite scan_array_S, Hf1. reflexivity.
  - destruct IH as (ts2 & Hdump2 & Hhead2 & Hscan2); [discriminate|].
    assert (Hts2 : exists t2 ts2', ts2 = t2 :: ts2').
    { simpl in Hdump2. destruct (Json.dumps PYTHON3 y); [|discriminate].
      destruct (dumps_all PYTHON3 l2); [|discriminate].
      injection Hdump2 as <-. eauto. }
    destruct Hts2 as (t2 & ts2' & ->).
    exists (t :: t2 :: ts2').
    split; [|split].
    + change (dumps_all PYTHON3 (x :: y :: l2))
        with (match Json.dumps PYTHON3 x with
              | Raise e => Raise e
              | Ok t => match dumps_all PYTHON3 (y :: l2) with
                        | Raise e => Raise e
                        | Ok ts => Ok (t :: ts)
                        end
              end).
      rewrite Hdump, Hdump2. reflexivity.
    + change (join (py ", ") (t :: t2 :: ts2'))
        with (t ++ py ", " ++ join (py ", ") (t2 :: ts2')).
      destruct t; [contradiction|exact Hhead].
    + intros acc rest.
      change (join (py ", ") (t :: t2 :: ts2'))
        with (t ++ [44; 32] ++ join (py ", ") (t2 :: ts2')).
      rewrite <- !app_assoc. cbn [app].
      destruct (Hscan (44 :: 32 :: join (py ", ") (t2 :: ts2') ++ 93 :: rest))
        as [f1 Hf1]; [simpl; auto|].
      destruct (Hscan2 (x' :: acc) rest) as [f2 Hf2].
      exists (S (Nat.max f1 f2)). rewrite scan_array_S.
      rewrite (scan_once_fuel_le f1 _ _ _ (Nat.le_max_l f1 f2) Hf1).
      cbn [Json.skip_ws]. change (Json.is_ws 44) with false. cbv iota.
      change (44 =? 93) with false. change (44 =? 44) with true. cbv iota.
      cbn [Json.skip_ws]. change (Json.is_ws 32) with true. cbv iota.
      rewrite skip_ws_head by (apply value_head_app, Hhead2).
      rewrite (scan_array_fuel_le f2 _ _ _ _ (Nat.le_max_r f1 f2) Hf2).
      cbn [List.rev]. rewrite <- app_assoc. reflexivity.
Qed.

Lemma reads_PList (PYTHON3 : bool) (l l' : list pyval) :
  Forall2 (reads PYTHON3) l l' -> reads PYTHON3 (PList l) (PList l').
Proof.
  intros H. destruct l as [|x l].
  - apply Forall2_nil_inv_l in H. subst l'.
    exists (py "[]"). split; [reflexivity|].
    split; [split; [reflexivity|discriminate]|].
    intros rest _. exists 1%nat. reflexivity.
  - destruct (reads_items PYTHON3 _ _ H) as (ts & Hdump & Hhead & Hscan);
      [discriminate|].
    exists (91 :: join (py ", ") ts ++ [93]).
    split; [rewrite dumps_PList, Hdump; reflexivity|].
    split; [split; [reflexivity|discriminate]|].
    intros rest _. destruct (Hscan [] rest) as [f Hf].
    exists (S f). rewrite scan_once_S. cbn [app].
    change (91 =? 34) with false. change (91 =? 123) with false.
    change (91 =? 91) with true. cbv iota.
    rewrite <- app_assoc. cbn [app].
    rewrite skip_ws_head by (apply value_head_app, Hhead).
    destruct (join (py ", ") ts) as [|c t0] eqn:Ej; [contradiction|].
    cbn [app] in *. destruct Hhead as [_ Hc].
    apply Z.eqb_neq in Hc. rewrite Hc. exact Hf.
Qed.

Lemma Forall2_diag {A} (R : A -> A -> Prop) (l : list A) :
  Forall (fun x => R x x) l -> Forall2 R l l.
Proof. induction 1; constructor; assumption. Qed.

(** A value made of [None], booleans, integers, text of scalar values and
    lists is read back as it is. *)
Lemma reads_jsonable (PYTHON3 : bool) (v : pyval) :
  jsonable v = true -> reads PYTHON3 v v.
Proof.
  induction v as [| b | z | lexeme | s | b | l IH | d IH] using pyval_ind;
    intros Hv; try discriminate.
  - apply reads_PNone.
  - apply reads_PBool.
  - apply reads_PInt.
  - apply reads_PStr, Hv.
  - apply reads_PList, Forall2_diag.
    induction IH as [|x l Hx _ IHl]; constructor.
    + apply Hx. simpl in Hv. apply andb_prop in Hv. tauto.
    + apply IHl. simpl in Hv. apply andb_prop in Hv. tauto.
Qed.

(** *** UTF-8 *)

Ltac decide_test b :=
  match goal with
  | |- context [if ?t then _ else _] =>
      let H := fresh in
      assert (H : t = b) by (unfold utf8_cont; Z.div_mod_to_equations; lia);
      rewrite H; clear H
  end.

Lemma utf8_decode_encode_char (c : Z) (rest : list Z) :
  0 <= c < 1114112 ->
  utf8_decode (utf8_encode_char c ++ rest) = option_map (cons c) (utf8_decode rest).
Proof.
  intros Hc. unfold utf8_encode_char.
  destruct (Z.ltb_spec c 128); [|destruct (Z.ltb_spec c 2048);
                                 [|destruct (Z.ltb_spec c 65536)]];
    cbn [app utf8_decode];
    repeat (first [decide_test true | decide_test false]; cbv iota zeta);
    f_equal; f_equal; Z.div_mod_to_equations; lia.
Qed.

Lemma utf8_decode_encode (s : pystr) :
  List.forallb scalar s = true -> utf8_decode (utf8_encode s) = Some s.
Proof.
  induction s as [|c s IH]; intros Hs; [reflexivity|].
  simpl in Hs. apply andb_prop in Hs as [Hc Hs].
  unfold utf8_encode. cbn [List.map List.concat].
  rewrite utf8_decode_encode_char by (apply scalar_range in Hc; lia).
  fold (utf8_encode s). rewrite (IH Hs). reflexivity.
Qed.

(** *** Records *)

Lemma reads_carried_value (PYTHON3 : bool) (v : pyval) :
  carried_value PYTHON3 v ->
  exists v', reads PYTHON3 v v' /\ restore_value PYTHON3 v' = v.
Proof.
  unfold carried_value. destruct PYTHON3.
  - intros Hv. exists v. split; [apply reads_jsonable, Hv|reflexivity].
  - intros [[s [Hs ->]]|[Hv Hns]].
    + exists (PStr s). split; [|reflexivity].
      destruct (reads_PStr false s Hs) as (t & Hd & Hh & Hscan).
      exists t. split; [|split; assumption].
      cbn [Json.dumps] in *. rewrite (utf8_decode_encode s Hs). exact Hd.
    + exists v. split; [apply reads_jsonable, Hv|].
      destruct v; try reflexivity. exfalso. apply (Hns s). reflexivity.
Qed.

Lemma reads_records (PYTHON3 : bool) (R : store) :
  Forall (carried_record PYTHON3) R ->
  exists R', Forall2 (read_back PYTHON3) R R'
             /\ reads PYTHON3 (tuples_value R) (tuples_value R').
Proof.
  intros H.
  assert (Hrows : exists R',
             Forall2 (read_back PYTHON3) R R'
             /\ Forall2 (reads PYTHON3)
                  (List.map (fun r => PList [PStr (fst r); fst (snd r); snd (snd r)]) R)
                  (List.map (fun r => PList [PStr (fst r); fst (snd r); snd (snd r)]) R')).
  { induction H as [|[p [f v]] R [Hp [Hf Hv]] _ [R' [Hback Hreads]]].
    - exists []. split; constructor.
    - simpl in Hp, Hf, Hv.
      destruct (reads_carried_value PYTHON3 v Hv) as [v' [Hread Hrestore]].
      exists ((p, (f, v')) :: R'). split.
      + constructor; [|exact Hback]. repeat split. exact Hrestore.
      + simpl. constructor; [|exact Hreads].
        apply reads_PList. repeat constructor.
        * apply reads_PStr, Hp.
        * apply reads_jsonable, Hf.
        * exact Hread. }
  destruct Hrows as [R' [Hback Hreads]].
  exists R'. split; [exact Hback|]. apply reads_PList, Hreads.
Qed.

(** What was written by [json.dumps], with the final newline, is loaded. *)
Lemma loads_reads (PYTHON3 : bool) (v v' : pyval) (t : pystr) :
  reads PYTHON3 v v' -> Json.dumps PYTHON3 v = Ok t ->
  Json.loads (t ++ [10]) = Some v'.
Proof.
  intros (t' & Hd & Hh & Hscan) Hdump.
  assert (t' = t) by congruence. subst t'.
  destruct (Hscan [10]) as [f Hf]; [simpl; auto|].
  apply (loads_scan _ f v' [10]); [|reflexivity].
  rewrite skip_ws_head by (apply value_head_app, Hh). exact Hf.
Qed.


(** Writes of fresh keys into a store append the records. *)
Lemma store_put_fresh (k : pystr) (fv : pyval * pyval) (s : store) :
  ~ In k (List.map fst s) -> store_put k fv s = s ++ [(k, fv)]
                             /\ store_lookup k s = None.
Proof.
  induction s as [|[q fv'] s IH]; intros Hk; [split; reflexivity|].
  simpl in *. destruct (pystr_eqb q k) eqn:E.
  - apply pystr_eqb_eq in E. tauto.
  - destruct IH as [-> ->]; [tauto|]. split; reflexivity.
Qed.

Lemma apply_writes_fresh (PYTHON3 : bool) (no_replace : pyval) (R R' : store) :
  Forall2 (read_back PYTHON3) R R' -> forall s,
  NoDup (List.map fst (s ++ R)) ->
  List.fold_left apply_write (List.map (restore_write PYTHON3 no_replace) R') s
  = s ++ R.
Proof.
  induction 1 as [|[p [f v]] [p' [f' v']] R R' [Hp [Hf Hv]] _ IH]; intros s Hnd.
  - simpl. rewrite app_nil_r. reflexivity.
  - simpl in Hp, Hf, Hv. subst p' f'. simpl.
    rewrite Hv. unfold store_set_record.
    assert (Hfresh : ~ In p (List.map fst s)).
    { rewrite List.map_app in Hnd. simpl in Hnd.
      apply NoDup_app in Hnd as [_ [Hdis _]].
      intros Hin. apply list_elem_of_In in Hin. apply (Hdis p Hin). left. }
    destruct (store_put_fresh p (f, v) s Hfresh) as [-> ->].
    rewrite IH.
    + rewrite <- app_assoc. reflexivity.
    + rewrite <- app_assoc. exact Hnd.
Qed.

Lemma restore_write_read_back (PYTHON3 : bool) (no_replace : pyval) (R R' : store) :
  Forall2 (read_back PYTHON3) R R' ->
  List.map (restore_write PYTHON3 no_replace) R'
  = List.map (fun r => KvSetRecord (fst r) (fst (snd r)) (snd (snd r))
                                   (negb (truthy no_replace))) R.
Proof.
  induction 1 as [|r r' R R' [Hp [Hf Hv]] _ IH]; [reflexivity|].
  simpl. rewrite IH. unfold restore_write. rewrite Hp, Hf, Hv. reflexivity.
Qed.




(** * The arguments of the handlers

    The attributes the handlers read are those the parsers of [cli.py]
    declare for their command, each with a value of the kind its argument
    stores. *)

(** X14 ([KV_PARSERS], [add_kv_args]): in every namespace [parse_args] can
    return for a [kv] command with an action, the action is one of the
    seven names of [KV_PARSERS] and its arguments are there: [file] of
    [backup] and [restore] is [None] or text; [no_replace], [long] and
    [recurse] are booleans; [path], [key] and [value] are text. *)
Theorem kv_command_arguments (PYTHON3 : bool) (args : namespace) (name : pystr) :
  namespace_of PYTHON3 cli_parser args ->
  args !! "command"%string = Some (PStr (py "kv")) ->
  args !! "action"%string = Some (PStr name) ->
  kv_arguments name args.
Proof.
  intros Hns Hcmd Hact.
  destruct (kv_namespace _ _ Hns Hcmd) as [[entry [He [Ha Hty]]]|[_ Ha]];
    rewrite Ha in Hact; [|discriminate Hact].
  injection Hact as <-. apply kv_entry_arguments; assumption.
Qed.

Lemma kv_command_arguments_witness :
  namespace_of true cli_parser sample_set_args
  /\ kv_arguments (py "set") sample_set_args.
Proof.
  assert (Hns : namespace_of true cli_parser sample_set_args)
    by apply sample_set_args_namespace.
  split; [exact Hns|].
  apply (kv_command_arguments true sample_set_args (py "set") Hns);
    vm_compute; reflexivity.
Defined.

Lemma new_requests_app (w w' : world) (new : list (call * bool)) :
  w_requests w' = w_requests w ++ new -> new_requests w w' = new.
Proof. intros H. unfold new_requests. rewrite H. apply drop_app_length. Qed.

(** X16 ([kv_set]): in every namespace [parse_args] can return for [kv set]
    the key and the value are text, and the handler sends one
    [consul.kv[key] = value] that carries them as they are: a value made of
    digits is sent as text, not as a number. *)
Theorem kv_set_sends_text (PYTHON3 : bool) (args : namespace)
    (consul : Consul) (w : world) :
  namespace_of PYTHON3 cli_parser args ->
  args !! "command"%string = Some (PStr (py "kv")) ->
  args !! "action"%string = Some (PStr (py "set")) ->
  exists key value,
    args !! "key"%string = Some (PStr key)
    /\ args !! "value"%string = Some (PStr value)
    /\ new_requests w (snd (kv_set consul args w))
       = [(KvSetItem key (PStr value), w_transport w (length (w_requests w)))].
Proof.
  intros Hns Hcmd Hact.
  destruct (kv_namespace _ _ Hns Hcmd) as [[entry [He [Ha Hty]]]|[_ Ha]];
    rewrite Ha in Hact; [|discriminate Hact].
  injection Hact as Hname.
  destruct (kv_entry_arguments _ _ He Hty)
    as [[E _]|[[E _]|[[E _]|[[E _]|[[E _]|[[_ [[key Hk] [value Hv]]]|[E _]]]]]]];
    try (rewrite Hname in E; vm_compute in E; discriminate E).
  exists key, value. split; [exact Hk|]. split; [exact Hv|].
  apply new_requests_app. unfold kv_set, try_except_ConnectionError.
  rewrite (bind_getattr _ _ _ _ _ Hv), (bind_getattr _ _ _ _ _ Hk).
  unfold consul_kv_setitem, with_path, request.
  destruct (w_transport w (length (w_requests w))); reflexivity.
Qed.

Lemma kv_set_sends_text_witness :
  namespace_of true cli_parser sample_set_args
  /\ new_requests sample_world (snd (kv_set sample_consul sample_set_args sample_world))
     = [(KvSetItem (py "retries") (PStr (py "3")), true)].
Proof.
  assert (Hns : namespace_of true cli_parser sample_set_args)
    by apply sample_set_args_namespace.
  split; [exact Hns|].
  destruct (kv_set_sends_text true sample_set_args sample_consul
              sample_world Hns) as (key & value & Hk & Hv & Hreq);
    [vm_compute; reflexivity|vm_compute; reflexivity|].
  rewrite Hreq. vm_compute in Hk, Hv. injection Hk as <-. injection Hv as <-.
  reflexivity.
Defined.

(** ** [register]: the registration sent *)

Lemma bind_lift_Ok {A B} (a : A) (k : A -> M B) (w : world) :
  bind (lift (Ok a)) k w = k a w.
Proof. reflexivity. Qed.

(** [register] with its attributes read: one call of the client in the
    [try]. *)
Lemma register_run (PYTHON3 : bool) (consul : Consul) (args : namespace) (w : world)
    (ct name sid address port tags : pyval) :
  args !! "ctype"%string = Some ct ->
  args !! "name"%string = Some name ->
  args !! "service_id"%string = Some sid ->
  args !! "address"%string = Some address ->
  args !! "port"%string = Some port ->
  args !! "tags"%string = Some tags ->
  tags = PList [] \/ (exists s, tags = PStr s) ->
  (eq_str ct (py "check") = true ->
   is_Some (args !! "path"%string) /\ is_Some (args !! "interval"%string)) ->
  (eq_str ct (py "ttl") = true -> is_Some (args !! "duration"%string)) ->
  exists check interval ttl,
    register PYTHON3 consul args w
    = try_except_ConnectionError
        (consul_agent_service_register consul name sid address port
                                       (tags_sent tags) check interval ttl)
        connection_error w.
Proof.
  intros Hct Hname Hsid Haddr Hport Htags Hform Hcheck Httl.
  assert (Hsend : forall tags' check interval ttl,
             try_except_ConnectionError
               (name <- getattr args "name" ;;
                service_id <- getattr args "service_id" ;;
                address <- getattr args "address" ;;
                port <- getattr args "port" ;;
                consul_agent_service_register consul name service_id address
                                              port tags' check interval ttl)
               connection_error w
             = try_except_ConnectionError
                 (consul_agent_service_register consul name sid address port
                                                tags' check interval ttl)
                 connection_error w).
  { intros tags' check interval ttl. unfold try_except_ConnectionError.
    rewrite (bind_getattr _ _ _ _ _ Hname), (bind_getattr _ _ _ _ _ Hsid),
      (bind_getattr _ _ _ _ _ Haddr), (bind_getattr _ _ _ _ _ Hport).
    reflexivity. }
  assert (Htail : forall check interval ttl,
             (tags <- getattr args "tags" ;;
              tags <- (if truthy tags
                       then (tags <- getattr args "tags" ;; lift (py_split tags 44))
                       else ret PNone) ;;
              try_except_ConnectionError
                (name <- getattr args "name" ;;
                 service_id <- getattr args "service_id" ;;
                 address <- getattr args "address" ;;
                 port <- getattr args "port" ;;
                 consul_agent_service_register consul name service_id address
                                               port tags check interval ttl)
                connection_error) w
             = try_except_ConnectionError
                 (consul_agent_service_register consul name sid address port
                                                (tags_sent tags) check interval ttl)
                 connection_error w).
  { intros check interval ttl.
    rewrite (bind_getattr _ _ _ _ _ Htags). cbv beta.
    destruct Hform as [->|[[|c s] ->]].
    - cbn [truthy]. rewrite bind_ret. apply Hsend.
    - cbn [truthy pystr_eqb negb]. rewrite bind_ret. apply Hsend.
    - change (truthy (PStr (c :: s))) with true. cbv iota.
      rewrite bind_bind, (bind_getattr _ _ _ _ _ Htags). cbv beta.
      cbn [py_split]. rewrite bind_lift_Ok. apply Hsend. }
  unfold register.
  rewrite (bind_getattr _ _ _ _ _ Hct). cbv beta.
  destruct (eq_str ct (py "check")) eqn:Ec.
  - destruct (Hcheck eq_refl) as [[path Hpath] [i Hi]].
    rewrite (bind_getattr _ _ _ _ _ Hpath), (bind_getattr _ _ _ _ _ Hct).
    cbv beta. rewrite Ec.
    rewrite bind_bind, (bind_getattr _ _ _ _ _ Hi), bind_ret,
      (bind_getattr _ _ _ _ _ Hct).
    cbv beta.
    destruct (eq_str ct (py "ttl")) eqn:Et.
    + destruct (Httl eq_refl) as [d Hd].
      rewrite bind_bind, (bind_getattr _ _ _ _ _ Hd), bind_ret.
      do 3 eexists. apply Htail.
    + rewrite bind_ret. do 3 eexists. apply Htail.
  - rewrite bind_ret, (bind_getattr _ _ _ _ _ Hct). cbv beta. rewrite Ec.
    rewrite bind_ret, (bind_getattr _ _ _ _ _ Hct). cbv beta.
    destruct (eq_str ct (py "ttl")) eqn:Et.
    + destruct (Httl eq_refl) as [d Hd].
      rewrite bind_bind, (bind_getattr _ _ _ _ _ Hd), bind_ret.
      do 3 eexists. apply Htail.
    + rewrite bind_ret. do 3 eexists. apply Htail.
Qed.

(** [split] and [join]: the fields of a text have no separator in them, there
    is at least one, and joined they give the text back. *)
Lemma split_on_fields (sep : Z) (s : pystr) :
  join [sep] (split_on sep s) = s
  /\ Forall (fun field => ~ In sep field) (split_on sep s)
  /\ split_on sep s <> [].
Proof.
  induction s as [|c s [IHj [IHf IHn]]]; simpl.
  - repeat split; [repeat constructor; intros []|discriminate].
  - destruct (c =? sep) eqn:E.
    + apply Z.eqb_eq in E. subst c.
      destruct (split_on sep s) as [|f fs] eqn:Es; [contradiction|].
      split; [|split; [|discriminate]].
      * simpl. simpl in IHj. rewrite IHj. reflexivity.
      * constructor; [intros []|exact IHf].
    + apply Z.eqb_neq in E.
      destruct (split_on sep s) as [|f fs] eqn:Es; [contradiction|].
      apply List.Forall_cons_iff in IHf as [Hf Hfs].
      split; [|split; [|discriminate]].
      * destruct fs as [|g fs]; simpl in *; rewrite <- IHj; reflexivity.
      * constructor; [|exact Hfs]. intros [H|H]; [congruence|exact (Hf H)].
Qed.

(** The request of the registration, delivered or not. *)
Lemma register_call_requests consul name sid address port tags check interval ttl w :
  new_requests w
    (snd (try_except_ConnectionError
            (consul_agent_service_register consul name sid address port
                                           tags check interval ttl)
            connection_error w))
  = [(AgentServiceRegister name sid address port tags check interval ttl,
      w_transport w (length (w_requests w)))].
Proof.
  apply new_requests_app.
  unfold try_except_ConnectionError, consul_agent_service_register, request.
  destruct (w_transport w (length (w_requests w))); reflexivity.
Qed.

(** X17 ([register]): in every namespace [parse_args] can return for a
    [register] command the name is text, the service id, the address and
    the port are [None] or text, and the handler sends them as they are
    (the port is not converted to a number); the tags it sends are [None]
    when [args.tags] is the default [[]] or the empty text, else the fields
    of the text between the commas (at least one field, none with a
    comma, which joined with commas give the text back). *)
Theorem register_service_fields (PYTHON3 : bool)
    (args : namespace) (consul : Consul) (w : world) :
  namespace_of PYTHON3 cli_parser args ->
  args !! "command"%string = Some (PStr (py "register")) ->
  exists name service_id address port tags check interval ttl,
    new_requests w (snd (register PYTHON3 consul args w))
    = [(AgentServiceRegister (PStr name) service_id address port tags check interval ttl,
        w_transport w (length (w_requests w)))]
    /\ args !! "name"%string = Some (PStr name)
    /\ args !! "service_id"%string = Some service_id
    /\ args !! "address"%string = Some address
    /\ args !! "port"%string = Some port
    /\ none_or_text args "service_id" /\ none_or_text args "address"
    /\ none_or_text args "port"
    /\ ((tags = PNone
         /\ (args !! "tags"%string = Some (PList [])
             \/ args !! "tags"%string = Some (PStr [])))
        \/ (exists s fields,
              s <> [] /\ args !! "tags"%string = Some (PStr s)
              /\ tags = PList (List.map PStr fields)
              /\ join (py ",") fields = s
              /\ Forall (fun field => ~ In 44 field) fields)).
Proof.
  intros Hns Hcmd.
  destruct (register_namespace _ _ Hns Hcmd)
    as ([name Hname] & Hsid & Haddr & Hport & Htags & Hctype).
  assert (Hcheck : exists ct, args !! "ctype"%string = Some ct
            /\ (eq_str ct (py "check") = true ->
                is_Some (args !! "path"%string) /\ is_Some (args !! "interval"%string))
            /\ (eq_str ct (py "ttl") = true -> is_Some (args !! "duration"%string))).
  { destruct Hctype as [[Hct [[i Hi] [path Hpath]]]|[[Hct [d Hd]]|[Hct|[_ Hct]]]];
      eexists; (split; [exact Hct|]); split; intros E; try discriminate E; eauto. }
  destruct Hcheck as (ct & Hct & Hcheck & Httl).
  destruct (none_or_text_present _ _ Hsid) as [sid Hsid'].
  destruct (none_or_text_present _ _ Haddr) as [address Haddr'].
  destruct (none_or_text_present _ _ Hport) as [port Hport'].
  assert (Htags' : exists tags, args !! "tags"%string = Some tags
                                /\ (tags = PList [] \/ exists s, tags = PStr s)).
  { destruct Htags as [Ht|[s Ht]]; eexists; (split; [exact Ht|]); eauto. }
  destruct Htags' as [tags [Htags' Hform]].
  destruct (register_run PYTHON3 consul args w ct (PStr name) sid address port tags
              Hct Hname Hsid' Haddr' Hport' Htags' Hform Hcheck Httl)
    as [check [interval [ttl Hrun]]].
  exists name, sid, address, port, (tags_sent tags), check, interval, ttl.
  rewrite Hrun. split; [apply register_call_requests|].
  repeat (split; [assumption|]).
  destruct Hform as [->|[[|c s] ->]].
  - left. auto.
  - left. auto.
  - right. exists (c :: s), (split_on 44 (c :: s)).
    destruct (split_on_fields 44 (c :: s)) as [Hj [Hf _]].
    split; [discriminate|]. split; [exact Htags'|]. split; [reflexivity|].
    split; [exact Hj|exact Hf].
Qed.

Lemma register_service_fields_witness :
  namespace_of true cli_parser sample_tagged_args
  /\ new_requests sample_world
       (snd (register true sample_consul sample_tagged_args sample_world))
     = [(AgentServiceRegister (PStr (py "web")) PNone PNone (PStr (py "80"))
           (PList [PStr (py "primary"); PStr (py "v2")]) PNone PNone
           (PStr (py "30s")), true)]
  /\ none_or_text sample_tagged_args "port".
Proof.
  assert (Hns : namespace_of true cli_parser sample_tagged_args)
    by apply sample_tagged_args_namespace.
  split; [exact Hns|]. split; [vm_compute; reflexivity|].
  destruct (register_service_fields true sample_tagged_args
              sample_consul sample_world Hns)
    as (name & sid & address & port & tags & check & interval & ttl & _ & _ & _ & _
        & _ & _ & _ & Hport & _);
    [vm_compute; reflexivity|exact Hport].
Defined.

(** * The handlers, case by case *)

(** The keys of a sample store are pairwise different. *)
Ltac distinct_keys :=
  repeat constructor; rewrite ?elem_of_cons, ?elem_of_nil;
  intros H; repeat destruct H as [H|H]; try discriminate H; exact H.

(** ** [kv_backup] to a file *)

(** Reading a file after a write. *)
Lemma file_lookup_put (p q c : pystr) (fs : list (pystr * pystr)) :
  file_lookup q (file_put p c fs)
  = if pystr_eqb p q then Some c else file_lookup q fs.
Proof.
  induction fs as [|[r c'] fs IH]; simpl.
  - destruct (pystr_eqb p q); reflexivity.
  - destruct (pystr_eqb r p) eqn:E; simpl.
    + apply pystr_eqb_eq in E. subst r. destruct (pystr_eqb p q); reflexivity.
    + destruct (pystr_eqb r q) eqn:E'.
      * apply pystr_eqb_eq in E'. subst r.
        destruct (pystr_eqb p q) eqn:E''; [|reflexivity].
        apply pystr_eqb_eq in E''. subst q. rewrite pystr_eqb_refl in E. discriminate.
      * exact IH.
Qed.

Lemma truthy_text (p : pystr) : p <> [] -> truthy (PStr p) = true.
Proof. destruct p; [congruence|reflexivity]. Qed.

(** [kv_backup] with a file name, up to the call of the client: the file is
    opened, hence emptied, before anything is sent. *)
Lemma kv_backup_file (PYTHON3 : bool) (consul : Consul) (args : namespace)
    (p : pystr) (w : world) :
  args !! "file"%string = Some (PStr p) -> p <> [] -> w_writable w p = true ->
  kv_backup PYTHON3 consul args w
  = try_except_ConnectionError
      (records <- consul_kv_records consul ;;
       text <- lift (Json.dumps PYTHON3 records) ;;
       handle_write (File p) (text ++ [10]))
      connection_error
      (set_files (file_put p [] (w_files w)) w).
Proof.
  intros Hfile Hp Hw. unfold kv_backup.
  rewrite (bind_getattr _ _ _ _ _ Hfile). cbv beta.
  rewrite (truthy_text _ Hp).
  rewrite bind_bind, (bind_getattr _ _ _ _ _ Hfile). cbv beta.
  unfold bind at 1. unfold open_w. rewrite Hw. reflexivity.
Qed.

(** [kv_backup] with the name of a file that cannot be opened for writing:
    [open] raises before the [try], nothing is sent or changed. *)
Lemma kv_backup_unwritable (PYTHON3 : bool) (consul : Consul) (args : namespace)
    (p : pystr) (w : world) :
  args !! "file"%string = Some (PStr p) -> p <> [] -> w_writable w p = false ->
  kv_backup PYTHON3 consul args w = (Raise IOError, w).
Proof.
  intros Hfile Hp Hw. unfold kv_backup.
  rewrite (bind_getattr _ _ _ _ _ Hfile). cbv beta.
  rewrite (truthy_text _ Hp).
  rewrite bind_bind, (bind_getattr _ _ _ _ _ Hfile). cbv beta.
  unfold bind at 1. unfold open_w. rewrite Hw. reflexivity.
Qed.

(** The run of [kv_backup] with the name of a file that can be opened, when
    the request is delivered and the records can be written as JSON. *)
Lemma kv_backup_file_run (PYTHON3 : bool) (consul : Consul) (args : namespace)
    (p t : pystr) (w : world) :
  args !! "file"%string = Some (PStr p) -> p <> [] -> w_writable w p = true ->
  w_transport w (length (w_requests w)) = true ->
  Json.dumps PYTHON3 (tuples_value (w_kv w)) = Ok t ->
  kv_backup PYTHON3 consul args w
  = (Ok tt,
     set_files (file_put p (t ++ [10]) (file_put p [] (w_files w)))
               (log_request KvRecords true (set_files (file_put p [] (w_files w)) w))).
Proof.
  intros Hfile Hp Hw Hok Hdump.
  rewrite (kv_backup_file _ _ _ _ _ Hfile Hp Hw).
  apply try_Ok.
  unfold bind, consul_kv_records, request.
  change (w_transport (set_files _ w)) with (w_transport w).
  change (w_requests (set_files _ w)) with (w_requests w).
  rewrite Hok. cbv beta iota.
  change (w_kv (log_request KvRecords true (set_files _ w))) with (w_kv w).
  fold (tuples_value (w_kv w)). unfold lift. rewrite Hdump.
  unfold handle_write.
  change (w_files (log_request KvRecords true (set_files ?fs w))) with fs.
  rewrite file_lookup_put, pystr_eqb_refl. reflexivity.
Qed.

(** X1 ([kv_backup]): a backup to a file, named by a text that is not empty
    and that can be opened for writing, whose request is delivered and
    whose records can be written as JSON, ends normally; the file then
    holds the JSON text followed by a newline, whatever it held before, and
    the other files, the standard output and the store are as they were. *)
Theorem kv_backup_writes_file (PYTHON3 : bool) (consul : Consul) (args : namespace)
    (p t : pystr) (w : world) :
  args !! "file"%string = Some (PStr p) -> p <> [] -> w_writable w p = true ->
  w_transport w (length (w_requests w)) = true ->
  Json.dumps PYTHON3 (tuples_value (w_kv w)) = Ok t ->
  fst (kv_backup PYTHON3 consul args w) = Ok tt
  /\ file_lookup p (w_files (snd (kv_backup PYTHON3 consul args w))) = Some (t ++ [10])
  /\ (forall q, q <> p ->
        file_lookup q (w_files (snd (kv_backup PYTHON3 consul args w)))
        = file_lookup q (w_files w))
  /\ w_stdout (snd (kv_backup PYTHON3 consul args w)) = w_stdout w
  /\ w_kv (snd (kv_backup PYTHON3 consul args w)) = w_kv w.
Proof.
  intros Hfile Hp Hw Hok Hdump.
  rewrite (kv_backup_file_run _ _ _ _ _ _ Hfile Hp Hw Hok Hdump).
  cbn [fst snd]. split; [reflexivity|].
  change (w_files (set_files ?fs _)) with fs.
  split; [|split; [|split; reflexivity]].
  - rewrite file_lookup_put, pystr_eqb_refl. reflexivity.
  - intros q Hq. rewrite !file_lookup_put.
    replace (pystr_eqb p q) with false; [reflexivity|].
    symmetry. apply pystr_eqb_neq. congruence.
Qed.

Lemma kv_backup_writes_file_witness :
  fst (kv_backup true sample_consul backup_file_args (backup_file_world (fun _ => true)))
  = Ok tt
  /\ file_lookup (py "kv.json")
       (w_files (snd (kv_backup true sample_consul backup_file_args
                                (backup_file_world (fun _ => true)))))
     = Some sample_backup_text.
Proof.
  assert (Hd : Json.dumps true (tuples_value (w_kv (backup_file_world (fun _ => true))))
               = Ok (removelast sample_backup_text)) by (vm_compute; reflexivity).
  destruct (kv_backup_writes_file true sample_consul backup_file_args (py "kv.json")
              (removelast sample_backup_text) (backup_file_world (fun _ => true)))
    as [Hr [Hf _]].
  - reflexivity.
  - discriminate.
  - reflexivity.
  - reflexivity.
  - exact Hd.
  - split; [exact Hr|]. rewrite Hf. vm_compute. reflexivity.
Defined.

(** X2 ([kv_backup]): the file is opened for writing before the store is
    asked and outside the [try].  If it cannot be opened, the handler ends
    with the [IOError] of [open] and the world is as it was: nothing is
    sent and the file keeps its content.  If it can, a backup that does
    not end normally (the transport fails, a value cannot be written as
    JSON) leaves that file empty, whatever it held before. *)
Theorem kv_backup_failure_empties_file (PYTHON3 : bool) (consul : Consul)
    (args : namespace) (p : pystr) (w : world) :
  args !! "file"%string = Some (PStr p) -> p <> [] ->
  fst (kv_backup PYTHON3 consul args w) <> Ok tt ->
  (w_writable w p = true
   /\ file_lookup p (w_files (snd (kv_backup PYTHON3 consul args w))) = Some [])
  \/ (w_writable w p = false
      /\ kv_backup PYTHON3 consul args w = (Raise IOError, w)).
Proof.
  intros Hfile Hp. destruct (w_writable w p) eqn:Hw;
    [|intros _; right; split; [reflexivity|];
      apply (kv_backup_unwritable _ _ _ _ _ Hfile Hp Hw)].
  intros Hfail. left. split; [reflexivity|]. revert Hfail.
  rewrite (kv_backup_file _ _ _ _ _ Hfile Hp Hw).
  unfold try_except_ConnectionError, bind, consul_kv_records, request.
  change (w_transport (set_files _ w)) with (w_transport w).
  change (w_requests (set_files _ w)) with (w_requests w).
  destruct (w_transport w (length (w_requests w))).
  - cbv beta iota. unfold lift.
    destruct (Json.dumps PYTHON3 _) as [t|e].
    + unfold handle_write.
      change (w_files (log_request KvRecords true (set_files ?fs w))) with fs.
      rewrite file_lookup_put, pystr_eqb_refl. cbn [fst]. congruence.
    + intros _. destruct e; cbn [snd];
        try (unfold connection_error, bind, stderr_write, sys_exit, raise; cbn [snd]);
        change (w_files (put_stderr _ ?w0)) with (w_files w0);
        change (w_files (log_request KvRecords true (set_files ?fs w))) with fs;
        rewrite file_lookup_put, pystr_eqb_refl; reflexivity.
  - intros _. unfold connection_error, bind, stderr_write, sys_exit, raise. cbn [snd].
    change (w_files (put_stderr _ ?w0)) with (w_files w0).
    change (w_files (log_request KvRecords false (set_files ?fs w))) with fs.
    rewrite file_lookup_put, pystr_eqb_refl. reflexivity.
Qed.

Lemma kv_backup_failure_empties_file_witness :
  file_lookup (py "kv.json") (w_files (backup_file_world (fun _ => false)))
  = Some (py "[]" ++ [10])
  /\ file_lookup (py "kv.json")
       (w_files (snd (kv_backup true sample_consul backup_file_args
                                (backup_file_world (fun _ => false)))))
     = Some [].
Proof.
  split; [reflexivity|].
  destruct (kv_backup_failure_empties_file true sample_consul backup_file_args
              (py "kv.json") (backup_file_world (fun _ => false)))
    as [[_ H]|[H _]].
  - reflexivity.
  - discriminate.
  - vm_compute. discriminate.
  - exact H.
  - discriminate H.
Defined.

(** ** [kv_ls], both formats *)


(** The loop of [kv_ls] in the short format. *)
Lemma kv_ls_short_loop (PYTHON3 : bool) (consul : Consul) (args : namespace)
    (flag : pyval) (l : store) : forall w,
  args !! "long"%string = Some flag -> truthy flag = false ->
  for_each (List.map (fun r => PStr (fst r)) l)
    (fun key =>
       long <- getattr args "long" ;;
       if truthy long then
         value <- consul_kv_getitem consul key ;;
         n <- lift (py_len value) ;;
         print (rjust 14 (str_of_int n) ++ [32] ++ py_str PYTHON3 key)
       else print (py_str PYTHON3 key)) w
  = (Ok tt, put_stdout (List.concat (List.map (fun r => fst r ++ [10]) l)) w).
Proof.
  induction l as [|[k fv] l IH]; intros w Hlong Ht.
  - destruct w. unfold put_stdout. simpl. rewrite app_nil_r. reflexivity.
  - rewrite map_cons, for_each_cons. cbv beta.
    rewrite (bind_getattr _ _ _ _ _ Hlong). cbv beta.
    rewrite Ht. unfold print, stdout_write. rewrite (IH _ Hlong Ht).
    destruct w. unfold put_stdout. simpl. rewrite <- app_assoc. reflexivity.
Qed.

(** X7 ([kv_ls]): without [--long], and with the request for the keys
    delivered, the listing ends normally on every store (folders
    included): one line per key, the key itself, in the store's order; the
    request for the keys is the only one sent. *)
Theorem kv_ls_short_lists_every_key (PYTHON3 : bool) (consul : Consul)
    (args : namespace) (flag : pyval) (w : world) :
  args !! "long"%string = Some flag -> truthy flag = false ->
  w_transport w (length (w_requests w)) = true ->
  fst (kv_ls PYTHON3 consul args w) = Ok tt
  /\ w_stdout (snd (kv_ls PYTHON3 consul args w))
     = w_stdout w ++ List.concat (List.map (fun r => fst r ++ [10]) (w_kv w))
  /\ new_requests w (snd (kv_ls PYTHON3 consul args w)) = [(KvKeys, true)].
Proof.
  intros Hlong Ht Hok. unfold kv_ls.
  erewrite try_Ok.
  2:{ rewrite kv_ls_keys by exact Hok. apply (kv_ls_short_loop _ _ _ _ _ _ Hlong Ht). }
  cbn [fst snd]. split; [reflexivity|]. split; [reflexivity|].
  apply new_requests_app. reflexivity.
Qed.

Lemma kv_ls_short_lists_every_key_witness :
  w_stdout (snd (kv_ls true sample_consul (sample_ls_args false) sample_world))
  = py "a" ++ [10] ++ py "b/c" ++ [10] ++ py "web/" ++ [10].
Proof.
  destruct (kv_ls_short_lists_every_key true sample_consul (sample_ls_args false)
              (PBool false) sample_world) as [_ [Hout _]];
    [reflexivity|reflexivity|reflexivity|].
  rewrite Hout. reflexivity.
Defined.

(** The loop of [kv_ls] in the long format over records whose values have a
    length: the lines printed and the requests sent. *)
Lemma kv_ls_long_run (PYTHON3 : bool) (consul : Consul) (args : namespace)
    (flag : pyval) (l : store) : forall w,
  args !! "long"%string = Some flag -> truthy flag = true ->
  (forall i, w_transport w i = true) ->
  (forall r, In r l -> store_lookup (fst r) (w_kv w) = Some (snd r)
                       /\ exists n, py_len (snd (snd r)) = Ok n) ->
  exists w',
    for_each (List.map (fun r => PStr (fst r)) l)
      (fun key =>
         long <- getattr args "long" ;;
         if truthy long then
           value <- consul_kv_getitem consul key ;;
           n <- lift (py_len value) ;;
           print (rjust 14 (str_of_int n) ++ [32] ++ py_str PYTHON3 key)
         else print (py_str PYTHON3 key)) w = (Ok tt, w')
    /\ w_stdout w' = w_stdout w ++ ls_long_lines l
    /\ w_requests w' = w_requests w ++ value_requests l
    /\ w_kv w' = w_kv w
    /\ w_transport w' = w_transport w
    /\ w_stderr w' = w_stderr w.
Proof.
  induction l as [|r l IH]; intros w Hlong Ht Hok Hl.
  - exists w. unfold ls_long_lines, value_requests. simpl. rewrite !app_nil_r.
    repeat split; reflexivity.
  - destruct (Hl r (or_introl eq_refl)) as [Hlook [n Hn]].
    destruct r as [k [f v]]. simpl in Hlook, Hn.
    destruct (IH (put_stdout (ls_long_line k n) (log_request (KvGetItem k) true w))
                 Hlong Ht) as [w' [Hrun [Hout [Hreq [Hkv [Htr Herr]]]]]].
    { intros i. apply Hok. }
    { intros r Hr. apply Hl. right. exact Hr. }
    exists w'. split; [|split; [|split; [|split; [|split]]]].
    + rewrite map_cons, for_each_cons. cbv beta. simpl fst.
      rewrite (kv_ls_long_step PYTHON3 consul args flag k f v n w
                 Hlong Ht (Hok _) Hlook Hn).
      exact Hrun.
    + rewrite Hout. unfold ls_long_lines. simpl. unfold value_length. rewrite Hn.
      rewrite <- app_assoc. reflexivity.
    + rewrite Hreq. unfold value_requests. simpl. rewrite <- app_assoc. reflexivity.
    + rewrite Hkv. reflexivity.
    + rewrite Htr. reflexivity.
    + rewrite Herr. reflexivity.
Qed.

(** X8 ([kv_ls]): with [--long], a transport that delivers and a store whose
    keys are distinct and whose values all have a length, the listing ends
    normally with one line per key (the length of the value right-justified
    in 14 columns, a space, the key) and sends one request for the keys
    followed by one request per key for its value, in the store's order. *)
Theorem kv_ls_long_lists_every_key (PYTHON3 : bool) (consul : Consul)
    (args : namespace) (flag : pyval) (w : world) :
  args !! "long"%string = Some flag -> truthy flag = true ->
  (forall i, w_transport w i = true) ->
  NoDup (List.map fst (w_kv w)) ->
  (forall r, In r (w_kv w) -> exists n, py_len (snd (snd r)) = Ok n) ->
  fst (kv_ls PYTHON3 consul args w) = Ok tt
  /\ w_stdout (snd (kv_ls PYTHON3 consul args w)) = w_stdout w ++ ls_long_lines (w_kv w)
  /\ new_requests w (snd (kv_ls PYTHON3 consul args w))
     = (KvKeys, true) :: value_requests (w_kv w).
Proof.
  intros Hlong Ht Hok Hnd Hlen.
  destruct (kv_ls_long_run PYTHON3 consul args flag (w_kv w)
              (log_request KvKeys true w) Hlong Ht)
    as [w' [Hrun [Hout [Hreq _]]]].
  - intros i. apply Hok.
  - intros r Hr. split; [apply (store_lookup_In _ _ Hnd Hr)|apply Hlen, Hr].
  - unfold kv_ls.
    erewrite try_Ok.
    2:{ rewrite kv_ls_keys by apply Hok. exact Hrun. }
    cbn [fst snd]. split; [reflexivity|]. split; [exact Hout|].
    apply new_requests_app. rewrite Hreq. simpl. rewrite <- app_assoc. reflexivity.
Qed.

Lemma kv_ls_long_lists_every_key_witness :
  fst (kv_ls true sample_consul (sample_ls_args true) flat_world) = Ok tt
  /\ w_stdout (snd (kv_ls true sample_consul (sample_ls_args true) flat_world))
     = py "             1 a" ++ [10] ++ py "            10 b/c" ++ [10]
  /\ new_requests flat_world
       (snd (kv_ls true sample_consul (sample_ls_args true) flat_world))
     = [(KvKeys, true); (KvGetItem (py "a"), true); (KvGetItem (py "b/c"), true)].
Proof.
  destruct (kv_ls_long_lists_every_key true sample_consul (sample_ls_args true)
              (PBool true) flat_world) as [Hr [Hout Hreq]].
  - reflexivity.
  - reflexivity.
  - intros i. reflexivity.
  - distinct_keys.
  - intros r [<-|[<-|[]]]; simpl; eauto.
  - split; [exact Hr|]. split; [rewrite Hout|rewrite Hreq]; reflexivity.
Defined.

(** X9 ([kv_ls]): with [--long], the listing stops at the first key whose
    value has no length (a folder, a number): the lines of the keys before
    it were printed, its value was the last thing asked for, and the
    handler ends with [TypeError] without an error line; the keys after it
    are not listed. *)
Theorem kv_ls_long_stops_at_unsized (PYTHON3 : bool) (consul : Consul)
    (args : namespace) (flag : pyval) (w : world)
    (pre post : store) (k : pystr) (f v : pyval) :
  args !! "long"%string = Some flag -> truthy flag = true ->
  (forall i, w_transport w i = true) ->
  w_kv w = pre ++ (k, (f, v)) :: post ->
  NoDup (List.map fst (w_kv w)) ->
  (forall r, In r pre -> exists n, py_len (snd (snd r)) = Ok n) ->
  unsized v ->
  fst (kv_ls PYTHON3 consul args w) = Raise TypeError
  /\ w_stdout (snd (kv_ls PYTHON3 consul args w)) = w_stdout w ++ ls_long_lines pre
  /\ new_requests w (snd (kv_ls PYTHON3 consul args w))
     = (KvKeys, true) :: value_requests pre ++ [(KvGetItem k, true)]
  /\ w_stderr (snd (kv_ls PYTHON3 consul args w)) = w_stderr w.
Proof.
  intros Hlong Ht Hok Hkv Hnd Hlen Hv.
  assert (Hlook : forall r, In r (w_kv w) -> store_lookup (fst r) (w_kv w) = Some (snd r))
    by (intros r Hr; apply (store_lookup_In _ _ Hnd Hr)).
  destruct (kv_ls_long_run PYTHON3 consul args flag pre
              (log_request KvKeys true w) Hlong Ht)
    as [w' [Hrun [Hout [Hreq [Hkv' [Htr Herr]]]]]].
  { intros i. apply Hok. }
  { intros r Hr. split; [|apply Hlen, Hr].
    apply Hlook. rewrite Hkv. apply in_or_app. left. exact Hr. }
  assert (Hk : store_lookup k (w_kv w') = Some (f, v)).
  { rewrite Hkv'. apply (Hlook (k, (f, v))). rewrite Hkv. apply in_or_app.
    right. left. reflexivity. }
  assert (Hrun' : kv_ls PYTHON3 consul args w
                  = (Raise TypeError, log_request (KvGetItem k) true w')).
  { unfold kv_ls, try_except_ConnectionError.
    rewrite kv_ls_keys by apply Hok. rewrite Hkv, map_app, for_each_app, Hrun.
    rewrite map_cons, for_each_cons. cbv beta. simpl fst.
    rewrite (bind_getattr _ _ _ _ _ Hlong). cbv beta. rewrite Ht.
    unfold bind at 1. unfold consul_kv_getitem, with_path, request.
    rewrite Htr. change (w_transport (log_request KvKeys true w)) with (w_transport w).
    rewrite Hok.
    change (w_kv (log_request (KvGetItem k) true w')) with (w_kv w').
    rewrite Hk. unfold bind, lift. rewrite Hv. reflexivity. }
  rewrite Hrun'. cbn [fst snd]. split; [reflexivity|]. split; [exact Hout|]. split.
  - apply new_requests_app. simpl. rewrite Hreq. simpl.
    rewrite <- !app_assoc. reflexivity.
  - simpl. exact Herr.
Qed.

Lemma kv_ls_long_stops_at_unsized_witness :
  fst (kv_ls true sample_consul (sample_ls_args true) folder_world) = Raise TypeError
  /\ w_stdout (snd (kv_ls true sample_consul (sample_ls_args true) folder_world))
     = py "             1 a" ++ [10].
Proof.
  destruct (kv_ls_long_stops_at_unsized true sample_consul (sample_ls_args true)
              (PBool true) folder_world
              [ (py "a", (PInt 0, PStr (py "1"))) ]
              [ (py "z", (PInt 0, PStr (py "26"))) ]
              (py "web/") (PInt 0) PNone) as [Hr [Hout _]].
  - reflexivity.
  - reflexivity.
  - intros i. reflexivity.
  - reflexivity.
  - distinct_keys.
  - intros r [<-|[]]; simpl; eauto.
  - reflexivity.
  - split; [exact Hr|]. rewrite Hout. reflexivity.
Defined.

(** ** [kv_restore] on input that is JSON but no list of tuples *)

(** A row with fewer than three elements: the index error of the first
    element that is missing, before anything is sent. *)
Lemma kv_restore_row_short (PYTHON3 : bool) (consul : Consul) (args : namespace)
    (short : list pyval) (w : world) :
  (length short < 3)%nat ->
  kv_restore_row PYTHON3 consul args (PList short) w = (Raise IndexError, w).
Proof.
  intros Hlen.
  destruct short as [|x [|y [|z short]]]; simpl in Hlen; try lia;
    destruct PYTHON3; reflexivity.
Qed.

(** X5 ([kv_restore]): the rows are not checked before the loop.  When the
    input is a JSON list that starts with tuples and goes on with a row of
    fewer than three elements, the tuples before that row are written, and
    the handler then stops with the [IndexError] of the missing element,
    which it does not catch: the writes stay applied, nothing is sent for
    the rows after it and no error line is printed. *)
Theorem kv_restore_short_row (PYTHON3 : bool) (consul : Consul) (args : namespace)
    (no_replace : pyval) (w : world) (text : pystr)
    (R : store) (short rest : list pyval) :
  restore_input args w = Some text ->
  Json.loads text = Some (PList (List.map (fun r => PList [PStr (fst r); fst (snd r);
                                                          snd (snd r)]) R
                                  ++ PList short :: rest)) ->
  (length short < 3)%nat ->
  args !! "no_replace"%string = Some no_replace ->
  (forall i, (i < length R)%nat ->
             w_transport w (length (w_requests w) + i) = true) ->
  kv_restore PYTHON3 consul args w
  = (Raise IndexError,
     after_writes (List.map (restore_write PYTHON3 no_replace) R) w).
Proof.
  intros Hin Hparse Hlen Hnr Hok.
  rewrite (kv_restore_reads _ _ _ _ _ Hin), Hparse.
  unfold bind at 1. unfold lift, iterate.
  rewrite for_each_app, (restore_rows_delivered _ _ _ _ _ _ Hnr Hok).
  rewrite for_each_cons, (kv_restore_row_short _ _ _ _ _ Hlen). reflexivity.
Qed.

Lemma kv_restore_short_row_witness :
  restore_input (sample_restore_args false) (fresh_world short_row_text)
  = Some short_row_text
  /\ fst (kv_restore true sample_consul (sample_restore_args false)
                     (fresh_world short_row_text)) = Raise IndexError
  /\ w_kv (snd (kv_restore true sample_consul (sample_restore_args false)
                           (fresh_world short_row_text)))
     = [ (py "a", (PInt 0, PStr (py "1"))) ].
Proof.
  assert (Hin : restore_input (sample_restore_args false) (fresh_world short_row_text)
                = Some short_row_text) by (vm_compute; reflexivity).
  assert (Hparse : Json.loads short_row_text
                   = Some (PList (List.map (fun r => PList [PStr (fst r); fst (snd r);
                                                            snd (snd r)])
                                           [ (py "a", (PInt 0, PStr (py "1"))) ]
                                  ++ PList [PStr (py "b"); PInt 0]
                                  :: [ PList [PStr (py "c"); PInt 0; PStr (py "3")] ])))
    by (vm_compute; reflexivity).
  split; [exact Hin|].
  rewrite (kv_restore_short_row true sample_consul (sample_restore_args false)
             (PBool false) (fresh_world short_row_text) short_row_text
             _ _ _ Hin Hparse).
  - split; reflexivity.
  - simpl. lia.
  - reflexivity.
  - intros i _. reflexivity.
Defined.

(** X6 ([kv_restore]): input that is JSON but [null], a boolean or a number
    cannot be iterated: the handler stops with [TypeError] and the world is
    as before (nothing sent, nothing printed). *)
Theorem kv_restore_not_iterable (PYTHON3 : bool) (consul : Consul) (args : namespace)
    (w : world) (text : pystr) (v : pyval) :
  restore_input args w = Some text ->
  Json.loads text = Some v ->
  json_atom v ->
  kv_restore PYTHON3 consul args w = (Raise TypeError, w).
Proof.
  intros Hin Hparse Hv.
  rewrite (kv_restore_reads _ _ _ _ _ Hin), Hparse.
  destruct v; try contradiction; reflexivity.
Qed.

Lemma kv_restore_not_iterable_witness :
  Json.loads (py "null") = Some PNone
  /\ kv_restore true sample_consul (sample_restore_args false)
                (fresh_world (py "null"))
     = (Raise TypeError, fresh_world (py "null")).
Proof.
  assert (Hparse : Json.loads (py "null") = Some PNone) by (vm_compute; reflexivity).
  split; [exact Hparse|].
  apply (kv_restore_not_iterable true sample_consul (sample_restore_args false)
           (fresh_world (py "null")) (py "null") PNone); [reflexivity|exact Hparse|exact I].
Defined.

(** ** [kv_mkdir] and [kv_get] *)

Lemma removelast_slash (path : pystr) :
  removelast path = py "/" <-> exists c, path = [47; c].
Proof.
  split.
  - intros H. destruct path as [|a [|b [|c rest]]].
    + discriminate H.
    + discriminate H.
    + injection H as ->. eauto.
    + change (a :: b :: removelast (c :: rest) = py "/") in H. discriminate H.
  - intros [c ->]. reflexivity.
Qed.

(** X10 ([kv_mkdir]): the slash is appended to every path that is not made
    of a slash and one more character, so also to the empty path and to a
    path that ends with a slash already; one [set] of the path with no
    value is sent. *)
Theorem kv_mkdir_appends_slash (consul : Consul) (args : namespace)
    (path : pystr) (w : world) :
  args !! "path"%string = Some (PStr path) ->
  (forall c, path <> [47; c]) ->
  new_requests w (snd (kv_mkdir consul args w))
  = [(KvSet (path ++ py "/") PNone, w_transport w (length (w_requests w)))].
Proof.
  intros Hpath Hform. apply new_requests_app.
  rewrite (kv_mkdir_request consul args path w Hpath).
  replace (pystr_eqb (removelast path) (py "/")) with false; [reflexivity|].
  symmetry. apply pystr_eqb_neq. intros H. apply removelast_slash in H as [c ->].
  apply (Hform c). reflexivity.
Qed.

Lemma kv_mkdir_appends_slash_witness :
  new_requests empty_world
    (snd (kv_mkdir sample_consul {[ "path"%string := PStr (py "a/b/") ]} empty_world))
  = [(KvSet (py "a/b//") PNone, true)].
Proof.
  apply (kv_mkdir_appends_slash sample_consul _ (py "a/b/") empty_world).
  - reflexivity.
  - intros c. discriminate.
Defined.

(** X11 ([kv_get]): [kv get] does not tell a missing key from a folder or
    from a key whose value is the text [None]: with the request delivered,
    each of the three ends normally and prints the line [None]. *)
Theorem kv_get_prints_None (PYTHON3 : bool) (consul : Consul) (args : namespace)
    (key : pystr) (w : world) :
  args !! "key"%string = Some (PStr key) ->
  w_transport w (length (w_requests w)) = true ->
  store_lookup key (w_kv w) = None
  \/ (exists flags, store_lookup key (w_kv w) = Some (flags, PNone))
  \/ (exists flags, store_lookup key (w_kv w) = Some (flags, PStr (py "None"))) ->
  kv_get PYTHON3 consul args w
  = (Ok tt, put_stdout (py "None" ++ [10]) (log_request (KvGet key) true w)).
Proof.
  intros Hkey Hok Hlook. unfold kv_get. apply try_Ok.
  rewrite (bind_getattr _ _ _ _ _ Hkey). cbv beta.
  unfold bind, consul_kv_get, with_path, request. rewrite Hok.
  change (w_kv (log_request (KvGet key) true w)) with (w_kv w).
  destruct Hlook as [->|[[flags ->]|[flags ->]]]; reflexivity.
Qed.

Lemma kv_get_prints_None_witness :
  kv_get true sample_consul sample_get_args sample_world
  = (Ok tt, put_stdout (py "None" ++ [10]) (log_request (KvGet (py "foo")) true sample_world))
  /\ kv_get true sample_consul {[ "key"%string := PStr (py "web/") ]} sample_world
     = (Ok tt, put_stdout (py "None" ++ [10])
                          (log_request (KvGet (py "web/")) true sample_world)).
Proof.
  split.
  - apply (kv_get_prints_None true sample_consul sample_get_args (py "foo") sample_world);
      [reflexivity|reflexivity|left; reflexivity].
  - apply (kv_get_prints_None true sample_consul _ (py "web/") sample_world);
      [reflexivity|reflexivity|right; left; exists (PInt 0); reflexivity].
Defined.

(** ** Backup to a file and restore from it *)

(** X4 ([kv_backup], [kv_restore]): a backup of records that a backup
    carries, written to a file that can be opened for writing, and restored
    from a file with that content: both handlers end normally, the restore
    sends one [set_record] per record of the store that was backed up, in
    its order, with its path, flags and value, and restored into an empty
    store the records are those of the store that was backed up. *)
Theorem backup_restore_through_file (PYTHON3 : bool) (consul : Consul)
    (args_backup args_restore : namespace) (no_replace : pyval) (p : pystr)
    (w w2 : world) :
  Forall (carried_record PYTHON3) (w_kv w) ->
  args_backup !! "file"%string = Some (PStr p) -> p <> [] ->
  w_writable w p = true ->
  w_transport w (length (w_requests w)) = true ->
  args_restore !! "file"%string = Some (PStr p) ->
  args_restore !! "no_replace"%string = Some no_replace ->
  file_lookup p (w_files w2)
  = file_lookup p (w_files (snd (kv_backup PYTHON3 consul args_backup w))) ->
  (forall i, w_transport w2 i = true) ->
  fst (kv_backup PYTHON3 consul args_backup w) = Ok tt
  /\ fst (kv_restore PYTHON3 consul args_restore w2) = Ok tt
  /\ new_requests w2 (snd (kv_restore PYTHON3 consul args_restore w2))
     = List.map (fun r => (KvSetRecord (fst r) (fst (snd r)) (snd (snd r))
                                       (negb (truthy no_replace)), true)) (w_kv w)
  /\ (w_kv w2 = [] -> NoDup (List.map fst (w_kv w)) ->
      w_kv (snd (kv_restore PYTHON3 consul args_restore w2)) = w_kv w).
Proof.
  intros Hvalid Hfile Hp Hw Hok Hfile2 Hnr Hsame Hok2.
  destruct (reads_records PYTHON3 (w_kv w) Hvalid) as [R' [Hback Hreads]].
  destruct Hreads as (t & Hdump & Hhead & Hscan).
  assert (Hwritten : file_lookup p (w_files (snd (kv_backup PYTHON3 consul args_backup w)))
                     = Some (t ++ [10])).
  { rewrite (kv_backup_file_run _ _ _ _ _ _ Hfile Hp Hw Hok Hdump). cbn [snd].
    change (w_files (set_files ?fs _)) with fs.
    rewrite file_lookup_put, pystr_eqb_refl. reflexivity. }
  split; [rewrite (kv_backup_file_run _ _ _ _ _ _ Hfile Hp Hw Hok Hdump); reflexivity|].
  assert (Hin : restore_input args_restore w2 = Some (t ++ [10])).
  { unfold restore_input. rewrite Hfile2, (truthy_text _ Hp), Hsame. exact Hwritten. }
  assert (Hparse : Json.loads (t ++ [10]) = Some (tuples_value R')).
  { apply (loads_reads PYTHON3 (tuples_value (w_kv w))); [|exact Hdump].
    exists t. auto. }
  rewrite (kv_restore_tuples _ _ _ _ _ _ Hin Hparse).
  rewrite (restore_rows_delivered _ _ _ _ _ _ Hnr (fun i _ => Hok2 _)).
  split; [reflexivity|]. simpl snd. split.
  - unfold new_requests. rewrite after_writes_requests, drop_app_length.
    rewrite (restore_write_read_back _ _ _ _ Hback), List.map_map. reflexivity.
  - intros Hempty Hnd. rewrite after_writes_kv, Hempty.
    apply (apply_writes_fresh _ _ _ _ Hback []). exact Hnd.
Qed.

Lemma backup_restore_through_file_witness :
  Forall (carried_record true) (w_kv (backup_file_world (fun _ => true)))
  /\ w_kv (snd (kv_restore true sample_consul restore_file_args restore_file_world))
     = sample_store.
Proof.
  assert (Hvalid : Forall (carried_record true) (w_kv (backup_file_world (fun _ => true))))
    by (repeat constructor).
  split; [exact Hvalid|].
  destruct (backup_restore_through_file true sample_consul backup_file_args
              restore_file_args (PBool false) (py "kv.json")
              (backup_file_world (fun _ => true)) restore_file_world)
    as (_ & _ & _ & Hstore).
  - exact Hvalid.
  - reflexivity.
  - discriminate.
  - reflexivity.
  - reflexivity.
  - reflexivity.
  - reflexivity.
  - vm_compute. reflexivity.
  - intros i. reflexivity.
  - apply Hstore; [reflexivity|]. distinct_keys.
Defined.

(** ** [kv_backup] to the standard output *)

(** X3 ([kv_backup]): without a file name ([args.file] is [None] or empty)
    the backup goes to the standard output, whole or not at all: either the
    handler ends normally and the JSON text of the records and a newline
    were appended, or it does not end normally and nothing was written
    there. *)
Theorem kv_backup_stdout_all_or_nothing (PYTHON3 : bool) (consul : Consul)
    (args : namespace) (file : pyval) (w : world) :
  args !! "file"%string = Some file -> truthy file = false ->
  (fst (kv_backup PYTHON3 consul args w) = Ok tt
   /\ exists t, Json.dumps PYTHON3 (tuples_value (w_kv w)) = Ok t
                /\ w_stdout (snd (kv_backup PYTHON3 consul args w))
                   = w_stdout w ++ t ++ [10])
  \/ (fst (kv_backup PYTHON3 consul args w) <> Ok tt
      /\ w_stdout (snd (kv_backup PYTHON3 consul args w)) = w_stdout w).
Proof.
  intros Hfile Ht. unfold kv_backup.
  rewrite (bind_getattr _ _ _ _ _ Hfile). cbv beta. rewrite Ht, bind_ret.
  unfold try_except_ConnectionError, bind, consul_kv_records, request.
  destruct (w_transport w (length (w_requests w))).
  - cbv beta iota. change (w_kv (log_request KvRecords true w)) with (w_kv w).
    fold (tuples_value (w_kv w)). unfold lift.
    destruct (Json.dumps PYTHON3 (tuples_value (w_kv w))) as [t|e].
    + left. split; [reflexivity|]. exists t. split; reflexivity.
    + right. destruct e; split; try discriminate; reflexivity.
  - right. split; [discriminate|reflexivity].
Qed.

Lemma kv_backup_stdout_all_or_nothing_witness :
  fst (kv_backup true sample_consul (sample_restore_args false) offline_world) <> Ok tt
  /\ w_stdout (snd (kv_backup true sample_consul (sample_restore_args false)
                              offline_world)) = [].
Proof.
  destruct (kv_backup_stdout_all_or_nothing true sample_consul
              (sample_restore_args false) PNone offline_world)
    as [[Hok _]|H]; [reflexivity|reflexivity| |exact H].
  vm_compute in Hok. discriminate Hok.
Defined.
